(** * FinDash: the spreadsheet-to-data.json extraction engine

    A shallow embedding of [parseWorkbook] and its helpers, as written in
    [scripts/sync_onedrive_to_datajson.mjs] and in the earlier copy of the
    same script, together with the platform functions they call
    ([String], [trim], [toLowerCase], [Number], [Array.prototype.sort]).

    The download of the workbook ([withDownload], [fetchArrayBuffer]) is
    embedded with the network as a parameter and the requests and timeouts
    of a run as explicit state.

    - JavaScript strings are sequences of UTF-16 code units ([list N]).
    - JavaScript numbers are IEEE 754 binary64 values ([spec_float]).
    - The grid [rows] produced by [XLSX.utils.sheet_to_json] is a list of
      rows, each a list of cell values. *)

From Stdlib Require Import String Ascii.
From Stdlib Require Import List ZArith NArith Bool Lia.
From Stdlib Require Import SpecFloat Permutation Sorted.
Import ListNotations.

Set Implicit Arguments.

(* ================================================================== *)
(** * Platform: strings *)
(* ================================================================== *)

Definition jsstring := list N.

(** Code points of a UTF-8 byte sequence. *)
Fixpoint utf8_decode (bs : list N) : list N :=
  match bs with
  | [] => []
  | b0 :: t0 =>
    if (b0 <? 128)%N then b0 :: utf8_decode t0
    else match t0 with
    | [] => []
    | b1 :: t1 =>
      if (b0 <? 224)%N
      then ((b0 mod 32) * 64 + b1 mod 64)%N :: utf8_decode t1
      else match t1 with
      | [] => []
      | b2 :: t2 =>
        if (b0 <? 240)%N
        then ((b0 mod 16) * 4096 + (b1 mod 64) * 64 + b2 mod 64)%N
               :: utf8_decode t2
        else match t2 with
        | [] => []
        | b3 :: t3 =>
          ((b0 mod 8) * 262144 + (b1 mod 64) * 4096
           + (b2 mod 64) * 64 + b3 mod 64)%N :: utf8_decode t3
        end
      end
    end
  end.

(** UTF-16 code units of one code point. *)
Definition utf16_units (cp : N) : list N :=
  if (cp <? 65536)%N then [cp]
  else let v := (cp - 65536)%N in
       [(55296 + v / 1024)%N; (56320 + v mod 1024)%N].

(** A string literal of this file, read as the JavaScript string it
    denotes. *)
Definition js (s : string) : jsstring :=
  flat_map utf16_units
    (utf8_decode (List.map (fun a => N_of_ascii a) (list_ascii_of_string s))).
Arguments js s%_string.

Fixpoint jseqb (a b : jsstring) : bool :=
  match a, b with
  | [], [] => true
  | x :: a', y :: b' => (x =? y)%N && jseqb a' b'
  | _, _ => false
  end.

(** WhiteSpace and LineTerminator code units: what [trim] strips and what
    [\s] matches. *)
Definition isWhiteSpace (c : N) : bool :=
  ((9 <=? c) && (c <=? 13) || (c =? 32) || (c =? 160) || (c =? 5760)
   || (8192 <=? c) && (c <=? 8202) || (c =? 8232) || (c =? 8233)
   || (c =? 8239) || (c =? 8287) || (c =? 12288) || (c =? 65279))%N.

Fixpoint trimStart (s : jsstring) : jsstring :=
  match s with
  | [] => []
  | c :: t => if isWhiteSpace c then trimStart t else s
  end.

Definition trimEnd (s : jsstring) : jsstring := rev (trimStart (rev s)).

Definition trim (s : jsstring) : jsstring := trimEnd (trimStart s).

(** ** toLowerCase

    [String.prototype.toLowerCase] works on the code points of the string
    and maps them by the Unicode Default Case Conversion: the lower-case
    mappings of the Unicode Character Database and the mappings of its
    file SpecialCasing that depend on no language. The tables below are
    those of version 14.0 of the database. *)

Definition isHighSurrogate (c : N) : bool :=
  ((0xD800 <=? c) && (c <=? 0xDBFF))%N.

Definition isLowSurrogate (c : N) : bool :=
  ((0xDC00 <=? c) && (c <=? 0xDFFF))%N.

(** StringToCodePoints: a high surrogate followed by a low surrogate is
    one code point, every other code unit is a code point of its own. *)
Fixpoint codePoints (s : jsstring) : list N :=
  match s with
  | [] => []
  | c :: t =>
    match t with
    | d :: u =>
      if isHighSurrogate c && isLowSurrogate d
      then (0x10000 + (c - 0xD800) * 0x400 + (d - 0xDC00))%N :: codePoints u
      else c :: codePoints t
    | [] => [c]
    end
  end.

(** CodePointsToString, for one code point. *)
Definition codeUnits (cp : N) : jsstring :=
  if (cp <? 0x10000)%N then [cp]
  else [(0xD800 + (cp - 0x10000) / 0x400)%N;
        (0xDC00 + (cp - 0x10000) mod 0x400)%N].

(** The lower-case mappings of single code points to single code points:
    [(first, last, step, target)] says that the code points [first],
    [first + step], ... up to [last] map to [target], [target + step],
    ... The entries are in the order of [first]. *)
Definition lowerTable : list (N * N * N * N) :=
  [
    (0x41, 0x5A, 1, 0x61); (0xC0, 0xD6, 1, 0xE0);
    (0xD8, 0xDE, 1, 0xF8); (0x100, 0x12E, 2, 0x101);
    (0x132, 0x136, 2, 0x133); (0x139, 0x147, 2, 0x13A);
    (0x14A, 0x176, 2, 0x14B); (0x178, 0x178, 1, 0xFF);
    (0x179, 0x17D, 2, 0x17A); (0x181, 0x181, 1, 0x253);
    (0x182, 0x184, 2, 0x183); (0x186, 0x186, 1, 0x254);
    (0x187, 0x187, 1, 0x188); (0x189, 0x18A, 1, 0x256);
    (0x18B, 0x18B, 1, 0x18C); (0x18E, 0x18E, 1, 0x1DD);
    (0x18F, 0x18F, 1, 0x259); (0x190, 0x190, 1, 0x25B);
    (0x191, 0x191, 1, 0x192); (0x193, 0x193, 1, 0x260);
    (0x194, 0x194, 1, 0x263); (0x196, 0x196, 1, 0x269);
    (0x197, 0x197, 1, 0x268); (0x198, 0x198, 1, 0x199);
    (0x19C, 0x19C, 1, 0x26F); (0x19D, 0x19D, 1, 0x272);
    (0x19F, 0x19F, 1, 0x275); (0x1A0, 0x1A4, 2, 0x1A1);
    (0x1A6, 0x1A6, 1, 0x280); (0x1A7, 0x1A7, 1, 0x1A8);
    (0x1A9, 0x1A9, 1, 0x283); (0x1AC, 0x1AC, 1, 0x1AD);
    (0x1AE, 0x1AE, 1, 0x288); (0x1AF, 0x1AF, 1, 0x1B0);
    (0x1B1, 0x1B2, 1, 0x28A); (0x1B3, 0x1B5, 2, 0x1B4);
    (0x1B7, 0x1B7, 1, 0x292); (0x1B8, 0x1B8, 1, 0x1B9);
    (0x1BC, 0x1BC, 1, 0x1BD); (0x1C4, 0x1C4, 1, 0x1C6);
    (0x1C5, 0x1C5, 1, 0x1C6); (0x1C7, 0x1C7, 1, 0x1C9);
    (0x1C8, 0x1C8, 1, 0x1C9); (0x1CA, 0x1CA, 1, 0x1CC);
    (0x1CB, 0x1DB, 2, 0x1CC); (0x1DE, 0x1EE, 2, 0x1DF);
    (0x1F1, 0x1F1, 1, 0x1F3); (0x1F2, 0x1F4, 2, 0x1F3);
    (0x1F6, 0x1F6, 1, 0x195); (0x1F7, 0x1F7, 1, 0x1BF);
    (0x1F8, 0x21E, 2, 0x1F9); (0x220, 0x220, 1, 0x19E);
    (0x222, 0x232, 2, 0x223); (0x23A, 0x23A, 1, 0x2C65);
    (0x23B, 0x23B, 1, 0x23C); (0x23D, 0x23D, 1, 0x19A);
    (0x23E, 0x23E, 1, 0x2C66); (0x241, 0x241, 1, 0x242);
    (0x243, 0x243, 1, 0x180); (0x244, 0x244, 1, 0x289);
    (0x245, 0x245, 1, 0x28C); (0x246, 0x24E, 2, 0x247);
    (0x370, 0x372, 2, 0x371); (0x376, 0x376, 1, 0x377);
    (0x37F, 0x37F, 1, 0x3F3); (0x386, 0x386, 1, 0x3AC);
    (0x388, 0x38A, 1, 0x3AD); (0x38C, 0x38C, 1, 0x3CC);
    (0x38E, 0x38F, 1, 0x3CD); (0x391, 0x3A1, 1, 0x3B1);
    (0x3A3, 0x3AB, 1, 0x3C3); (0x3CF, 0x3CF, 1, 0x3D7);
    (0x3D8, 0x3EE, 2, 0x3D9); (0x3F4, 0x3F4, 1, 0x3B8);
    (0x3F7, 0x3F7, 1, 0x3F8); (0x3F9, 0x3F9, 1, 0x3F2);
    (0x3FA, 0x3FA, 1, 0x3FB); (0x3FD, 0x3FF, 1, 0x37B);
    (0x400, 0x40F, 1, 0x450); (0x410, 0x42F, 1, 0x430);
    (0x460, 0x480, 2, 0x461); (0x48A, 0x4BE, 2, 0x48B);
    (0x4C0, 0x4C0, 1, 0x4CF); (0x4C1, 0x4CD, 2, 0x4C2);
    (0x4D0, 0x52E, 2, 0x4D1); (0x531, 0x556, 1, 0x561);
    (0x10A0, 0x10C5, 1, 0x2D00); (0x10C7, 0x10C7, 1, 0x2D27);
    (0x10CD, 0x10CD, 1, 0x2D2D); (0x13A0, 0x13EF, 1, 0xAB70);
    (0x13F0, 0x13F5, 1, 0x13F8); (0x1C90, 0x1CBA, 1, 0x10D0);
    (0x1CBD, 0x1CBF, 1, 0x10FD); (0x1E00, 0x1E94, 2, 0x1E01);
    (0x1E9E, 0x1E9E, 1, 0xDF); (0x1EA0, 0x1EFE, 2, 0x1EA1);
    (0x1F08, 0x1F0F, 1, 0x1F00); (0x1F18, 0x1F1D, 1, 0x1F10);
    (0x1F28, 0x1F2F, 1, 0x1F20); (0x1F38, 0x1F3F, 1, 0x1F30);
    (0x1F48, 0x1F4D, 1, 0x1F40); (0x1F59, 0x1F5F, 2, 0x1F51);
    (0x1F68, 0x1F6F, 1, 0x1F60); (0x1F88, 0x1F8F, 1, 0x1F80);
    (0x1F98, 0x1F9F, 1, 0x1F90); (0x1FA8, 0x1FAF, 1, 0x1FA0);
    (0x1FB8, 0x1FB9, 1, 0x1FB0); (0x1FBA, 0x1FBB, 1, 0x1F70);
    (0x1FBC, 0x1FBC, 1, 0x1FB3); (0x1FC8, 0x1FCB, 1, 0x1F72);
    (0x1FCC, 0x1FCC, 1, 0x1FC3); (0x1FD8, 0x1FD9, 1, 0x1FD0);
    (0x1FDA, 0x1FDB, 1, 0x1F76); (0x1FE8, 0x1FE9, 1, 0x1FE0);
    (0x1FEA, 0x1FEB, 1, 0x1F7A); (0x1FEC, 0x1FEC, 1, 0x1FE5);
    (0x1FF8, 0x1FF9, 1, 0x1F78); (0x1FFA, 0x1FFB, 1, 0x1F7C);
    (0x1FFC, 0x1FFC, 1, 0x1FF3); (0x2126, 0x2126, 1, 0x3C9);
    (0x212A, 0x212A, 1, 0x6B); (0x212B, 0x212B, 1, 0xE5);
    (0x2132, 0x2132, 1, 0x214E); (0x2160, 0x216F, 1, 0x2170);
    (0x2183, 0x2183, 1, 0x2184); (0x24B6, 0x24CF, 1, 0x24D0);
    (0x2C00, 0x2C2F, 1, 0x2C30); (0x2C60, 0x2C60, 1, 0x2C61);
    (0x2C62, 0x2C62, 1, 0x26B); (0x2C63, 0x2C63, 1, 0x1D7D);
    (0x2C64, 0x2C64, 1, 0x27D); (0x2C67, 0x2C6B, 2, 0x2C68);
    (0x2C6D, 0x2C6D, 1, 0x251); (0x2C6E, 0x2C6E, 1, 0x271);
    (0x2C6F, 0x2C6F, 1, 0x250); (0x2C70, 0x2C70, 1, 0x252);
    (0x2C72, 0x2C72, 1, 0x2C73); (0x2C75, 0x2C75, 1, 0x2C76);
    (0x2C7E, 0x2C7F, 1, 0x23F); (0x2C80, 0x2CE2, 2, 0x2C81);
    (0x2CEB, 0x2CED, 2, 0x2CEC); (0x2CF2, 0x2CF2, 1, 0x2CF3);
    (0xA640, 0xA66C, 2, 0xA641); (0xA680, 0xA69A, 2, 0xA681);
    (0xA722, 0xA72E, 2, 0xA723); (0xA732, 0xA76E, 2, 0xA733);
    (0xA779, 0xA77B, 2, 0xA77A); (0xA77D, 0xA77D, 1, 0x1D79);
    (0xA77E, 0xA786, 2, 0xA77F); (0xA78B, 0xA78B, 1, 0xA78C);
    (0xA78D, 0xA78D, 1, 0x265); (0xA790, 0xA792, 2, 0xA791);
    (0xA796, 0xA7A8, 2, 0xA797); (0xA7AA, 0xA7AA, 1, 0x266);
    (0xA7AB, 0xA7AB, 1, 0x25C); (0xA7AC, 0xA7AC, 1, 0x261);
    (0xA7AD, 0xA7AD, 1, 0x26C); (0xA7AE, 0xA7AE, 1, 0x26A);
    (0xA7B0, 0xA7B0, 1, 0x29E); (0xA7B1, 0xA7B1, 1, 0x287);
    (0xA7B2, 0xA7B2, 1, 0x29D); (0xA7B3, 0xA7B3, 1, 0xAB53);
    (0xA7B4, 0xA7C2, 2, 0xA7B5); (0xA7C4, 0xA7C4, 1, 0xA794);
    (0xA7C5, 0xA7C5, 1, 0x282); (0xA7C6, 0xA7C6, 1, 0x1D8E);
    (0xA7C7, 0xA7C9, 2, 0xA7C8); (0xA7D0, 0xA7D0, 1, 0xA7D1);
    (0xA7D6, 0xA7D8, 2, 0xA7D7); (0xA7F5, 0xA7F5, 1, 0xA7F6);
    (0xFF21, 0xFF3A, 1, 0xFF41); (0x10400, 0x10427, 1, 0x10428);
    (0x104B0, 0x104D3, 1, 0x104D8); (0x10570, 0x10594, 2, 0x10597);
    (0x10571, 0x1057A, 1, 0x10598); (0x1057D, 0x1058A, 1, 0x105A4);
    (0x1058D, 0x10592, 1, 0x105B4); (0x10595, 0x10595, 1, 0x105BC);
    (0x10C80, 0x10CB2, 1, 0x10CC0); (0x118A0, 0x118BF, 1, 0x118C0);
    (0x16E40, 0x16E5F, 1, 0x16E60); (0x1E900, 0x1E921, 1, 0x1E922)
  ]%N.

Fixpoint lowerIn (t : list (N * N * N * N)) (cp : N) : N :=
  match t with
  | [] => cp
  | (first, last, step, target) :: rest =>
      if (cp <? first)%N then cp
      else if ((cp <=? last) && ((cp - first) mod step =? 0))%N
      then (target + (cp - first))%N
      else lowerIn rest cp
  end.

Definition lowerPoint (cp : N) : N := lowerIn lowerTable cp.

(** The code points with the property Case_Ignorable, and those with the
    property Cased, as ranges [(first, last)] in order. *)
Definition caseIgnorableTable : list (N * N) :=
  [
    (0x27, 0x27); (0x2E, 0x2E); (0x3A, 0x3A);
    (0x5E, 0x5E); (0x60, 0x60); (0xA8, 0xA8);
    (0xAD, 0xAD); (0xAF, 0xAF); (0xB4, 0xB4);
    (0xB7, 0xB8); (0x2B0, 0x36F); (0x374, 0x375);
    (0x37A, 0x37A); (0x384, 0x385); (0x387, 0x387);
    (0x483, 0x489); (0x559, 0x559); (0x55F, 0x55F);
    (0x591, 0x5BD); (0x5BF, 0x5BF); (0x5C1, 0x5C2);
    (0x5C4, 0x5C5); (0x5C7, 0x5C7); (0x5F4, 0x5F4);
    (0x600, 0x605); (0x610, 0x61A); (0x61C, 0x61C);
    (0x640, 0x640); (0x64B, 0x65F); (0x670, 0x670);
    (0x6D6, 0x6DD); (0x6DF, 0x6E8); (0x6EA, 0x6ED);
    (0x70F, 0x70F); (0x711, 0x711); (0x730, 0x74A);
    (0x7A6, 0x7B0); (0x7EB, 0x7F5); (0x7FA, 0x7FA);
    (0x7FD, 0x7FD); (0x816, 0x82D); (0x859, 0x85B);
    (0x888, 0x888); (0x890, 0x891); (0x898, 0x89F);
    (0x8C9, 0x902); (0x93A, 0x93A); (0x93C, 0x93C);
    (0x941, 0x948); (0x94D, 0x94D); (0x951, 0x957);
    (0x962, 0x963); (0x971, 0x971); (0x981, 0x981);
    (0x9BC, 0x9BC); (0x9C1, 0x9C4); (0x9CD, 0x9CD);
    (0x9E2, 0x9E3); (0x9FE, 0x9FE); (0xA01, 0xA02);
    (0xA3C, 0xA3C); (0xA41, 0xA42); (0xA47, 0xA48);
    (0xA4B, 0xA4D); (0xA51, 0xA51); (0xA70, 0xA71);
    (0xA75, 0xA75); (0xA81, 0xA82); (0xABC, 0xABC);
    (0xAC1, 0xAC5); (0xAC7, 0xAC8); (0xACD, 0xACD);
    (0xAE2, 0xAE3); (0xAFA, 0xAFF); (0xB01, 0xB01);
    (0xB3C, 0xB3C); (0xB3F, 0xB3F); (0xB41, 0xB44);
    (0xB4D, 0xB4D); (0xB55, 0xB56); (0xB62, 0xB63);
    (0xB82, 0xB82); (0xBC0, 0xBC0); (0xBCD, 0xBCD);
    (0xC00, 0xC00); (0xC04, 0xC04); (0xC3C, 0xC3C);
    (0xC3E, 0xC40); (0xC46, 0xC48); (0xC4A, 0xC4D);
    (0xC55, 0xC56); (0xC62, 0xC63); (0xC81, 0xC81);
    (0xCBC, 0xCBC); (0xCBF, 0xCBF); (0xCC6, 0xCC6);
    (0xCCC, 0xCCD); (0xCE2, 0xCE3); (0xD00, 0xD01);
    (0xD3B, 0xD3C); (0xD41, 0xD44); (0xD4D, 0xD4D);
    (0xD62, 0xD63); (0xD81, 0xD81); (0xDCA, 0xDCA);
    (0xDD2, 0xDD4); (0xDD6, 0xDD6); (0xE31, 0xE31);
    (0xE34, 0xE3A); (0xE46, 0xE4E); (0xEB1, 0xEB1);
    (0xEB4, 0xEBC); (0xEC6, 0xEC6); (0xEC8, 0xECD);
    (0xF18, 0xF19); (0xF35, 0xF35); (0xF37, 0xF37);
    (0xF39, 0xF39); (0xF71, 0xF7E); (0xF80, 0xF84);
    (0xF86, 0xF87); (0xF8D, 0xF97); (0xF99, 0xFBC);
    (0xFC6, 0xFC6); (0x102D, 0x1030); (0x1032, 0x1037);
    (0x1039, 0x103A); (0x103D, 0x103E); (0x1058, 0x1059);
    (0x105E, 0x1060); (0x1071, 0x1074); (0x1082, 0x1082);
    (0x1085, 0x1086); (0x108D, 0x108D); (0x109D, 0x109D);
    (0x10FC, 0x10FC); (0x135D, 0x135F); (0x1712, 0x1714);
    (0x1732, 0x1733); (0x1752, 0x1753); (0x1772, 0x1773);
    (0x17B4, 0x17B5); (0x17B7, 0x17BD); (0x17C6, 0x17C6);
    (0x17C9, 0x17D3); (0x17D7, 0x17D7); (0x17DD, 0x17DD);
    (0x180B, 0x180F); (0x1843, 0x1843); (0x1885, 0x1886);
    (0x18A9, 0x18A9); (0x1920, 0x1922); (0x1927, 0x1928);
    (0x1932, 0x1932); (0x1939, 0x193B); (0x1A17, 0x1A18);
    (0x1A1B, 0x1A1B); (0x1A56, 0x1A56); (0x1A58, 0x1A5E);
    (0x1A60, 0x1A60); (0x1A62, 0x1A62); (0x1A65, 0x1A6C);
    (0x1A73, 0x1A7C); (0x1A7F, 0x1A7F); (0x1AA7, 0x1AA7);
    (0x1AB0, 0x1ACE); (0x1B00, 0x1B03); (0x1B34, 0x1B34);
    (0x1B36, 0x1B3A); (0x1B3C, 0x1B3C); (0x1B42, 0x1B42);
    (0x1B6B, 0x1B73); (0x1B80, 0x1B81); (0x1BA2, 0x1BA5);
    (0x1BA8, 0x1BA9); (0x1BAB, 0x1BAD); (0x1BE6, 0x1BE6);
    (0x1BE8, 0x1BE9); (0x1BED, 0x1BED); (0x1BEF, 0x1BF1);
    (0x1C2C, 0x1C33); (0x1C36, 0x1C37); (0x1C78, 0x1C7D);
    (0x1CD0, 0x1CD2); (0x1CD4, 0x1CE0); (0x1CE2, 0x1CE8);
    (0x1CED, 0x1CED); (0x1CF4, 0x1CF4); (0x1CF8, 0x1CF9);
    (0x1D2C, 0x1D6A); (0x1D78, 0x1D78); (0x1D9B, 0x1DFF);
    (0x1FBD, 0x1FBD); (0x1FBF, 0x1FC1); (0x1FCD, 0x1FCF);
    (0x1FDD, 0x1FDF); (0x1FED, 0x1FEF); (0x1FFD, 0x1FFE);
    (0x200B, 0x200F); (0x2018, 0x2019); (0x2024, 0x2024);
    (0x2027, 0x2027); (0x202A, 0x202E); (0x2060, 0x2064);
    (0x2066, 0x206F); (0x2071, 0x2071); (0x207F, 0x207F);
    (0x2090, 0x209C); (0x20D0, 0x20F0); (0x2C7C, 0x2C7D);
    (0x2CEF, 0x2CF1); (0x2D6F, 0x2D6F); (0x2D7F, 0x2D7F);
    (0x2DE0, 0x2DFF); (0x2E2F, 0x2E2F); (0x3005, 0x3005);
    (0x302A, 0x302D); (0x3031, 0x3035); (0x303B, 0x303B);
    (0x3099, 0x309E); (0x30FC, 0x30FE); (0xA015, 0xA015);
    (0xA4F8, 0xA4FD); (0xA60C, 0xA60C); (0xA66F, 0xA672);
    (0xA674, 0xA67D); (0xA67F, 0xA67F); (0xA69C, 0xA69F);
    (0xA6F0, 0xA6F1); (0xA700, 0xA721); (0xA770, 0xA770);
    (0xA788, 0xA78A); (0xA7F2, 0xA7F4); (0xA7F8, 0xA7F9);
    (0xA802, 0xA802); (0xA806, 0xA806); (0xA80B, 0xA80B);
    (0xA825, 0xA826); (0xA82C, 0xA82C); (0xA8C4, 0xA8C5);
    (0xA8E0, 0xA8F1); (0xA8FF, 0xA8FF); (0xA926, 0xA92D);
    (0xA947, 0xA951); (0xA980, 0xA982); (0xA9B3, 0xA9B3);
    (0xA9B6, 0xA9B9); (0xA9BC, 0xA9BD); (0xA9CF, 0xA9CF);
    (0xA9E5, 0xA9E6); (0xAA29, 0xAA2E); (0xAA31, 0xAA32);
    (0xAA35, 0xAA36); (0xAA43, 0xAA43); (0xAA4C, 0xAA4C);
    (0xAA70, 0xAA70); (0xAA7C, 0xAA7C); (0xAAB0, 0xAAB0);
    (0xAAB2, 0xAAB4); (0xAAB7, 0xAAB8); (0xAABE, 0xAABF);
    (0xAAC1, 0xAAC1); (0xAADD, 0xAADD); (0xAAEC, 0xAAED);
    (0xAAF3, 0xAAF4); (0xAAF6, 0xAAF6); (0xAB5B, 0xAB5F);
    (0xAB69, 0xAB6B); (0xABE5, 0xABE5); (0xABE8, 0xABE8);
    (0xABED, 0xABED); (0xFB1E, 0xFB1E); (0xFBB2, 0xFBC2);
    (0xFE00, 0xFE0F); (0xFE13, 0xFE13); (0xFE20, 0xFE2F);
    (0xFE52, 0xFE52); (0xFE55, 0xFE55); (0xFEFF, 0xFEFF);
    (0xFF07, 0xFF07); (0xFF0E, 0xFF0E); (0xFF1A, 0xFF1A);
    (0xFF3E, 0xFF3E); (0xFF40, 0xFF40); (0xFF70, 0xFF70);
    (0xFF9E, 0xFF9F); (0xFFE3, 0xFFE3); (0xFFF9, 0xFFFB);
    (0x101FD, 0x101FD); (0x102E0, 0x102E0); (0x10376, 0x1037A);
    (0x10780, 0x10785); (0x10787, 0x107B0); (0x107B2, 0x107BA);
    (0x10A01, 0x10A03); (0x10A05, 0x10A06); (0x10A0C, 0x10A0F);
    (0x10A38, 0x10A3A); (0x10A3F, 0x10A3F); (0x10AE5, 0x10AE6);
    (0x10D24, 0x10D27); (0x10EAB, 0x10EAC); (0x10F46, 0x10F50);
    (0x10F82, 0x10F85); (0x11001, 0x11001); (0x11038, 0x11046);
    (0x11070, 0x11070); (0x11073, 0x11074); (0x1107F, 0x11081);
    (0x110B3, 0x110B6); (0x110B9, 0x110BA); (0x110BD, 0x110BD);
    (0x110C2, 0x110C2); (0x110CD, 0x110CD); (0x11100, 0x11102);
    (0x11127, 0x1112B); (0x1112D, 0x11134); (0x11173, 0x11173);
    (0x11180, 0x11181); (0x111B6, 0x111BE); (0x111C9, 0x111CC);
    (0x111CF, 0x111CF); (0x1122F, 0x11231); (0x11234, 0x11234);
    (0x11236, 0x11237); (0x1123E, 0x1123E); (0x112DF, 0x112DF);
    (0x112E3, 0x112EA); (0x11300, 0x11301); (0x1133B, 0x1133C);
    (0x11340, 0x11340); (0x11366, 0x1136C); (0x11370, 0x11374);
    (0x11438, 0x1143F); (0x11442, 0x11444); (0x11446, 0x11446);
    (0x1145E, 0x1145E); (0x114B3, 0x114B8); (0x114BA, 0x114BA);
    (0x114BF, 0x114C0); (0x114C2, 0x114C3); (0x115B2, 0x115B5);
    (0x115BC, 0x115BD); (0x115BF, 0x115C0); (0x115DC, 0x115DD);
    (0x11633, 0x1163A); (0x1163D, 0x1163D); (0x1163F, 0x11640);
    (0x116AB, 0x116AB); (0x116AD, 0x116AD); (0x116B0, 0x116B5);
    (0x116B7, 0x116B7); (0x1171D, 0x1171F); (0x11722, 0x11725);
    (0x11727, 0x1172B); (0x1182F, 0x11837); (0x11839, 0x1183A);
    (0x1193B, 0x1193C); (0x1193E, 0x1193E); (0x11943, 0x11943);
    (0x119D4, 0x119D7); (0x119DA, 0x119DB); (0x119E0, 0x119E0);
    (0x11A01, 0x11A0A); (0x11A33, 0x11A38); (0x11A3B, 0x11A3E);
    (0x11A47, 0x11A47); (0x11A51, 0x11A56); (0x11A59, 0x11A5B);
    (0x11A8A, 0x11A96); (0x11A98, 0x11A99); (0x11C30, 0x11C36);
    (0x11C38, 0x11C3D); (0x11C3F, 0x11C3F); (0x11C92, 0x11CA7);
    (0x11CAA, 0x11CB0); (0x11CB2, 0x11CB3); (0x11CB5, 0x11CB6);
    (0x11D31, 0x11D36); (0x11D3A, 0x11D3A); (0x11D3C, 0x11D3D);
    (0x11D3F, 0x11D45); (0x11D47, 0x11D47); (0x11D90, 0x11D91);
    (0x11D95, 0x11D95); (0x11D97, 0x11D97); (0x11EF3, 0x11EF4);
    (0x13430, 0x13438); (0x16AF0, 0x16AF4); (0x16B30, 0x16B36);
    (0x16B40, 0x16B43); (0x16F4F, 0x16F4F); (0x16F8F, 0x16F9F);
    (0x16FE0, 0x16FE1); (0x16FE3, 0x16FE4); (0x1AFF0, 0x1AFF3);
    (0x1AFF5, 0x1AFFB); (0x1AFFD, 0x1AFFE); (0x1BC9D, 0x1BC9E);
    (0x1BCA0, 0x1BCA3); (0x1CF00, 0x1CF2D); (0x1CF30, 0x1CF46);
    (0x1D167, 0x1D169); (0x1D173, 0x1D182); (0x1D185, 0x1D18B);
    (0x1D1AA, 0x1D1AD); (0x1D242, 0x1D244); (0x1DA00, 0x1DA36);
    (0x1DA3B, 0x1DA6C); (0x1DA75, 0x1DA75); (0x1DA84, 0x1DA84);
    (0x1DA9B, 0x1DA9F); (0x1DAA1, 0x1DAAF); (0x1E000, 0x1E006);
    (0x1E008, 0x1E018); (0x1E01B, 0x1E021); (0x1E023, 0x1E024);
    (0x1E026, 0x1E02A); (0x1E130, 0x1E13D); (0x1E2AE, 0x1E2AE);
    (0x1E2EC, 0x1E2EF); (0x1E8D0, 0x1E8D6); (0x1E944, 0x1E94B);
    (0x1F3FB, 0x1F3FF); (0xE0001, 0xE0001); (0xE0020, 0xE007F);
    (0xE0100, 0xE01EF)
  ]%N.

Definition casedTable : list (N * N) :=
  [
    (0x41, 0x5A); (0x61, 0x7A); (0xAA, 0xAA);
    (0xB5, 0xB5); (0xBA, 0xBA); (0xC0, 0xD6);
    (0xD8, 0xF6); (0xF8, 0x1BA); (0x1BC, 0x1BF);
    (0x1C4, 0x293); (0x295, 0x2B8); (0x2C0, 0x2C1);
    (0x2E0, 0x2E4); (0x345, 0x345); (0x370, 0x373);
    (0x376, 0x377); (0x37A, 0x37D); (0x37F, 0x37F);
    (0x386, 0x386); (0x388, 0x38A); (0x38C, 0x38C);
    (0x38E, 0x3A1); (0x3A3, 0x3F5); (0x3F7, 0x481);
    (0x48A, 0x52F); (0x531, 0x556); (0x560, 0x588);
    (0x10A0, 0x10C5); (0x10C7, 0x10C7); (0x10CD, 0x10CD);
    (0x10D0, 0x10FA); (0x10FD, 0x10FF); (0x13A0, 0x13F5);
    (0x13F8, 0x13FD); (0x1C80, 0x1C88); (0x1C90, 0x1CBA);
    (0x1CBD, 0x1CBF); (0x1D00, 0x1DBF); (0x1E00, 0x1F15);
    (0x1F18, 0x1F1D); (0x1F20, 0x1F45); (0x1F48, 0x1F4D);
    (0x1F50, 0x1F57); (0x1F59, 0x1F59); (0x1F5B, 0x1F5B);
    (0x1F5D, 0x1F5D); (0x1F5F, 0x1F7D); (0x1F80, 0x1FB4);
    (0x1FB6, 0x1FBC); (0x1FBE, 0x1FBE); (0x1FC2, 0x1FC4);
    (0x1FC6, 0x1FCC); (0x1FD0, 0x1FD3); (0x1FD6, 0x1FDB);
    (0x1FE0, 0x1FEC); (0x1FF2, 0x1FF4); (0x1FF6, 0x1FFC);
    (0x2071, 0x2071); (0x207F, 0x207F); (0x2090, 0x209C);
    (0x2102, 0x2102); (0x2107, 0x2107); (0x210A, 0x2113);
    (0x2115, 0x2115); (0x2119, 0x211D); (0x2124, 0x2124);
    (0x2126, 0x2126); (0x2128, 0x2128); (0x212A, 0x212D);
    (0x212F, 0x2134); (0x2139, 0x2139); (0x213C, 0x213F);
    (0x2145, 0x2149); (0x214E, 0x214E); (0x2160, 0x217F);
    (0x2183, 0x2184); (0x24B6, 0x24E9); (0x2C00, 0x2CE4);
    (0x2CEB, 0x2CEE); (0x2CF2, 0x2CF3); (0x2D00, 0x2D25);
    (0x2D27, 0x2D27); (0x2D2D, 0x2D2D); (0xA640, 0xA66D);
    (0xA680, 0xA69D); (0xA722, 0xA787); (0xA78B, 0xA78E);
    (0xA790, 0xA7CA); (0xA7D0, 0xA7D1); (0xA7D3, 0xA7D3);
    (0xA7D5, 0xA7D9); (0xA7F5, 0xA7F6); (0xA7F8, 0xA7FA);
    (0xAB30, 0xAB5A); (0xAB5C, 0xAB68); (0xAB70, 0xABBF);
    (0xFB00, 0xFB06); (0xFB13, 0xFB17); (0xFF21, 0xFF3A);
    (0xFF41, 0xFF5A); (0x10400, 0x1044F); (0x104B0, 0x104D3);
    (0x104D8, 0x104FB); (0x10570, 0x1057A); (0x1057C, 0x1058A);
    (0x1058C, 0x10592); (0x10594, 0x10595); (0x10597, 0x105A1);
    (0x105A3, 0x105B1); (0x105B3, 0x105B9); (0x105BB, 0x105BC);
    (0x10780, 0x10780); (0x10783, 0x10785); (0x10787, 0x107B0);
    (0x107B2, 0x107BA); (0x10C80, 0x10CB2); (0x10CC0, 0x10CF2);
    (0x118A0, 0x118DF); (0x16E40, 0x16E7F); (0x1D400, 0x1D454);
    (0x1D456, 0x1D49C); (0x1D49E, 0x1D49F); (0x1D4A2, 0x1D4A2);
    (0x1D4A5, 0x1D4A6); (0x1D4A9, 0x1D4AC); (0x1D4AE, 0x1D4B9);
    (0x1D4BB, 0x1D4BB); (0x1D4BD, 0x1D4C3); (0x1D4C5, 0x1D505);
    (0x1D507, 0x1D50A); (0x1D50D, 0x1D514); (0x1D516, 0x1D51C);
    (0x1D51E, 0x1D539); (0x1D53B, 0x1D53E); (0x1D540, 0x1D544);
    (0x1D546, 0x1D546); (0x1D54A, 0x1D550); (0x1D552, 0x1D6A5);
    (0x1D6A8, 0x1D6C0); (0x1D6C2, 0x1D6DA); (0x1D6DC, 0x1D6FA);
    (0x1D6FC, 0x1D714); (0x1D716, 0x1D734); (0x1D736, 0x1D74E);
    (0x1D750, 0x1D76E); (0x1D770, 0x1D788); (0x1D78A, 0x1D7A8);
    (0x1D7AA, 0x1D7C2); (0x1D7C4, 0x1D7CB); (0x1DF00, 0x1DF09);
    (0x1DF0B, 0x1DF1E); (0x1E900, 0x1E943); (0x1F130, 0x1F149);
    (0x1F150, 0x1F169); (0x1F170, 0x1F189)
  ]%N.

Fixpoint inRanges (t : list (N * N)) (cp : N) : bool :=
  match t with
  | [] => false
  | (first, last) :: rest =>
      if (cp <? first)%N then false
      else if (cp <=? last)%N then true
      else inRanges rest cp
  end.

Definition caseIgnorable (cp : N) : bool := inRanges caseIgnorableTable cp.

Definition cased (cp : N) : bool := inRanges casedTable cp.

(** A cased letter follows, case-ignorable code points skipped. *)
Fixpoint casedAhead (cps : list N) : bool :=
  match cps with
  | [] => false
  | c :: t => if caseIgnorable c then casedAhead t else cased c
  end.

(** The mapping of the code points from left to right; [afterCased] says
    that a cased letter precedes, case-ignorable code points skipped. The
    two mappings of SpecialCasing: capital sigma (U+03A3) becomes final
    sigma (U+03C2) when a cased letter precedes and none follows, and
    small sigma (U+03C3) otherwise; capital I with dot above (U+0130)
    becomes i followed by the combining dot above. *)
Fixpoint lowerPoints (afterCased : bool) (cps : list N) : list N :=
  match cps with
  | [] => []
  | c :: t =>
    (if (c =? 0x3A3)%N then
       if afterCased && negb (casedAhead t) then [0x3C2%N] else [0x3C3%N]
     else if (c =? 0x130)%N then [0x69%N; 0x307%N]
     else [lowerPoint c])
    ++ lowerPoints (if caseIgnorable c then afterCased else cased c) t
  end.

Definition toLowerCase (s : jsstring) : jsstring :=
  flat_map codeUnits (lowerPoints false (codePoints s)).

(** [s.padStart(n, "0")] *)
Definition padStart0 (n : nat) (s : jsstring) : jsstring :=
  repeat 48%N (n - length s) ++ s.

(** Decimal digits of a natural number, as code units. *)
Fixpoint uint_units (d : Decimal.uint) : jsstring :=
  match d with
  | Decimal.Nil => []
  | Decimal.D0 r => 48%N :: uint_units r
  | Decimal.D1 r => 49%N :: uint_units r
  | Decimal.D2 r => 50%N :: uint_units r
  | Decimal.D3 r => 51%N :: uint_units r
  | Decimal.D4 r => 52%N :: uint_units r
  | Decimal.D5 r => 53%N :: uint_units r
  | Decimal.D6 r => 54%N :: uint_units r
  | Decimal.D7 r => 55%N :: uint_units r
  | Decimal.D8 r => 56%N :: uint_units r
  | Decimal.D9 r => 57%N :: uint_units r
  end.

Definition decimalDigits (z : Z) : jsstring :=
  uint_units (N.to_uint (Z.to_N z)).

(* ================================================================== *)
(** * Platform: numbers *)
(* ================================================================== *)

Definition number := spec_float.

Definition b64_prec : Z := 53.
Definition b64_emax : Z := 1024.

Definition NaN : number := S754_nan.
Definition posZero : number := S754_zero false.

(** The double nearest to [a / b] (ties to even), negated when [neg].
    The quotient is taken with 64 extra bits and a sticky bit, so that the
    final rounding sees on which side of every midpoint the exact value
    lies. Expects [0 <= a] and [0 < b]. *)
Definition round_ratio (neg : bool) (a b : Z) : number :=
  if (a =? 0)%Z then S754_zero neg
  else
    let s := (64 + Z.log2 b)%Z in
    let n := (a * 2 ^ s)%Z in
    let q := (n / b)%Z in
    let sticky := if (n mod b =? 0)%Z then 0%Z else 1%Z in
    binary_normalize b64_prec b64_emax
      (cond_Zopp neg (2 * q + sticky)) (- (s + 1)) neg.

(** The number an integer literal denotes. *)
Definition numZ (z : Z) : number :=
  round_ratio (z <? 0)%Z (Z.abs z) 1.

(** [a - b] *)
Definition numSub (a b : number) : number := SFsub b64_prec b64_emax a b.

(** [Number.isFinite] *)
Definition isFinite (n : number) : bool :=
  match n with
  | S754_zero _ | S754_finite _ _ _ => true
  | S754_infinity _ | S754_nan => false
  end.

(** [v > 0] for the result of a comparator. *)
Definition isPositive (n : number) : bool := SFltb posZero n.

Definition sameNumber (a b : number) : bool :=
  match a, b with
  | S754_zero s, S754_zero t => Bool.eqb s t
  | S754_infinity s, S754_infinity t => Bool.eqb s t
  | S754_nan, S754_nan => true
  | S754_finite s m e, S754_finite t m' e' =>
      Bool.eqb s t && (m =? m')%positive && (e =? e')%Z
  | _, _ => false
  end.

(** The double nearest to [s * 10 ^ e10]. *)
Definition ofDecimal (neg : bool) (s e10 : Z) : number :=
  if (0 <=? e10)%Z then round_ratio neg (s * 10 ^ e10) 1
  else round_ratio neg s (10 ^ (- e10)).

(** ** Number::toString

    A finite double [m * 2 ^ e] is the decimal [M * 10 ^ (- p)] exactly.
    [shortestAt] looks for a [k]-digit integer [s] and an [n] with
    [s * 10 ^ (n - k)] rounding back to the double: the two [k]-digit
    neighbours of the exact expansion are tried, the closer one first. *)
Definition shortestAt (m : positive) (e M D : Z) (p : Z) (k : Z)
  : option (Z * Z) :=
  let n0 := (D - p)%Z in
  let back s n :=
    sameNumber (ofDecimal false s (n - k)) (S754_finite false m e) in
  if (D <=? k)%Z then
    let s := (M * 10 ^ (k - D))%Z in
    if back s n0 then Some (s, n0) else None
  else
    let unit := (10 ^ (D - k))%Z in
    let lo := (M / unit)%Z in
    let rem := (M mod unit)%Z in
    let hi := if (lo + 1 =? 10 ^ k)%Z then (10 ^ (k - 1), n0 + 1)%Z
              else (lo + 1, n0)%Z in
    let okLo := back lo n0 in
    let okHi := back (fst hi) (snd hi) in
    let preferHi := match (2 * rem ?= unit)%Z with
                    | Gt => true
                    | Eq => Z.odd lo
                    | Lt => false
                    end in
    if okLo && okHi then (if preferHi then Some hi else Some (lo, n0))
    else if okLo then Some (lo, n0)
    else if okHi then Some hi
    else None.

(** The least [k] from [k] on with such digits, and the digits. The
    closest decimal of 17 digits always rounds back to the double, so the
    search ends at [k = 17] at the latest, with the closest one. *)
Fixpoint shortestFrom (fuel : nat) (m : positive) (e M D p k : Z)
  : Z * Z * Z :=
  match fuel with
  | O => (M, D, (D - p)%Z)
  | S fuel' =>
    match shortestAt m e M D p k with
    | Some (s, n) => (s, k, n)
    | None => shortestFrom fuel' m e M D p (k + 1)
    end
  end.

(** The digits [s], their count [k] and the exponent [n] of Number::toString. *)
Definition shortest (m : positive) (e : Z) : Z * Z * Z :=
  let '(M, p) := if (0 <=? e)%Z then (Z.pos m * 2 ^ e, 0)%Z
                 else (Z.pos m * 5 ^ (- e), - e)%Z in
  let D := Z.of_nat (length (decimalDigits M)) in
  shortestFrom 17 m e M D p 1.

Definition formatDigits (s k n : Z) : jsstring :=
  let ds := decimalDigits s in
  if ((k <=? n) && (n <=? 21))%Z then
    ds ++ repeat 48%N (Z.to_nat (n - k))
  else if ((0 <? n) && (n <=? 21))%Z then
    firstn (Z.to_nat n) ds ++ [46%N] ++ skipn (Z.to_nat n) ds
  else if ((-6 <? n) && (n <=? 0))%Z then
    [48%N; 46%N] ++ repeat 48%N (Z.to_nat (- n)) ++ ds
  else
    let ex := (n - 1)%Z in
    let sign := if (ex <? 0)%Z then 45%N else 43%N in
    let mant := match ds with
                | [] => []
                | [d] => [d]
                | d :: rest => d :: 46%N :: rest
                end in
    mant ++ [101%N; sign] ++ decimalDigits (Z.abs ex).

Definition Number_toString (x : number) : jsstring :=
  match x with
  | S754_nan => js "NaN"
  | S754_zero _ => js "0"
  | S754_infinity s => (if s then [45%N] else []) ++ js "Infinity"
  | S754_finite s m e =>
      let '(d, k, n) := shortest m e in
      (if s then [45%N] else []) ++ formatDigits d k n
  end.

(** ** Number(string) *)

Definition digitVal (radix : Z) (c : N) : option Z :=
  let d := if ((48 <=? c) && (c <=? 57))%N then Some (Z.of_N c - 48)%Z
           else if ((97 <=? c) && (c <=? 102))%N then Some (Z.of_N c - 87)%Z
           else if ((65 <=? c) && (c <=? 70))%N then Some (Z.of_N c - 55)%Z
           else None in
  match d with
  | Some v => if (v <? radix)%Z then Some v else None
  | None => None
  end.

(** Reads a run of digits: the accumulated value, how many digits were
    read, and what follows them. *)
Fixpoint takeDigits (radix : Z) (s : jsstring) (acc cnt : Z)
  : Z * Z * jsstring :=
  match s with
  | [] => (acc, cnt, [])
  | c :: t =>
    match digitVal radix c with
    | Some d => takeDigits radix t (acc * radix + d)%Z (cnt + 1)%Z
    | None => (acc, cnt, s)
    end
  end.

(** ExponentPart (optional), then the end of the literal. *)
Definition parseExponent (neg : bool) (mant e10 : Z) (r : jsstring)
  : option number :=
  match r with
  | [] => Some (ofDecimal neg mant e10)
  | c :: r1 =>
    if ((c =? 101) || (c =? 69))%N then
      let '(sgn, r2) := match r1 with
                        | 43%N :: t => (1%Z, t)
                        | 45%N :: t => ((-1)%Z, t)
                        | _ => (1%Z, r1)
                        end in
      match takeDigits 10 r2 0 0 with
      | (ex, cnt, []) =>
          if (cnt =? 0)%Z then None
          else Some (ofDecimal neg mant (e10 + sgn * ex))
      | _ => None
      end
    else None
  end.

(** StrUnsignedDecimalLiteral *)
Definition parseUnsignedDecimal (neg : bool) (s : jsstring) : option number :=
  if jseqb s (js "Infinity") then Some (S754_infinity neg)
  else
    let '(i, ci, r1) := takeDigits 10 s 0 0 in
    match r1 with
    | 46%N :: r2 =>
      let '(mant, cf, r3) := takeDigits 10 r2 i 0 in
      if (ci + cf =? 0)%Z then None else parseExponent neg mant (- cf) r3
    | _ => if (ci =? 0)%Z then None else parseExponent neg i 0 r1
    end.

(** NonDecimalIntegerLiteral: 0x, 0o, 0b *)
Definition parseNonDecimal (s : jsstring) : option number :=
  match s with
  | 48%N :: c :: r =>
    let radix := if ((c =? 120) || (c =? 88))%N then Some 16%Z
                 else if ((c =? 111) || (c =? 79))%N then Some 8%Z
                 else if ((c =? 98) || (c =? 66))%N then Some 2%Z
                 else None in
    match radix with
    | Some b =>
      match takeDigits b r 0 0 with
      | (v, cnt, []) =>
          if (cnt =? 0)%Z then None else Some (round_ratio false v 1)
      | _ => None
      end
    | None => None
    end
  | _ => None
  end.

(** [Number(s)] for a string [s] (StringToNumber). *)
Definition StringToNumber (s : jsstring) : number :=
  match trim s with
  | [] => posZero
  | t =>
    match parseNonDecimal t with
    | Some n => n
    | None =>
      let r := match t with
               | 43%N :: u => parseUnsignedDecimal false u
               | 45%N :: u => parseUnsignedDecimal true u
               | _ => parseUnsignedDecimal false t
               end in
      match r with Some n => n | None => NaN end
    end
  end.

(* ================================================================== *)
(** * Platform: values *)
(* ================================================================== *)

(** The members of [Object.prototype] a property read can land on. *)
Inductive builtin :=
  | ObjectPrototype
  | NativeFunction (name : jsstring).

Inductive value :=
  | VUndefined
  | VNull
  | VBool (b : bool)
  | VNum (n : number)
  | VStr (s : jsstring)
  | VObject (o : builtin).

(** [String(v)] *)
Definition String_ (v : value) : jsstring :=
  match v with
  | VUndefined => js "undefined"
  | VNull => js "null"
  | VBool true => js "true"
  | VBool false => js "false"
  | VNum n => Number_toString n
  | VStr s => s
  | VObject ObjectPrototype => js "[object Object]"
  | VObject (NativeFunction name) =>
      js "function " ++ name ++ js "() { [native code] }"
  end.

(** ToBoolean *)
Definition truthy (v : value) : bool :=
  match v with
  | VUndefined | VNull => false
  | VBool b => b
  | VNum (S754_zero _) | VNum S754_nan => false
  | VNum _ => true
  | VStr [] => false
  | VStr _ => true
  | VObject _ => true
  end.

(** [a || b] *)
Definition orElse (a b : value) : value := if truthy a then a else b.

(** [a ?? b] *)
Definition nullish (a b : value) : value :=
  match a with
  | VUndefined | VNull => b
  | _ => a
  end.

(** [row[i]] on an array: [undefined] when out of range. *)
Definition at_ (row : list value) (i : nat) : value := nth i row VUndefined.

(** [a.slice(lo, hi)] for [0 <= lo <= hi] *)
Definition slice {A} (a : list A) (lo hi : nat) : list A :=
  firstn (hi - lo) (skipn lo a).

(** [a.includes(x)] on an array of strings *)
Definition includes (a : list jsstring) (x : jsstring) : bool :=
  existsb (jseqb x) a.

(** [a.findIndex(p)]: [None] stands for -1. *)
Fixpoint findIndex {A} (p : A -> bool) (a : list A) : option nat :=
  match a with
  | [] => None
  | x :: t => if p x then Some 0
              else match findIndex p t with
                   | Some i => Some (S i)
                   | None => None
                   end
  end.

(** [a.indexOf(x)] on an array of strings *)
Definition indexOf (a : list jsstring) (x : jsstring) : option nat :=
  findIndex (jseqb x) a.

(** [Array.prototype.sort] with a comparator: the stable sort. [x] moves
    behind [y] exactly when the comparator puts it after [y]. *)
Section Sort.
Variable A : Type.
Variable comparefn : A -> A -> number.

Fixpoint insertSorted (x : A) (l : list A) : list A :=
  match l with
  | [] => [x]
  | y :: t => if isPositive (comparefn x y) then y :: insertSorted x t
              else x :: l
  end.

Fixpoint sort (l : list A) : list A :=
  match l with
  | [] => []
  | x :: t => insertSorted x (sort t)
  end.
End Sort.

(* ================================================================== *)
(** * The records of data.json *)
(* ================================================================== *)

(** An entry of [dashboard.tabela1]. *)
Module Row.
Record t := mk {
  month : jsstring;
  date : option jsstring;
  entrada : option number;
  saida : option number;
  liquido : option number;
  diferenca_m1 : option number;
  crescimento : option jsstring
}.
End Row.

(** An entry of [dashboard.tabela2] and [dashboard.tabela3]. *)
Module Point.
Record t := mk {
  month : jsstring;
  date : option jsstring;
  saida : option number
}.
End Point.

(** An entry of [entradas] and [saidas]. *)
Module Item.
Record t := mk {
  desc : jsstring;
  amount : number
}.
End Item.

(** A value of [detalheMensal]. *)
Module Detail.
Record t := mk {
  date : option jsstring;
  entradas : list Item.t;
  saidas : list Item.t
}.
End Detail.

(** What [findMonthAnchors] collects. *)
Module Anchor.
Record t := mk {
  month : jsstring;
  r : nat;
  c : nat
}.
End Anchor.

(** The object [detalheMensal]: its own properties in insertion order, and
    the object its prototype was replaced by, if any. *)
Module Details.
Record t := mk {
  proto : option Detail.t;
  props : list (jsstring * Detail.t)
}.

Definition empty : t := mk None [].

Fixpoint upsert (k : jsstring) (v : Detail.t)
    (l : list (jsstring * Detail.t)) : list (jsstring * Detail.t) :=
  match l with
  | [] => [(k, v)]
  | (k', v') :: rest =>
      if jseqb k' k then (k', v) :: rest else (k', v') :: upsert k v rest
  end.

(** [obj[k] = v]: the key [__proto__] reaches the setter inherited from
    [Object.prototype]; every other key is an own property. *)
Definition set (o : t) (k : jsstring) (v : Detail.t) : t :=
  if jseqb k (js "__proto__") then mk (Some v) (props o)
  else mk (proto o) (upsert k v (props o)).

Fixpoint assoc (k : jsstring) (l : list (jsstring * Detail.t))
    : option Detail.t :=
  match l with
  | [] => None
  | (k', v) :: rest => if jseqb k' k then Some v else assoc k rest
  end.

(** The period detail [obj[k]] reads, if it reads one. *)
Definition get (o : t) (k : jsstring) : option Detail.t :=
  if jseqb k (js "__proto__") then proto o else assoc k (props o).
End Details.

Record Meta := mkMeta {
  year : number;
  updatedAt : jsstring
}.

Record Dashboard := mkDashboard {
  tabela1 : list Row.t;
  tabela2 : list Point.t;
  tabela3 : list Point.t
}.

Record Result := mkResult {
  meta : Meta;
  dashboard : Dashboard;
  detalheMensal : Details.t
}.

(** A decoded workbook, as [XLSX.read] hands it over. *)
Record Workbook (sheet : Type) := mkWorkbook {
  SheetNames : list jsstring;
  Sheets : list (jsstring * sheet)
}.

(** [wb.Sheets[name]] *)
Fixpoint sheetAt {sheet} (sheets : list (jsstring * sheet)) (name : jsstring)
    : option sheet :=
  match sheets with
  | [] => None
  | (k, ws) :: rest => if jseqb k name then Some ws else sheetAt rest name
  end.

(** The names [Object.prototype] defines besides [constructor] and
    [__proto__]. *)
Definition objectPrototypeMethods : list jsstring :=
  [ js "__defineGetter__"; js "__defineSetter__"; js "hasOwnProperty";
    js "__lookupGetter__"; js "__lookupSetter__"; js "isPrototypeOf";
    js "propertyIsEnumerable"; js "toString"; js "valueOf";
    js "toLocaleString" ].

(** A property read on an object literal that misses the own properties:
    the lookup goes on in [Object.prototype]. *)
Definition inheritedProperty (k : jsstring) : value :=
  if jseqb k (js "constructor") then VObject (NativeFunction (js "Object"))
  else if jseqb k (js "__proto__") then VObject ObjectPrototype
  else if includes objectPrototypeMethods k then VObject (NativeFunction k)
  else VUndefined.

(* ================================================================== *)
(** * Platform: fetch *)
(* ================================================================== *)

(** [s.startsWith(p)] *)
Fixpoint startsWith (s p : jsstring) : bool :=
  match p, s with
  | [], _ => true
  | x :: p', y :: s' => (x =? y)%N && startsWith s' p'
  | _ :: _, [] => false
  end.

(** [s.includes(p)] on strings *)
Fixpoint strIncludes (s p : jsstring) : bool :=
  startsWith s p
  || match s with
     | [] => false
     | _ :: t => strIncludes t p
     end.

(** A settled promise. What is thrown is an [Error], given by its
    message. *)
Inductive Promise (A : Type) :=
  | Fulfilled (a : A)
  | Rejected (e : jsstring).
Arguments Fulfilled {A} a.
Arguments Rejected {A} e.

(** What the script reads of a response; [contentType] is
    [res.headers.get("content-type")], [None] for [null]. *)
Module Response.
Record t := mk {
  ok : bool;
  status : N;
  statusText : jsstring;
  contentType : option jsstring;
  arrayBuffer : Promise (list N)
}.
End Response.

(** A request: the URL and the options the scripts pass to [fetch],
    [redirect] and [headers], the headers in the order of the literal. *)
Module Request.
Record t := mk {
  url : jsstring;
  redirect : jsstring;
  headers : list (jsstring * jsstring)
}.
End Request.

(** What the script has done to the outside: the requests it made and
    the timeouts it waited for, in milliseconds, both in order. *)
Record World := mkWorld {
  requests : list Request.t;
  sleeps : list N
}.

(** [await fetch(url, { redirect, headers })]: the network answers the
    n-th request of the run. *)
Definition fetch (network : nat -> Request.t -> Promise Response.t)
    (req : Request.t) (w : World) : Promise Response.t * World :=
  (network (length (requests w)) req,
   mkWorld (requests w ++ [req]) (sleeps w)).

(** [await new Promise(r => setTimeout(r, ms))] *)
Definition sleep (ms : N) (w : World) : World :=
  mkWorld (requests w) (sleeps w ++ [ms]).

(* ================================================================== *)
(** * scripts/sync_onedrive_to_datajson.mjs *)
(* ================================================================== *)

Module Sync.

(** [s.replace(/R\$\s?/g, "")] *)
Fixpoint stripCurrency (s : jsstring) : jsstring :=
  match s with
  | [] => []
  | c :: t =>
    match t with
    | d :: u =>
      if ((c =? 82) && (d =? 36))%N then
        match u with
        | w :: x => if isWhiteSpace w then stripCurrency x
                    else stripCurrency u
        | [] => []
        end
      else c :: stripCurrency t
    | [] => [c]
    end
  end.

(** [s.replace(/\./g, "")] *)
Definition stripDots (s : jsstring) : jsstring :=
  filter (fun c => negb (c =? 46)%N) s.

(** [s.replace(/,/g, ".")] *)
Definition commasToDots (s : jsstring) : jsstring :=
  List.map (fun c => if (c =? 44)%N then 46%N else c) s.

Definition brlToNumber (v : value) : option number :=
  match v with
  | VUndefined | VNull => None
  | VNum n => Some n
  | _ =>
    let s := trim (String_ v) in
    if negb (truthy (VStr s)) then None
    else
      let cleaned := commasToDots (stripDots (stripCurrency s)) in
      let n := StringToNumber cleaned in
      if isFinite n then Some n else None
  end.

Definition monthMap (k : jsstring) : value :=
  if jseqb k (js "janeiro") then VNum (numZ 1)
  else if jseqb k (js "fevereiro") then VNum (numZ 2)
  else if jseqb k (js "março") then VNum (numZ 3)
  else if jseqb k (js "marco") then VNum (numZ 3)
  else if jseqb k (js "abril") then VNum (numZ 4)
  else if jseqb k (js "maio") then VNum (numZ 5)
  else if jseqb k (js "junho") then VNum (numZ 6)
  else if jseqb k (js "julho") then VNum (numZ 7)
  else if jseqb k (js "agosto") then VNum (numZ 8)
  else if jseqb k (js "setembro") then VNum (numZ 9)
  else if jseqb k (js "outubro") then VNum (numZ 10)
  else if jseqb k (js "novembro") then VNum (numZ 11)
  else if jseqb k (js "dezembro") then VNum (numZ 12)
  else inheritedProperty k.

Definition normalize (s : value) : jsstring :=
  toLowerCase (trim (String_ (orElse s (VStr [])))).

Definition isoDateFromMonth (monthName : jsstring) (year : number)
    : option jsstring :=
  let mm := monthMap (normalize (VStr monthName)) in
  if negb (truthy mm) then None
  else Some (String_ (VNum year) ++ js "-" ++ padStart0 2 (String_ mm)
             ++ js "-01").

(** [cells.map(x => String(x).trim().toLowerCase())] *)
Definition lowerCells (cells : list value) : list jsstring :=
  List.map (fun x => toLowerCase (trim (String_ x))) cells.

Section ParseWorkbook.

(** [rows = XLSX.utils.sheet_to_json(ws, { header: 1, defval: "" })] *)
Variable rows : list (list value).

(** ** Tabela1 *)

Definition isHeaderRow (cells : list value) : bool :=
  let row := lowerCells cells in
  let hasE := includes row (js "entrada") in
  let hasS := includes row (js "saída") || includes row (js "saida") in
  let hasL := includes row (js "líquido") || includes row (js "liquido") in
  hasE && hasS && hasL.

(** The first loop; [None] stands for [headerRow = -1]. *)
Definition headerRow : option nat :=
  findIndex isHeaderRow (slice rows 0 (Nat.min (length rows) 80)).

Definition summaryRow (month : jsstring) (row : list value) : Row.t :=
  Row.mk month (isoDateFromMonth month (numZ 2026))
    (brlToNumber (at_ row 1))
    (brlToNumber (at_ row 2))
    (brlToNumber (at_ row 3))
    (brlToNumber (at_ row 4))
    (let s := trim (String_ (at_ row 5)) in
     if truthy (VStr s) then Some s else None).

(** The body of the second loop, over the rows [r = headerRow+1 ...]. *)
Fixpoint scanTabela1 (rs : list (list value)) : list Row.t :=
  match rs with
  | [] => []
  | row :: rest =>
    let month := trim (String_ (at_ row 0)) in
    if negb (truthy (VStr month)) then scanTabela1 rest
    else
      let mk := normalize (VStr month) in
      if negb (truthy (monthMap mk)) then
        if jseqb mk (js "total") then [] else scanTabela1 rest
      else summaryRow month row :: scanTabela1 rest
  end.

Definition parseTabela1 : list Row.t :=
  match headerRow with
  | Some h => scanTabela1 (slice rows (h + 1) (length rows))
  | None => []
  end.

(** ** Tabela2/3 *)

Definition seriesPoint (m : jsstring) (row : list value) : Point.t :=
  Point.mk m (isoDateFromMonth m (numZ 2026)) (brlToNumber (at_ row 1)).

(** The inner loop of [parseMini], over the rows [rr = r+1 ...]. *)
Fixpoint scanMini (rs : list (list value)) : list Point.t :=
  match rs with
  | [] => []
  | row :: rest =>
    let m := trim (String_ (at_ row 0)) in
    if negb (truthy (VStr m)) then scanMini rest
    else
      let mk := normalize (VStr m) in
      if jseqb mk (js "total") then []
      else if negb (truthy (monthMap mk)) then scanMini rest
      else seriesPoint m row :: scanMini rest
  end.

Definition hasTitle (t : jsstring) (cells : list value) : bool :=
  let row := List.map (fun x => trim (String_ x)) cells in
  existsb (fun c => jseqb (toLowerCase c) t) row.

Definition parseMini (title : jsstring) : list Point.t :=
  let t := toLowerCase title in
  match findIndex (hasTitle t) rows with
  | Some r => scanMini (slice rows (r + 1) (Nat.min (length rows) (r + 40)))
  | None => []
  end.

(** ** Tabela4 *)

Definition hasSubHeader (next : list jsstring) : bool :=
  let hasE := includes next (js "entrada") in
  let hasS := includes next (js "saída") || includes next (js "saida") in
  hasE && hasS.

(** The body of the inner loop of [findMonthAnchors]. *)
Definition anchorAt (r c : nat) : list Anchor.t :=
  let val := trim (String_ (at_ (nth r rows []) c)) in
  if negb (truthy (VStr val)) then []
  else if negb (truthy (monthMap (normalize (VStr val)))) then []
  else
    let next := lowerCells (slice (nth (r + 1) rows []) c (c + 20)) in
    if hasSubHeader next then [Anchor.mk val r c] else [].

Definition findMonthAnchors : list Anchor.t :=
  flat_map
    (fun r =>
       flat_map (anchorAt r)
         (seq 0 (Nat.min (length (nth r rows [])) 250)))
    (seq 0 (length rows)).

(** What one side of a block row contributes. *)
Definition lineItem (desc : jsstring) (val : value) : list Item.t :=
  if truthy (VStr desc) && negb (jseqb (normalize (VStr desc)) (js "r$"))
  then match brlToNumber val with
       | Some n => [Item.mk desc n]
       | None => []
       end
  else [].

(** The loop over the rows [r = a.r+2 ...] of one block. *)
Fixpoint scanBlock (entradaDescCol saidaDescCol : nat)
    (rs : list (list value)) : list Item.t * list Item.t :=
  match rs with
  | [] => ([], [])
  | row :: rest =>
    let entradaValCol := entradaDescCol + 2 in
    let saidaValCol := saidaDescCol + 2 in
    let descE :=
      trim (String_ (nullish (at_ row entradaDescCol) (VStr []))) in
    let valE := at_ row entradaValCol in
    let descS :=
      trim (String_ (nullish (at_ row saidaDescCol) (VStr []))) in
    let valS := at_ row saidaValCol in
    if jseqb (normalize (VStr descE)) (js "total")
       || jseqb (normalize (VStr descS)) (js "total")
    then ([], [])
    else
      let '(entradas, saidas) :=
        scanBlock entradaDescCol saidaDescCol rest in
      (lineItem descE valE ++ entradas, lineItem descS valS ++ saidas)
  end.

(** [a.amount || 0] *)
Definition amountOr0 (a : Item.t) : number :=
  if truthy (VNum (Item.amount a)) then Item.amount a else numZ 0.

(** [(a, b) => (b.amount || 0) - (a.amount || 0)] *)
Definition byAmountDesc (a b : Item.t) : number :=
  numSub (amountOr0 b) (amountOr0 a).

(** The columns of a block; [None] when the loop [continue]s. *)
Definition blockColumns (a : Anchor.t) : option (nat * nat) :=
  let header :=
    lowerCells (slice (nth (Anchor.r a + 1) rows [])
                  (Anchor.c a) (Anchor.c a + 30)) in
  let eRel := indexOf header (js "entrada") in
  let sRel :=
    findIndex (fun x => jseqb x (js "saída") || jseqb x (js "saida"))
      header in
  match eRel, sRel with
  | Some eRel, Some sRel => Some (Anchor.c a + eRel, Anchor.c a + sRel)
  | _, _ => None
  end.

(** The rows the block loop visits. *)
Definition blockRows (a : Anchor.t) : list (list value) :=
  slice rows (Anchor.r a + 2) (Nat.min (length rows) (Anchor.r a + 60)).

(** The value stored for one anchor. *)
Definition blockDetail (a : Anchor.t) : option Detail.t :=
  match blockColumns a with
  | None => None
  | Some (entradaDescCol, saidaDescCol) =>
    let '(entradas, saidas) :=
      scanBlock entradaDescCol saidaDescCol (blockRows a) in
    Some (Detail.mk (isoDateFromMonth (Anchor.month a) (numZ 2026))
            entradas (sort byAmountDesc saidas))
  end.

(** One turn of [for (const a of findMonthAnchors())]. *)
Definition processAnchor (out : Details.t) (a : Anchor.t) : Details.t :=
  match blockDetail a with
  | None => out
  | Some d => Details.set out (Anchor.month a) d
  end.

Definition parseTabela4 : Details.t :=
  fold_left processAnchor findMonthAnchors Details.empty.

(** [parseWorkbook] from [rows] on; [now] is [new Date().toISOString()]. *)
Definition parseRows (now : jsstring) : Result :=
  mkResult (mkMeta (numZ 2026) now)
    (mkDashboard parseTabela1 (parseMini (js "Nubank"))
       (parseMini (js "Santander")))
    parseTabela4.

End ParseWorkbook.

Section Workbook.

(** The library's sheet objects and [XLSX.utils.sheet_to_json] with the
    options [{ header: 1, defval: "" }]; the argument is [None] when
    [wb.Sheets[sheetName]] is [undefined]. *)
Variable sheet : Type.
Variable sheet_to_json : option sheet -> list (list value).

Definition parseWorkbook (now : jsstring) (wb : Workbook sheet) : Result :=
  let sheetName := match SheetNames wb with
                   | [] => VUndefined
                   | name :: _ => VStr name
                   end in
  let ws := sheetAt (Sheets wb) (String_ sheetName) in
  let rows := sheet_to_json ws in
  parseRows rows now.

End Workbook.

(** ** Download *)

(** [/[?&]download=1/.test(u)] *)
Fixpoint hasDownload (u : jsstring) : bool :=
  match u with
  | [] => false
  | c :: t =>
      ((c =? 63) || (c =? 38))%N && startsWith t (js "download=1")
      || hasDownload t
  end.

Definition withDownload (u : jsstring) : jsstring :=
  let has := hasDownload u in
  if has then u
  else u ++ (if strIncludes u (js "?") then js "&" else js "?")
         ++ js "download=1".

Section Fetch.

Variable network : nat -> Request.t -> Promise Response.t.

(** The loop [for (let attempt = 1; attempt <= 3; attempt++)] over the
    attempts still to make. [inl] is the [return] of the function, [inr]
    the value of [lastErr] when the loop is left. *)
Fixpoint forAttempts (cu : jsstring) (todo : list N)
    (lastErr : option jsstring) (w : World)
    : (list N + option jsstring) * World :=
  match todo with
  | [] => (inr lastErr, w)
  | attempt :: rest =>
    let '(r, w1) :=
      fetch network
        (Request.mk cu (js "follow")
           [ (js "User-Agent",
              js "Mozilla/5.0 (Windows NT 10.0; Win64; x64) "
              ++ js "AppleWebKit/537.36 (KHTML, like Gecko) "
              ++ js "Chrome/121.0 Safari/537.36");
             (js "Accept", js "*/*");
             (js "Accept-Language", js "pt-BR,pt;q=0.9,en;q=0.8") ])
        w in
    match r with
    | Rejected e => forAttempts cu rest (Some e) w1
    | Fulfilled res =>
      if negb (Response.ok res) then
        if ((Response.status res =? 403) && (attempt <? 3))%N then
          forAttempts cu rest lastErr (sleep (1200 * attempt) w1)
        else
          forAttempts cu rest
            (Some (js "Falha ao baixar XLSX: "
                   ++ decimalDigits (Z.of_N (Response.status res))
                   ++ js " " ++ Response.statusText res))
            w1
      else
        let ct := match Response.contentType res with
                  | Some c => String_ (orElse (VStr c) (VStr []))
                  | None => []
                  end in
        if strIncludes ct (js "text/html") then
          forAttempts cu rest
            (Some (js "O URL retornou HTML (visualização/login). "
                   ++ js "Use um link de download direto e público."))
            w1
        else
          match Response.arrayBuffer res with
          | Fulfilled ab => (inl ab, w1)
          | Rejected e => forAttempts cu rest (Some e) w1
          end
    end
  end.

(** The loop [for (const cu of candidates)]. *)
Fixpoint forCandidates (candidates : list jsstring)
    (lastErr : option jsstring) (w : World)
    : (list N + option jsstring) * World :=
  match candidates with
  | [] => (inr lastErr, w)
  | cu :: rest =>
    match forAttempts cu [1%N; 2%N; 3%N] lastErr w with
    | (inl ab, w1) => (inl ab, w1)
    | (inr lastErr1, w1) => forCandidates rest lastErr1 w1
    end
  end.

Definition fetchArrayBuffer (u : jsstring) (w : World)
    : Promise (list N) * World :=
  let candidates := [u; withDownload u] in
  match forCandidates candidates None w with
  | (inl ab, w1) => (Fulfilled ab, w1)
  | (inr (Some e), w1) => (Rejected e, w1)
  | (inr None, w1) => (Rejected (js "Falha ao baixar XLSX."), w1)
  end.

End Fetch.

End Sync.

(* ================================================================== *)
(** * The second copy of the script (unnamed/part_000) *)
(* ================================================================== *)

Module Part000.

(** [s.replace(/R\$\s?/g, "")] *)
Fixpoint stripCurrency (s : jsstring) : jsstring :=
  match s with
  | [] => []
  | c :: t =>
    match t with
    | d :: u =>
      if ((c =? 82) && (d =? 36))%N then
        match u with
        | w :: x => if isWhiteSpace w then stripCurrency x
                    else stripCurrency u
        | [] => []
        end
      else c :: stripCurrency t
    | [] => [c]
    end
  end.

Definition brlToNumber (v : value) : option number :=
  match v with
  | VUndefined | VNull => None
  | VNum n => Some n
  | _ =>
    let s := trim (String_ v) in
    if negb (truthy (VStr s)) then None
    else
      let cleaned :=
        List.map (fun c => if (c =? 44)%N then 46%N else c)
          (filter (fun c => negb (c =? 46)%N) (stripCurrency s)) in
      let n := StringToNumber cleaned in
      if isFinite n then Some n else None
  end.

(** The own properties of [monthMap], in the order of the literal. *)
Definition monthTable : list (jsstring * Z) :=
  [ (js "janeiro", 1%Z); (js "fevereiro", 2%Z); (js "março", 3%Z);
    (js "marco", 3%Z); (js "abril", 4%Z); (js "maio", 5%Z);
    (js "junho", 6%Z); (js "julho", 7%Z); (js "agosto", 8%Z);
    (js "setembro", 9%Z); (js "outubro", 10%Z); (js "novembro", 11%Z);
    (js "dezembro", 12%Z) ].

Fixpoint ownProperty (table : list (jsstring * Z)) (k : jsstring)
    : option Z :=
  match table with
  | [] => None
  | (k', v) :: rest => if jseqb k k' then Some v else ownProperty rest k
  end.

Definition monthMap (k : jsstring) : value :=
  match ownProperty monthTable k with
  | Some v => VNum (numZ v)
  | None => inheritedProperty k
  end.

Definition normalize (s : value) : jsstring :=
  toLowerCase (trim (String_ (orElse s (VStr [])))).

Definition isoDateFromMonth (monthName : jsstring) (year : number)
    : option jsstring :=
  let mm := monthMap (normalize (VStr monthName)) in
  if negb (truthy mm) then None
  else Some (String_ (VNum year) ++ js "-" ++ padStart0 2 (String_ mm)
             ++ js "-01").

Section ParseWorkbook.

Variable rows : list (list value).

(** ** TABELA 1 *)

Definition isHeaderRow (cells : list value) : bool :=
  let row := List.map (fun x => toLowerCase (trim (String_ x))) cells in
  let hasEntrada := includes row (js "entrada") in
  let hasSaida :=
    includes row (js "saída") || includes row (js "saida") in
  let hasLiquido :=
    includes row (js "líquido") || includes row (js "liquido") in
  hasEntrada && hasSaida && hasLiquido.

Definition headerRow : option nat :=
  findIndex isHeaderRow (slice rows 0 (Nat.min (length rows) 80)).

Fixpoint scanTabela1 (rs : list (list value)) : list Row.t :=
  match rs with
  | [] => []
  | row :: rest =>
    let month := trim (String_ (at_ row 0)) in
    if negb (truthy (VStr month)) then scanTabela1 rest
    else
      let mk := normalize (VStr month) in
      if negb (truthy (monthMap mk)) then
        if jseqb mk (js "total") then [] else scanTabela1 rest
      else
        Row.mk month (isoDateFromMonth month (numZ 2026))
          (brlToNumber (at_ row 1))
          (brlToNumber (at_ row 2))
          (brlToNumber (at_ row 3))
          (brlToNumber (at_ row 4))
          (let s := trim (String_ (at_ row 5)) in
           if truthy (VStr s) then Some s else None)
        :: scanTabela1 rest
  end.

Definition parseTabela1 : list Row.t :=
  match headerRow with
  | Some h => scanTabela1 (slice rows (h + 1) (length rows))
  | None => []
  end.

(** ** TABELA 2 e 3 *)

Fixpoint scanMini (rs : list (list value)) : list Point.t :=
  match rs with
  | [] => []
  | row :: rest =>
    let m := trim (String_ (at_ row 0)) in
    if negb (truthy (VStr m)) then scanMini rest
    else
      let mk := normalize (VStr m) in
      if jseqb mk (js "total") then []
      else if negb (truthy (monthMap mk)) then scanMini rest
      else
        Point.mk m (isoDateFromMonth m (numZ 2026))
          (brlToNumber (at_ row 1))
        :: scanMini rest
  end.

Definition parseMini (title : jsstring) : list Point.t :=
  let t := toLowerCase title in
  let found :=
    findIndex
      (fun cells =>
         let row := List.map (fun x => trim (String_ x)) cells in
         existsb (fun c => jseqb (toLowerCase c) t) row)
      rows in
  match found with
  | Some r => scanMini (slice rows (r + 1) (Nat.min (length rows) (r + 40)))
  | None => []
  end.

(** ** TABELA 4 *)

Definition findMonthAnchors : list Anchor.t :=
  flat_map
    (fun r =>
       flat_map
         (fun c =>
            let val := trim (String_ (at_ (nth r rows []) c)) in
            if negb (truthy (VStr val)) then []
            else if negb (truthy (monthMap (normalize (VStr val))))
            then []
            else
              let next :=
                List.map (fun x => toLowerCase (trim (String_ x)))
                  (slice (nth (r + 1) rows []) c (c + 20)) in
              let hasEntrada := includes next (js "entrada") in
              let hasSaida :=
                includes next (js "saída") || includes next (js "saida") in
              if hasEntrada && hasSaida then [Anchor.mk val r c] else [])
         (seq 0 (Nat.min (length (nth r rows [])) 250)))
    (seq 0 (length rows)).

Fixpoint scanBlock (entradaDescCol entradaValCol saidaDescCol
    saidaValCol : nat) (rs : list (list value))
    : list Item.t * list Item.t :=
  match rs with
  | [] => ([], [])
  | row :: rest =>
    let descE :=
      trim (String_ (nullish (at_ row entradaDescCol) (VStr []))) in
    let valE := at_ row entradaValCol in
    let descS :=
      trim (String_ (nullish (at_ row saidaDescCol) (VStr []))) in
    let valS := at_ row saidaValCol in
    if jseqb (normalize (VStr descE)) (js "total")
       || jseqb (normalize (VStr descS)) (js "total")
    then ([], [])
    else
      let '(entradas, saidas) :=
        scanBlock entradaDescCol entradaValCol saidaDescCol saidaValCol
          rest in
      let entradas :=
        if truthy (VStr descE)
           && negb (jseqb (normalize (VStr descE)) (js "r$"))
        then match brlToNumber valE with
             | Some n => Item.mk descE n :: entradas
             | None => entradas
             end
        else entradas in
      let saidas :=
        if truthy (VStr descS)
           && negb (jseqb (normalize (VStr descS)) (js "r$"))
        then match brlToNumber valS with
             | Some n => Item.mk descS n :: saidas
             | None => saidas
             end
        else saidas in
      (entradas, saidas)
  end.

Definition byAmountDesc (a b : Item.t) : number :=
  numSub
    (if truthy (VNum (Item.amount b)) then Item.amount b else numZ 0)
    (if truthy (VNum (Item.amount a)) then Item.amount a else numZ 0).

Definition processAnchor (out : Details.t) (a : Anchor.t) : Details.t :=
  let monthName := Anchor.month a in
  let header :=
    List.map (fun x => toLowerCase (trim (String_ x)))
      (slice (nth (Anchor.r a + 1) rows [])
         (Anchor.c a) (Anchor.c a + 30)) in
  let eRel := indexOf header (js "entrada") in
  let sRel :=
    findIndex (fun x => jseqb x (js "saída") || jseqb x (js "saida"))
      header in
  match eRel, sRel with
  | Some eRel, Some sRel =>
    let entradaDescCol := Anchor.c a + eRel in
    let entradaValCol := entradaDescCol + 2 in
    let saidaDescCol := Anchor.c a + sRel in
    let saidaValCol := saidaDescCol + 2 in
    let '(entradas, saidas) :=
      scanBlock entradaDescCol entradaValCol saidaDescCol saidaValCol
        (slice rows (Anchor.r a + 2)
           (Nat.min (length rows) (Anchor.r a + 60))) in
    let saidas := sort byAmountDesc saidas in
    Details.set out monthName
      (Detail.mk (isoDateFromMonth monthName (numZ 2026))
         entradas saidas)
  | _, _ => out
  end.

Definition parseRows (now : jsstring) : Result :=
  let tabela1 := parseTabela1 in
  let tabela2 := parseMini (js "Nubank") in
  let tabela3 := parseMini (js "Santander") in
  let anchors := findMonthAnchors in
  mkResult (mkMeta (numZ 2026) now)
    (mkDashboard tabela1 tabela2 tabela3)
    (fold_left processAnchor anchors Details.empty).

End ParseWorkbook.

Section Workbook.

Variable sheet : Type.
Variable sheet_to_json : option sheet -> list (list value).

Definition parseWorkbook (now : jsstring) (wb : Workbook sheet) : Result :=
  let sheetName := match SheetNames wb with
                   | [] => VUndefined
                   | name :: _ => VStr name
                   end in
  let ws := sheetAt (Sheets wb) (String_ sheetName) in
  let rows := sheet_to_json ws in
  parseRows rows now.

End Workbook.

(** ** Download *)

Definition fetchArrayBuffer
    (network : nat -> Request.t -> Promise Response.t)
    (u : jsstring) (w : World) : Promise (list N) * World :=
  let '(r, w1) := fetch network (Request.mk u (js "follow") []) w in
  match r with
  | Rejected e => (Rejected e, w1)
  | Fulfilled res =>
    if negb (Response.ok res) then
      (Rejected (js "Falha ao baixar XLSX: "
                 ++ decimalDigits (Z.of_N (Response.status res))
                 ++ js " " ++ Response.statusText res), w1)
    else
      let ct := match Response.contentType res with
                | Some c => String_ (orElse (VStr c) (VStr []))
                | None => []
                end in
      if strIncludes ct (js "text/html") then
        (Rejected
           (js "O URL retornou HTML (provável página de visualização/login)."
            ++ [10%N]
            ++ js "Use um link de DOWNLOAD direto do XLSX no Secret "
            ++ js "ONEDRIVE_XLSX_URL."),
         w1)
      else (Response.arrayBuffer res, w1)
  end.

End Part000.

(* ================================================================== *)
(** * Fixtures and the properties checked *)
(* ================================================================== *)

Definition S_ (s : string) : value := VStr (js s).
Arguments S_ s%_string.

Module Fixture.

(** The header row and the data row of the primary-table example. *)
Definition header : list value :=
  [S_ "mês"; S_ "entrada"; S_ "saída"; S_ "líquido"; S_ "dif"; S_ "cresc"].

Definition janeiro : list value :=
  [S_ "Janeiro"; S_ "1.000,00"; S_ "500,00"; S_ "500,00"; S_ "0"; S_ "—"].

Definition janeiroRow : Row.t :=
  Row.mk (js "Janeiro") (Some (js "2026-01-01"))
    (Some (numZ 1000)) (Some (numZ 500)) (Some (numZ 500))
    (Some (numZ 0)) (Some (js "—")).

(** The example as a whole grid: two blank rows, the header at row 2,
    one data row, the totals row, and a row that must not be read. *)
Definition primary : list (list value) :=
  [ []; []; header; janeiro;
    [S_ "Total"; S_ "1.000,00"; S_ "500,00"; S_ "500,00"; S_ ""; S_ ""];
    [S_ "Fevereiro"; S_ "2.000,00"; S_ "700,00"; S_ "1.300,00"; S_ "800";
     S_ "160%"] ].

(** A sheet that is five columns wide: the growth column is missing. *)
Definition narrow : list (list value) :=
  [ [S_ "mês"; S_ "entrada"; S_ "saída"; S_ "líquido"; S_ "dif"];
    [S_ "Janeiro"; S_ "1.000,00"; S_ "500,00"; S_ "500,00"; S_ "0"] ].

(** A monthly block: the anchor at row 0, the labels at offsets 0 and 4
    of the row below, and three rows of items; the second row has no
    inflow description, and two outflows are of the same amount. *)
Definition fevereiro : list (list value) :=
  [ [S_ "Fevereiro"; S_ ""; S_ ""; S_ ""; S_ ""; S_ ""; S_ ""];
    [S_ "Entrada"; S_ ""; S_ ""; S_ ""; S_ "Saída"; S_ ""; S_ ""];
    [S_ "Salário"; S_ "R$"; S_ "3.000,00"; S_ "";
     S_ "Aluguel"; S_ "R$"; S_ "1.200,00"];
    [S_ ""; S_ ""; S_ ""; S_ "";
     S_ "Mercado"; S_ "R$"; VNum (numZ 1500)];
    [S_ "Freela"; S_ "R$"; S_ "800,00"; S_ "";
     S_ "Luz"; S_ "R$"; S_ "1.200,00"] ].

Definition fevereiroAnchor : Anchor.t := Anchor.mk (js "Fevereiro") 0 0.

(** The same month anchors two blocks. *)
Definition twice : list (list value) :=
  [ [S_ "Janeiro"; S_ ""; S_ ""; S_ ""; S_ ""; S_ ""; S_ ""];
    [S_ "Entrada"; S_ ""; S_ ""; S_ ""; S_ "Saída"; S_ ""; S_ ""];
    [S_ "Salário"; S_ "R$"; S_ "100,00"; S_ "";
     S_ "Luz"; S_ "R$"; S_ "10,00"];
    [S_ "Total"; S_ "R$"; S_ "100,00"; S_ "";
     S_ "Total"; S_ "R$"; S_ "10,00"];
    [S_ "Janeiro"; S_ ""; S_ ""; S_ ""; S_ ""; S_ ""; S_ ""];
    [S_ "Entrada"; S_ ""; S_ ""; S_ ""; S_ "Saída"; S_ ""; S_ ""];
    [S_ "Bônus"; S_ "R$"; S_ "200,00"; S_ "";
     S_ "Água"; S_ "R$"; S_ "20,00"] ].

(** A mini table with a row labelled by a name that every object
    inherits. *)
Definition mini : list (list value) :=
  [ [S_ "Nubank"; S_ ""];
    [S_ "Janeiro"; S_ "150,00"];
    [S_ "constructor"; VNum (numZ 5)] ].

(** A block with amounts that are numbers but not finite. *)
Definition notFinite : list (list value) :=
  [ [S_ "Maio"; S_ ""; S_ ""; S_ ""; S_ ""; S_ ""; S_ ""];
    [S_ "Entrada"; S_ ""; S_ ""; S_ ""; S_ "Saída"; S_ ""; S_ ""];
    [S_ "Ajuste"; S_ "R$"; VNum NaN; S_ "";
     S_ "Multa"; S_ "R$"; VNum (S754_infinity false)] ].

End Fixture.

(** The column order in the wording "columns 1-5 as outflow/inflow/...":
    column 1 read as the outflow, column 2 as the inflow. *)
Definition reads_outflow_first (rows : list (list value)) : Prop :=
  forall sr, In sr (Sync.parseTabela1 rows) ->
    exists row, In row rows
      /\ Row.saida sr = Sync.brlToNumber (at_ row 1)
      /\ Row.entrada sr = Sync.brlToNumber (at_ row 2).

(** A cell that shows nothing: the empty string [defval] fills in, or
    white space only. *)
Definition blankCell (v : value) : Prop := trim (String_ v) = [].

Definition blankGrid (rows : list (list value)) : Prop :=
  Forall (Forall blankCell) rows.

(** The result with every collection empty. *)
Definition emptyResult (now : jsstring) : Result :=
  mkResult (mkMeta (numZ 2026) now) (mkDashboard [] [] []) Details.empty.

Module SheetModel.

(** A stand-in for the library's sheets: a sheet is the grid it
    materialises into, and no sheet materialises into no rows. *)
Definition sheet : Type := list (list value).

Definition sheet_to_json (ws : option sheet) : list (list value) :=
  match ws with
  | Some g => g
  | None => []
  end.

Definition noSheets : Workbook sheet := mkWorkbook [] [].

Definition blankSheet : Workbook sheet :=
  mkWorkbook [js "Planilha1"]
    [(js "Planilha1", [[S_ ""; S_ "  "]; [S_ ""; S_ ""]])].

End SheetModel.

(** The reading of a monthly block, row by row. *)
Module Block.

(** The description cell of a side whose label is in column [col]. *)
Definition descAt (row : list value) (col : nat) : jsstring :=
  trim (String_ (nullish (at_ row col) (VStr []))).

(** The row ends the block: a description that normalizes to "total". *)
Definition isTotalRow (eCol sCol : nat) (row : list value) : bool :=
  jseqb (Sync.normalize (VStr (descAt row eCol))) (js "total")
  || jseqb (Sync.normalize (VStr (descAt row sCol))) (js "total").

(** The items one row gives to the side in column [col]: one item when
    the description is not blank and is not the currency symbol, and the
    amount, two columns to the right of the description, is read; none
    otherwise. *)
Definition sideItems (col : nat) (row : list value) : list Item.t :=
  match descAt row col with
  | [] => []
  | desc =>
      if jseqb (Sync.normalize (VStr desc)) (js "r$") then []
      else match Sync.brlToNumber (at_ row (col + 2)) with
           | Some amount => [Item.mk desc amount]
           | None => []
           end
  end.

(** The rows before the first row that ends the block. *)
Fixpoint untilTotal (eCol sCol : nat) (rs : list (list value))
    : list (list value) :=
  match rs with
  | [] => []
  | row :: rest =>
      if isTotalRow eCol sCol row then []
      else row :: untilTotal eCol sCol rest
  end.

(** The rows of the grid a block can hold: the 58 rows from the second
    row below the anchor on, rows [a.r + 2] to [a.r + 59], as far as the
    grid has them. *)
Definition window (rows : list (list value)) (a : Anchor.t)
    : list (list value) :=
  firstn 58 (skipn (Anchor.r a + 2) rows).

(** The label in column [col] of the row below the anchor, in lower
    case. *)
Definition label (rows : list (list value)) (a : Anchor.t) (col : nat)
    : jsstring :=
  toLowerCase (trim (String_ (at_ (nth (Anchor.r a + 1) rows []) col))).

(** The inflow label, and the outflow label in both spellings. *)
Definition isEntrada (x : jsstring) : bool := jseqb x (js "entrada").

Definition isSaida (x : jsstring) : bool :=
  jseqb x (js "saída") || jseqb x (js "saida").

(** [col] is the first column from the anchor's on, and one of 30, whose
    label satisfies [p], and the row below the anchor has that column. *)
Definition firstLabel (rows : list (list value)) (a : Anchor.t)
    (p : jsstring -> bool) (col : nat) : Prop :=
  Anchor.c a <= col < Anchor.c a + 30
  /\ col < length (nth (Anchor.r a + 1) rows [])
  /\ p (label rows a col) = true
  /\ forall j, Anchor.c a <= j < col -> p (label rows a j) = false.

End Block.

(** ** The order of the amounts *)

(** A finite double has an exponent of at least -1074. *)
Definition wellFormed (x : number) : Prop :=
  match x with
  | S754_finite _ _ e => (-1074 <= e)%Z
  | _ => True
  end.

Definition wellFormedCell (v : value) : Prop :=
  match v with
  | VNum n => wellFormed n
  | _ => True
  end.

(** The exact value of a number, in units of [2 ^ -1074], between the two
    infinities. [NaN] is given the value 0, which is what [amount || 0]
    makes of it. *)
Inductive ext := NegInf | Fin (z : Z) | PosInf.

Definition exactKey (x : number) : ext :=
  match x with
  | S754_zero _ | S754_nan => Fin 0
  | S754_infinity s => if s then NegInf else PosInf
  | S754_finite s m e => Fin (cond_Zopp s (Z.pos m * 2 ^ (e + 1074)))
  end.

Definition extLtb (a b : ext) : bool :=
  match a, b with
  | NegInf, NegInf => false
  | NegInf, _ => true
  | Fin x, Fin y => (x <? y)%Z
  | Fin _, PosInf => true
  | _, _ => false
  end.

Definition extEqb (a b : ext) : bool :=
  match a, b with
  | NegInf, NegInf | PosInf, PosInf => true
  | Fin x, Fin y => (x =? y)%Z
  | _, _ => false
  end.

(** The amount an item is sorted by: the exact value of its amount, 0
    for an amount that is [NaN]. *)
Definition itemKey (a : Item.t) : ext := exactKey (Item.amount a).

(** [a] may stand before [b] in a list sorted descending by [key]: the key
    of [a] is not below the key of [b]. *)
Definition keyNotBelow {A : Type} (key : A -> ext) (a b : A) : Prop :=
  extLtb (key a) (key b) = false.

Definition notBelow : Item.t -> Item.t -> Prop := keyNotBelow itemKey.

(** The items of a list whose amount is [v], in the order of the list. *)
Definition withAmount (v : ext) (l : list Item.t) : list Item.t :=
  filter (fun a => extEqb (itemKey a) v) l.

(** A side of a block row that gives an item: a description that is
    neither blank, nor the currency symbol, nor the totals label, and an
    amount that [brlToNumber] reads. *)
Definition validSide (col : nat) (row : list value) : Prop :=
  Block.descAt row col <> []
  /\ Sync.normalize (VStr (Block.descAt row col)) <> js "r$"
  /\ Sync.normalize (VStr (Block.descAt row col)) <> js "total"
  /\ Sync.brlToNumber (at_ row (col + 2)) <> None.

(** The twelve months, March in both spellings: the own properties of
    [monthMap]. *)
Definition monthNames : list jsstring :=
  [ js "janeiro"; js "fevereiro"; js "março"; js "marco"; js "abril";
    js "maio"; js "junho"; js "julho"; js "agosto"; js "setembro";
    js "outubro"; js "novembro"; js "dezembro" ].

Definition recognizedMonth (k : jsstring) : bool := includes monthNames k.

(** The reading of a mini table, row by row. *)
Module Mini.

(** The label of a row: its first cell. *)
Definition labelAt (row : list value) : jsstring :=
  trim (String_ (at_ row 0)).

(** The row ends the table: its label normalizes to "total". *)
Definition isTotalRow (row : list value) : bool :=
  jseqb (Sync.normalize (VStr (labelAt row))) (js "total").

(** The rows before the first row that ends the table. *)
Fixpoint untilTotal (rs : list (list value)) : list (list value) :=
  match rs with
  | [] => []
  | row :: rest => if isTotalRow row then [] else row :: untilTotal rest
  end.

(** What a row gives when the rows without a month are skipped: a point
    for a label that is one of the month names, nothing otherwise. *)
Definition monthPoints (row : list value) : list Point.t :=
  if recognizedMonth (Sync.normalize (VStr (labelAt row)))
  then [Sync.seriesPoint (labelAt row) row]
  else [].

(** The label is a name that objects inherit from [Object.prototype]. *)
Definition inheritedLabel (row : list value) : bool :=
  truthy (inheritedProperty (Sync.normalize (VStr (labelAt row)))).

End Mini.

(** ** What a download does *)
Module Download.

(** The content type says HTML: [ct.includes("text/html")] with
    [ct = res.headers.get("content-type") || ""]. *)
Definition isHtml (res : Response.t) : bool :=
  match Response.contentType res with
  | Some c => strIncludes c (js "text/html")
  | None => false
  end.

(** The bytes of an answer that is used: a response that is [ok], is not
    HTML, and whose body can be read. *)
Definition good (p : Promise Response.t) : option (list N) :=
  match p with
  | Rejected _ => None
  | Fulfilled res =>
      if Response.ok res && negb (isHtml res) then
        match Response.arrayBuffer res with
        | Fulfilled ab => Some ab
        | Rejected _ => None
        end
      else None
  end.

(** The answer is a 403. *)
Definition is403 (p : Promise Response.t) : bool :=
  match p with
  | Fulfilled res => negb (Response.ok res) && (Response.status res =? 403)%N
  | Rejected _ => false
  end.

(** The error an answer that is not used is reported with. *)
Definition failure (p : Promise Response.t) : jsstring :=
  match p with
  | Rejected e => e
  | Fulfilled res =>
      if negb (Response.ok res) then
        js "Falha ao baixar XLSX: "
        ++ decimalDigits (Z.of_N (Response.status res))
        ++ js " " ++ Response.statusText res
      else if isHtml res then
        js "O URL retornou HTML (visualização/login). "
        ++ js "Use um link de download direto e público."
      else match Response.arrayBuffer res with
           | Rejected e => e
           | Fulfilled _ => []
           end
  end.

(** The URLs of the six requests a run can make, in order. *)
Definition schedule (u : jsstring) : list jsstring :=
  [u; u; u; Sync.withDownload u; Sync.withDownload u; Sync.withDownload u].

(** The request the script makes for a URL: redirects are followed, and
    the headers are those of a browser. *)
Definition request (cu : jsstring) : Request.t :=
  Request.mk cu (js "follow")
    [ (js "User-Agent",
       js "Mozilla/5.0 (Windows NT 10.0; Win64; x64) "
       ++ js "AppleWebKit/537.36 (KHTML, like Gecko) "
       ++ js "Chrome/121.0 Safari/537.36");
      (js "Accept", js "*/*");
      (js "Accept-Language", js "pt-BR,pt;q=0.9,en;q=0.8") ].

(** The request the earlier copy makes for a URL: redirects are followed,
    and no header is set. *)
Definition plainRequest (u : jsstring) : Request.t :=
  Request.mk u (js "follow") [].

(** The answer to request [n] of the run when it is the script's request
    for the URL [cu]. *)
Definition asked (network : nat -> Request.t -> Promise Response.t)
    (n : nat) (cu : jsstring) : Promise Response.t :=
  network n (request cu).

(** The answer to request [j] of the schedule of a run for [u] that
    starts in the world [w]. *)
Definition answer (network : nat -> Request.t -> Promise Response.t)
    (u : jsstring) (w : World) (j : nat) : Promise Response.t :=
  network (length (requests w) + j) (request (nth j (schedule u) [])).

(** The first answer that is used when the URLs [sched] are requested in
    order as requests [n], [n + 1], ...: how many requests came before it,
    and its bytes. *)
Fixpoint firstGood (answers : nat -> jsstring -> Promise Response.t)
    (sched : list jsstring) (n : nat) : option (nat * list N) :=
  match sched with
  | [] => None
  | cu :: rest =>
      match good (answers n cu) with
      | Some ab => Some (0, ab)
      | None =>
          match firstGood answers rest (S n) with
          | Some (k, ab) => Some (S k, ab)
          | None => None
          end
      end
  end.

(** What [lastErr] is after one attempt that did not return: a 403 at the
    first or second attempt leaves it, every other failure replaces it. *)
Definition nextErr (attempt : N) (p : Promise Response.t)
    (lastErr : option jsstring) : option jsstring :=
  if is403 p && (attempt <? 3)%N then lastErr else Some (failure p).

(** What an attempt that did not return waits for before the next one. *)
Definition waitAfter (attempt : N) (p : Promise Response.t) : list N :=
  if is403 p && (attempt <? 3)%N then [(1200 * attempt)%N] else [].

(** [lastErr] and the waits after the attempts [todo] on [cu], made as
    requests [n], [n + 1], ..., none of which returned. *)
Fixpoint errAfter (answers : nat -> jsstring -> Promise Response.t)
    (cu : jsstring) (todo : list N) (n : nat) (lastErr : option jsstring)
    : option jsstring :=
  match todo with
  | [] => lastErr
  | attempt :: rest =>
      errAfter answers cu rest (S n) (nextErr attempt (answers n cu) lastErr)
  end.

Fixpoint waits (answers : nat -> jsstring -> Promise Response.t)
    (cu : jsstring) (todo : list N) (n : nat) : list N :=
  match todo with
  | [] => []
  | attempt :: rest =>
      waitAfter attempt (answers n cu) ++ waits answers cu rest (S n)
  end.

Definition total (l : list N) : N := fold_right N.add 0%N l.

(** What the script waits for after the answer [p] to request [j] of the
    schedule, when that answer is not used: 1200 ms after a 403 at the
    first attempt on a URL, 2400 ms after a 403 at the second, nothing
    after a 403 at the third and after any other answer. *)
Definition pause (j : nat) (p : Promise Response.t) : list N :=
  if is403 p then
    match j mod 3 with
    | 0 => [1200%N]
    | 1 => [2400%N]
    | _ => []
    end
  else [].

(** An answer that is a 403. *)
Definition refusal : Response.t :=
  Response.mk false 403 [] None (Fulfilled []).

End Download.

(** ** Amounts as they are written *)
Module Currency.

Definition isDigit (c : N) : bool := ((48 <=? c) && (c <=? 57))%N.

(** A digit or the thousands separator. *)
Definition isDigitOrDot (c : N) : bool := isDigit c || (c =? 46)%N.

(** The number a run of decimal digits writes. *)
Definition digitsValue (s : jsstring) : Z :=
  fold_left (fun acc c => acc * 10 + (Z.of_N c - 48))%Z s 0%Z.

(** The digits after the decimal comma, when there is one. *)
Definition cents (frac : option jsstring) : jsstring :=
  match frac with
  | Some fs => fs
  | None => []
  end.

(** The text of the comma and the digits after it. *)
Definition commaPart (frac : option jsstring) : jsstring :=
  match frac with
  | Some fs => 44%N :: fs
  | None => []
  end.

(** The text [Number] is given after the cleaning: a point before the
    digits that followed the comma. *)
Definition pointPart (frac : option jsstring) : jsstring :=
  match frac with
  | Some fs => 46%N :: fs
  | None => []
  end.

(** [Number.isFinite(n) ? n : null] *)
Definition finiteOrNull (n : number) : option number :=
  if isFinite n then Some n else None.

End Currency.

(** ** Labels *)

(** A text of Basic Latin and Latin-1 code units. *)
Definition latin1 (s : jsstring) : bool :=
  forallb (fun c => (c <? 256)%N) s.

(** The lower-case mapping on Latin-1: the capital letters A to Z and
    those from U+00C0 to U+00DE but for the multiplication sign are 32
    below their small letters. *)
Definition lowerLatin1 (c : N) : N :=
  if ((65 <=? c) && (c <=? 90))%N then (c + 32)%N
  else if ((192 <=? c) && (c <=? 222) && negb (c =? 215))%N then (c + 32)%N
  else c.

(** ** The monthly blocks of a grid *)

(** [a] is met before [b] when the grid is read row by row, each row from
    left to right. *)
Definition readsBefore (a b : Anchor.t) : Prop :=
  Anchor.r a < Anchor.r b
  \/ (Anchor.r a = Anchor.r b /\ Anchor.c a < Anchor.c b).

(** Every number in the grid is a double. *)
Definition doubleGrid (rows : list (list value)) : Prop :=
  forall row v, In row rows -> In v row -> wellFormedCell v.

(** A description as the items have it: not blank, trimmed, and neither
    the currency symbol nor the totals label. *)
Definition itemLabel (desc : jsstring) : Prop :=
  desc <> [] /\ trim desc = desc
  /\ Sync.normalize (VStr desc) <> js "r$"
  /\ Sync.normalize (VStr desc) <> js "total".

(** The own keys of [detalheMensal], in the order they were added. *)
Definition ownKeys (o : Details.t) : list jsstring :=
  List.map fst (Details.props o).

(** ** Downloads played through *)
Module Scenario.

Definition start : World := mkWorld [] [].

Definition url : jsstring := js "https://example.org/s/planilha".

Definition bytes : list N := [80; 75; 3; 4]%N.

Definition workbook : Response.t :=
  Response.mk true 200 (js "OK") (Some (js "application/octet-stream"))
    (Fulfilled bytes).

Definition forbidden : Response.t :=
  Response.mk false 403 (js "Forbidden") None (Fulfilled []).

Definition loginPage : Response.t :=
  Response.mk true 200 (js "OK") (Some (js "text/html; charset=utf-8"))
    (Fulfilled []).

(** The host refuses the first two requests and serves the third. *)
Definition thirdTime (n : nat) (req : Request.t) : Promise Response.t :=
  if n <? 2 then Fulfilled forbidden else Fulfilled workbook.

(** The link is a viewer link: every request gets the login page. *)
Definition viewer (n : nat) (req : Request.t) : Promise Response.t :=
  Fulfilled loginPage.

(** The link is a direct link. *)
Definition direct (n : nat) (req : Request.t) : Promise Response.t :=
  Fulfilled workbook.

(** The host serves the file to a request that names its user agent and
    refuses every other request. *)
Definition picky (n : nat) (req : Request.t) : Promise Response.t :=
  if existsb (fun h => jseqb (fst h) (js "User-Agent")) (Request.headers req)
  then Fulfilled workbook else Fulfilled forbidden.

End Scenario.

(** ** Grids played through *)
Module Sample.

(** The header of the primary table at row 80, one row too low. *)
Definition lateHeader : list (list value) := repeat [] 80 ++ Fixture.primary.

(** A mini table of Nubank with a month in row 40, one row too low. *)
Definition tallMini : list (list value) :=
  Fixture.mini ++ repeat [] 37 ++ [[S_ "Fevereiro"; S_ "90,00"]].

Definition janeiroPoint : Point.t :=
  Point.mk (js "Janeiro") (Some (js "2026-01-01")) (Some (numZ 150)).

(** The outflows of the block of Fevereiro, in the order of their rows. *)
Definition outflows : list Item.t :=
  [Item.mk (js "Aluguel") (numZ 1200);
   Item.mk (js "Mercado") (numZ 1500);
   Item.mk (js "Luz") (numZ 1200)].

(** What [detalheMensal] holds for the block of Fevereiro. *)
Definition fevereiroDetail : Detail.t :=
  Detail.mk (Some (js "2026-02-01"))
    [Item.mk (js "Salário") (numZ 3000); Item.mk (js "Freela") (numZ 800)]
    [Item.mk (js "Mercado") (numZ 1500);
     Item.mk (js "Aluguel") (numZ 1200);
     Item.mk (js "Luz") (numZ 1200)].

End Sample.

(* ================================================================== *)
(** * Strings and lists *)
(* ================================================================== *)

Lemma jseqb_eq : forall a b, jseqb a b = true <-> a = b.
Proof.
  induction a as [|x a IH]; destruct b as [|y b]; simpl; split;
    try congruence; try discriminate.
  - intros H. apply andb_true_iff in H. destruct H as [H1 H2].
    apply N.eqb_eq in H1. apply IH in H2. congruence.
  - intros H. injection H as -> ->. rewrite N.eqb_refl. simpl.
    now apply IH.
Qed.

Lemma jseqb_refl : forall a, jseqb a a = true.
Proof. intros a. now apply jseqb_eq. Qed.

Lemma jseqb_neq : forall a b, jseqb a b = false <-> a <> b.
Proof.
  intros a b. split.
  - intros H E. apply jseqb_eq in E. congruence.
  - intros H. destruct (jseqb a b) eqn:E; [|reflexivity].
    apply jseqb_eq in E. contradiction.
Qed.

Lemma jseqb_sym : forall a b, jseqb a b = jseqb b a.
Proof.
  intros a b. destruct (jseqb a b) eqn:E.
  - apply jseqb_eq in E. subst. symmetry. apply jseqb_refl.
  - symmetry. apply jseqb_neq. apply jseqb_neq in E. congruence.
Qed.

Lemma slice_to_end : forall A (l : list A) lo,
  slice l lo (length l) = skipn lo l.
Proof.
  intros A l lo. unfold slice. apply firstn_all2.
  rewrite length_skipn. lia.
Qed.

(* ================================================================== *)
(** * Tabela1 *)
(* ================================================================== *)

Lemma scanTabela1_blank : forall row rest,
  trim (String_ (at_ row 0)) = [] ->
  Sync.scanTabela1 (row :: rest) = Sync.scanTabela1 rest.
Proof. intros row rest H. simpl. now rewrite H. Qed.

Lemma scanTabela1_total : forall row rest,
  Sync.normalize (VStr (trim (String_ (at_ row 0)))) = js "total" ->
  Sync.scanTabela1 (row :: rest) = [].
Proof.
  intros row rest H. simpl.
  destruct (trim (String_ (at_ row 0))) as [|c m] eqn:E.
  - discriminate H.
  - simpl truthy. cbv iota. simpl negb. cbv iota.
    rewrite H. reflexivity.
Qed.

Lemma scanTabela1_month : forall row rest,
  truthy (Sync.monthMap
            (Sync.normalize (VStr (trim (String_ (at_ row 0)))))) = true ->
  Sync.scanTabela1 (row :: rest)
  = Sync.summaryRow (trim (String_ (at_ row 0))) row
      :: Sync.scanTabela1 rest.
Proof.
  intros row rest H. simpl.
  destruct (trim (String_ (at_ row 0))) as [|c m] eqn:E.
  - discriminate H.
  - simpl truthy. cbv iota. simpl negb. cbv iota.
    rewrite H. reflexivity.
Qed.

(** C1. With the header row at row 2, the row of "Janeiro" below it and
    then a row that starts with "Total", the primary table holds exactly
    the row of Janeiro (2026-01-01, entrada 1000, saida 500, liquido 500),
    whatever the totals row holds besides and whatever rows follow it. *)
Theorem C1_primary_example : forall r0 r1 totals rest,
  Sync.isHeaderRow r0 = false ->
  Sync.isHeaderRow r1 = false ->
  Sync.parseTabela1
    (r0 :: r1 :: Fixture.header :: Fixture.janeiro
        :: (S_ "Total" :: totals) :: rest)
  = [Fixture.janeiroRow].
Proof.
  intros r0 r1 totals rest H0 H1.
  unfold Sync.parseTabela1.
  replace (Sync.headerRow _) with (Some 2).
  2:{ unfold Sync.headerRow, slice.
      cbn [length Nat.min Nat.sub skipn firstn findIndex].
      rewrite H0, H1.
      replace (Sync.isHeaderRow Fixture.header) with true
        by (vm_compute; reflexivity).
      reflexivity. }
  rewrite slice_to_end. cbn [Nat.add skipn].
  rewrite scanTabela1_month by (vm_compute; reflexivity).
  rewrite scanTabela1_total by (vm_compute; reflexivity).
  vm_compute. reflexivity.
Qed.

Lemma C1_primary_example_witness :
  Sync.parseTabela1 Fixture.primary = [Fixture.janeiroRow].
Proof.
  apply (C1_primary_example [] []
           [S_ "1.000,00"; S_ "500,00"; S_ "500,00"; S_ ""; S_ ""]
           [[S_ "Fevereiro"; S_ "2.000,00"; S_ "700,00"; S_ "1.300,00";
             S_ "800"; S_ "160%"]]);
    reflexivity.
Defined.

Lemma In_firstn : forall A n (l : list A) x, In x (firstn n l) -> In x l.
Proof.
  intros A n l x H. rewrite <- (firstn_skipn n l).
  apply in_or_app. now left.
Qed.

Lemma In_skipn : forall A n (l : list A) x, In x (skipn n l) -> In x l.
Proof.
  intros A n l x H. rewrite <- (firstn_skipn n l).
  apply in_or_app. now right.
Qed.

Lemma In_slice : forall A (l : list A) lo hi x,
  In x (slice l lo hi) -> In x l.
Proof.
  intros A l lo hi x H. unfold slice in H.
  apply In_firstn in H. now apply In_skipn in H.
Qed.

Lemma scanTabela1_In : forall rs sr,
  In sr (Sync.scanTabela1 rs) ->
  exists row, In row rs
    /\ sr = Sync.summaryRow (trim (String_ (at_ row 0))) row.
Proof.
  induction rs as [|row rest IH]; intros sr H; [contradiction|].
  cbn [Sync.scanTabela1] in H. cbv zeta in H.
  destruct (negb (truthy (VStr (trim (String_ (at_ row 0)))))).
  - destruct (IH _ H) as [row' [Hin Heq]]. exists row'. split; [now right|easy].
  - destruct (negb (truthy (Sync.monthMap _))).
    + destruct (jseqb _ _); [contradiction|].
      destruct (IH _ H) as [row' [Hin Heq]]. exists row'.
      split; [now right|easy].
    + destruct H as [H|H].
      * exists row. split; [now left|now symmetry].
      * destruct (IH _ H) as [row' [Hin Heq]]. exists row'.
        split; [now right|easy].
Qed.

(** C2, as the code has it. Every row of the primary table comes from one
    row of the grid: column 0 is its month, columns 1 to 4 are read through
    [brlToNumber] as entrada (inflow), saida (outflow), liquido and
    diferenca_m1, in this order, and column 5 is the growth label, trimmed,
    [null] when blank. *)
Theorem C2_columns_inflow_first : forall rows sr,
  In sr (Sync.parseTabela1 rows) ->
  exists row, In row rows
    /\ Row.month sr = trim (String_ (at_ row 0))
    /\ Row.entrada sr = Sync.brlToNumber (at_ row 1)
    /\ Row.saida sr = Sync.brlToNumber (at_ row 2)
    /\ Row.liquido sr = Sync.brlToNumber (at_ row 3)
    /\ Row.diferenca_m1 sr = Sync.brlToNumber (at_ row 4)
    /\ Row.crescimento sr
       = (let s := trim (String_ (at_ row 5)) in
          if truthy (VStr s) then Some s else None).
Proof.
  intros rows sr H. unfold Sync.parseTabela1 in H.
  destruct (Sync.headerRow rows) as [h|]; [|contradiction].
  apply scanTabela1_In in H. destruct H as [row [Hin ->]].
  exists row. split; [now apply In_slice in Hin|].
  repeat split; reflexivity.
Qed.

Lemma C2_columns_inflow_first_witness :
  exists row, In row Fixture.primary
    /\ Row.month Fixture.janeiroRow = trim (String_ (at_ row 0))
    /\ Row.entrada Fixture.janeiroRow = Sync.brlToNumber (at_ row 1)
    /\ Row.saida Fixture.janeiroRow = Sync.brlToNumber (at_ row 2)
    /\ Row.liquido Fixture.janeiroRow = Sync.brlToNumber (at_ row 3)
    /\ Row.diferenca_m1 Fixture.janeiroRow = Sync.brlToNumber (at_ row 4)
    /\ Row.crescimento Fixture.janeiroRow
       = (let s := trim (String_ (at_ row 5)) in
          if truthy (VStr s) then Some s else None).
Proof.
  apply (C2_columns_inflow_first Fixture.primary Fixture.janeiroRow).
  vm_compute. left. reflexivity.
Defined.

(** C2, as worded (column 1 the outflow, column 2 the inflow), fails on
    the example grid: the row of Janeiro has saida 500,
    and no row of the grid holds 500 in column 1. *)
Lemma C2_outflow_first_fails : ~ reads_outflow_first Fixture.primary.
Proof.
  intros H. destruct (H Fixture.janeiroRow) as [row [Hin [Hs _]]].
  - vm_compute. left. reflexivity.
  - unfold Fixture.primary in Hin. cbn [In] in Hin.
    repeat (destruct Hin as [<-|Hin]; [vm_compute in Hs; discriminate Hs|]).
    contradiction.
Qed.

(** The block loop guards the same kind of read: a missing description
    cell counts as the empty string. *)
Example block_read_is_defensive : forall col, Block.descAt [] col = [].
Proof. intros col. unfold Block.descAt, at_. destruct col; reflexivity. Qed.

(** C5. On a sheet five columns wide the read of column 5 is
    [undefined], and the growth label becomes the text "undefined". *)
Theorem C5_missing_growth_cell :
  Sync.parseTabela1 Fixture.narrow
  = [Row.mk (js "Janeiro") (Some (js "2026-01-01"))
       (Some (numZ 1000)) (Some (numZ 500)) (Some (numZ 500))
       (Some (numZ 0)) (Some (js "undefined"))].
Proof. vm_compute. reflexivity. Qed.

(* ================================================================== *)
(** * Empty input *)
(* ================================================================== *)

Lemma findIndex_none : forall A (p : A -> bool) l,
  (forall x, In x l -> p x = false) -> findIndex p l = None.
Proof.
  induction l as [|x l IH]; intros H; [reflexivity|].
  simpl. rewrite (H x) by now left.
  rewrite IH; [reflexivity|]. intros y Hy. apply H. now right.
Qed.

Lemma flat_map_nil : forall A B (f : A -> list B) l,
  (forall x, In x l -> f x = []) -> flat_map f l = [].
Proof.
  induction l as [|x l IH]; intros H; [reflexivity|].
  simpl. rewrite (H x) by now left.
  rewrite IH; [reflexivity|]. intros y Hy. apply H. now right.
Qed.

Lemma includes_blank : forall row x,
  Forall blankCell row -> x <> [] ->
  includes (Sync.lowerCells row) x = false.
Proof.
  intros row x Hrow Hx. induction Hrow as [|v row Hv _ IH]; [reflexivity|].
  unfold includes, Sync.lowerCells in *. simpl.
  rewrite IH. unfold blankCell in Hv. rewrite Hv. simpl.
  destruct x; [contradiction|reflexivity].
Qed.

Lemma isHeaderRow_blank : forall row,
  Forall blankCell row -> Sync.isHeaderRow row = false.
Proof.
  intros row H. unfold Sync.isHeaderRow. cbv zeta.
  rewrite (includes_blank (x := js "entrada") H) by discriminate.
  reflexivity.
Qed.

Lemma hasTitle_blank : forall t row,
  Forall blankCell row -> t <> [] -> Sync.hasTitle t row = false.
Proof.
  intros t row Hrow Ht. unfold Sync.hasTitle. cbv zeta.
  induction Hrow as [|v row Hv _ IH]; [reflexivity|].
  simpl. rewrite IH. unfold blankCell in Hv. rewrite Hv. simpl.
  destruct t; [contradiction|reflexivity].
Qed.

Lemma parseTabela1_blank : forall rows,
  blankGrid rows -> Sync.parseTabela1 rows = [].
Proof.
  intros rows H. unfold Sync.parseTabela1, Sync.headerRow.
  rewrite findIndex_none; [reflexivity|].
  intros row Hin. apply In_slice in Hin.
  apply isHeaderRow_blank. unfold blankGrid in H.
  rewrite Forall_forall in H. now apply H.
Qed.

Lemma parseMini_blank : forall rows title,
  blankGrid rows -> toLowerCase title <> [] -> Sync.parseMini rows title = [].
Proof.
  intros rows title H Ht. unfold Sync.parseMini. cbv zeta.
  rewrite findIndex_none; [reflexivity|].
  intros row Hin. apply hasTitle_blank; [|assumption].
  unfold blankGrid in H. rewrite Forall_forall in H. now apply H.
Qed.

Lemma findMonthAnchors_blank : forall rows,
  blankGrid rows -> Sync.findMonthAnchors rows = [].
Proof.
  intros rows H. unfold Sync.findMonthAnchors.
  apply flat_map_nil. intros r Hr. apply in_seq in Hr.
  apply flat_map_nil. intros c Hc. apply in_seq in Hc.
  unfold Sync.anchorAt. cbv zeta.
  assert (Hcell : blankCell (at_ (nth r rows []) c)).
  { unfold blankGrid in H. rewrite Forall_forall in H.
    assert (Hrow : Forall blankCell (nth r rows [])).
    { apply H. apply nth_In. lia. }
    rewrite Forall_forall in Hrow. apply Hrow.
    unfold at_. apply nth_In. lia. }
  unfold blankCell in Hcell. rewrite Hcell. reflexivity.
Qed.

Lemma parseRows_blank : forall rows now,
  blankGrid rows -> Sync.parseRows rows now = emptyResult now.
Proof.
  intros rows now H. unfold Sync.parseRows, emptyResult, Sync.parseTabela4.
  rewrite parseTabela1_blank by assumption.
  rewrite !parseMini_blank by (assumption || discriminate).
  rewrite findMonthAnchors_blank by assumption.
  reflexivity.
Qed.

(** C4. A workbook without sheets, for which the library materialises no
    rows, and a workbook whose first sheet has blank cells only, both give
    the result whose tabela1, tabela2, tabela3 and detalheMensal are
    empty: [parseWorkbook] returns, it does not fail. *)
Theorem C4_empty_input :
  forall (sheet : Type) (sheet_to_json : option sheet -> list (list value))
         (now : jsstring) (wb : Workbook sheet),
  (SheetNames wb = [] -> Sheets wb = [] -> sheet_to_json None = [] ->
   Sync.parseWorkbook sheet_to_json now wb = emptyResult now)
  /\
  (forall name others ws,
     SheetNames wb = name :: others ->
     sheetAt (Sheets wb) name = Some ws ->
     blankGrid (sheet_to_json (Some ws)) ->
     Sync.parseWorkbook sheet_to_json now wb = emptyResult now).
Proof.
  intros sheet stj now wb. split.
  - intros Hn Hs Hj. unfold Sync.parseWorkbook. cbv zeta.
    rewrite Hn, Hs. simpl sheetAt. rewrite Hj.
    apply parseRows_blank. constructor.
  - intros name others ws Hn Hs Hb. unfold Sync.parseWorkbook. cbv zeta.
    rewrite Hn. simpl String_. rewrite Hs.
    now apply parseRows_blank.
Qed.

Lemma C4_empty_input_witness :
  Sync.parseWorkbook SheetModel.sheet_to_json (js "2026-01-01T00:00:00.000Z")
    SheetModel.noSheets
  = emptyResult (js "2026-01-01T00:00:00.000Z")
  /\
  Sync.parseWorkbook SheetModel.sheet_to_json (js "2026-01-01T00:00:00.000Z")
    SheetModel.blankSheet
  = emptyResult (js "2026-01-01T00:00:00.000Z").
Proof.
  split.
  - apply (proj1 (C4_empty_input SheetModel.sheet_to_json
                    (js "2026-01-01T00:00:00.000Z") SheetModel.noSheets));
      reflexivity.
  - apply (proj2 (C4_empty_input SheetModel.sheet_to_json
                    (js "2026-01-01T00:00:00.000Z") SheetModel.blankSheet)
             (js "Planilha1") []
             [[S_ ""; S_ "  "]; [S_ ""; S_ ""]]).
    + reflexivity.
    + reflexivity.
    + repeat constructor.
Defined.

(* ================================================================== *)
(** * Tabela4: anchors and blocks *)
(* ================================================================== *)

Lemma sideItems_lineItem : forall col row,
  Sync.lineItem (Block.descAt row col) (at_ row (col + 2))
  = Block.sideItems col row.
Proof.
  intros col row. unfold Sync.lineItem, Block.sideItems.
  destruct (Block.descAt row col) as [|c t]; [reflexivity|].
  cbn [truthy andb].
  destruct (jseqb _ _); reflexivity.
Qed.

Lemma scanBlock_untilTotal : forall eCol sCol rs,
  Sync.scanBlock eCol sCol rs
  = (flat_map (Block.sideItems eCol) (Block.untilTotal eCol sCol rs),
     flat_map (Block.sideItems sCol) (Block.untilTotal eCol sCol rs)).
Proof.
  intros eCol sCol. induction rs as [|row rest IH]; [reflexivity|].
  cbn [Sync.scanBlock Block.untilTotal]. cbv zeta.
  change (trim (String_ (nullish (at_ row eCol) (VStr []))))
    with (Block.descAt row eCol).
  change (trim (String_ (nullish (at_ row sCol) (VStr []))))
    with (Block.descAt row sCol).
  rewrite !sideItems_lineItem. unfold Block.isTotalRow.
  destruct (jseqb _ _ || jseqb _ _); [reflexivity|].
  rewrite IH. reflexivity.
Qed.

Lemma untilTotal_prefix : forall eCol sCol pre t post,
  Block.isTotalRow eCol sCol t = true ->
  (forall row, In row pre -> Block.isTotalRow eCol sCol row = false) ->
  Block.untilTotal eCol sCol (pre ++ t :: post) = pre.
Proof.
  intros eCol sCol pre t post Ht. induction pre as [|row pre IH]; intros H.
  - simpl. now rewrite Ht.
  - simpl. rewrite (H row) by now left.
    rewrite IH; [reflexivity|]. intros r Hr. apply H. now right.
Qed.

Lemma findIndex_some : forall A (p : A -> bool) l x,
  In x l -> p x = true -> findIndex p l <> None.
Proof.
  induction l as [|y l IH]; intros x Hin Hp; [contradiction|].
  simpl. destruct (p y) eqn:E; [discriminate|].
  destruct Hin as [->|Hin]; [congruence|].
  specialize (IH x Hin Hp). destruct (findIndex p l); congruence.
Qed.

Lemma includes_In : forall a x, includes a x = true <-> In x a.
Proof.
  intros a x. unfold includes. rewrite existsb_exists. split.
  - intros [y [Hy E]]. apply jseqb_eq in E. now subst.
  - intros H. exists x. split; [assumption|apply jseqb_refl].
Qed.

(** The 20 cells inspected for an anchor are among the 30 cells inspected
    for its columns. *)
Lemma lowerCells_window : forall row c x,
  In x (Sync.lowerCells (slice row c (c + 20))) ->
  In x (Sync.lowerCells (slice row c (c + 30))).
Proof.
  intros row c x H. unfold Sync.lowerCells, slice in *.
  replace (c + 20 - c) with 20 in H by lia.
  replace (c + 30 - c) with 30 by lia.
  apply in_map_iff in H. destruct H as [v [<- Hv]].
  apply in_map_iff. exists v. split; [reflexivity|].
  change 20 with (Nat.min 20 30) in Hv.
  rewrite <- firstn_firstn in Hv. now apply In_firstn in Hv.
Qed.

Lemma In_findMonthAnchors : forall rows a,
  In a (Sync.findMonthAnchors rows) ->
  Anchor.r a < length rows
  /\ Anchor.c a < Nat.min (length (nth (Anchor.r a) rows [])) 250
  /\ Anchor.month a
     = trim (String_ (at_ (nth (Anchor.r a) rows []) (Anchor.c a)))
  /\ truthy (Sync.monthMap (Sync.normalize (VStr (Anchor.month a)))) = true
  /\ Sync.hasSubHeader
       (Sync.lowerCells
          (slice (nth (Anchor.r a + 1) rows [])
             (Anchor.c a) (Anchor.c a + 20))) = true.
Proof.
  intros rows a H. unfold Sync.findMonthAnchors in H.
  apply in_flat_map in H. destruct H as [r [Hr H]].
  apply in_flat_map in H. destruct H as [c [Hc H]].
  apply in_seq in Hr. apply in_seq in Hc.
  unfold Sync.anchorAt in H. cbv zeta in H.
  destruct (negb (truthy (VStr _))); [contradiction|].
  destruct (truthy (Sync.monthMap _)) eqn:Hm; [|contradiction].
  cbn [negb] in H.
  destruct (Sync.hasSubHeader _) eqn:Hs; [|contradiction].
  destruct H as [<-|[]]. cbn [Anchor.r Anchor.c Anchor.month].
  repeat split; (lia || assumption || reflexivity).
Qed.

(** An anchor that [findMonthAnchors] collects is never skipped by the
    block loop: both labels are found again. *)
Lemma blockColumns_anchor : forall rows a,
  In a (Sync.findMonthAnchors rows) ->
  exists eCol sCol, Sync.blockColumns rows a = Some (eCol, sCol).
Proof.
  intros rows a H. apply In_findMonthAnchors in H.
  destruct H as (_ & _ & _ & _ & H).
  unfold Sync.hasSubHeader in H. cbv zeta in H.
  apply andb_true_iff in H. destruct H as [HE HS].
  unfold Sync.blockColumns. cbv zeta. unfold indexOf.
  set (header := Sync.lowerCells _).
  assert (E : findIndex (jseqb (js "entrada")) header <> None).
  { apply includes_In in HE. apply lowerCells_window in HE.
    apply (findIndex_some _ _ _ HE). apply jseqb_refl. }
  assert (F : findIndex
                (fun x => jseqb x (js "saída") || jseqb x (js "saida"))
                header <> None).
  { apply orb_true_iff in HS.
    destruct HS as [HS|HS]; apply includes_In in HS;
      apply lowerCells_window in HS;
      apply (findIndex_some _ _ _ HS); rewrite jseqb_refl;
      [reflexivity|apply orb_true_r]. }
  destruct (findIndex (jseqb (js "entrada")) header) as [e|]; [|congruence].
  destruct (findIndex _ header) as [s0|]; [|congruence].
  eauto.
Qed.

Lemma blockRows_window : forall rows a,
  Sync.blockRows rows a = Block.window rows a.
Proof.
  intros rows a. unfold Sync.blockRows, Block.window, slice.
  destruct (Nat.le_gt_cases (Anchor.r a + 60) (length rows)) as [H|H].
  - rewrite Nat.min_r by assumption. f_equal. lia.
  - rewrite Nat.min_l by lia.
    rewrite !firstn_all2; [reflexivity| |]; rewrite length_skipn; lia.
Qed.

Lemma window_nth : forall rows a i,
  nth_error (Block.window rows a) i
  = if i <? 58 then nth_error rows (Anchor.r a + 2 + i) else None.
Proof.
  intros rows a i. unfold Block.window.
  rewrite nth_error_firstn. destruct (i <? 58); [|reflexivity].
  apply nth_error_skipn.
Qed.

Lemma findIndex_first : forall A (p : A -> bool) l i,
  findIndex p l = Some i ->
  (exists x, nth_error l i = Some x /\ p x = true)
  /\ forall j y, j < i -> nth_error l j = Some y -> p y = false.
Proof.
  intros A p. induction l as [|x l IH]; intros i H; [discriminate|].
  cbn [findIndex] in H. destruct (p x) eqn:E.
  - injection H as <-. split; [exists x; now split|]. intros j y Hj. lia.
  - destruct (findIndex p l) as [k|]; [|discriminate]. injection H as <-.
    destruct (IH k eq_refl) as [[z [Hz Pz]] Hmin]. split.
    + exists z. now split.
    + intros j y Hj Hy. destruct j as [|j].
      * cbn in Hy. injection Hy as <-. exact E.
      * cbn in Hy. apply (Hmin j y); [lia|assumption].
Qed.

Lemma lowerCells_nth : forall row c i x,
  nth_error (Sync.lowerCells (slice row c (c + 30))) i = Some x ->
  i < 30 /\ c + i < length row
  /\ x = toLowerCase (trim (String_ (at_ row (c + i)))).
Proof.
  intros row c i x H. unfold Sync.lowerCells, slice in H.
  replace (c + 30 - c) with 30 in H by lia.
  rewrite nth_error_map, nth_error_firstn in H.
  destruct (Nat.ltb_spec i 30) as [Hi|Hi]; [|discriminate H].
  rewrite nth_error_skipn in H.
  destruct (nth_error row (c + i)) as [v|] eqn:E; [|discriminate H].
  cbn in H. injection H as <-. split; [assumption|]. split.
  - apply nth_error_Some. congruence.
  - unfold at_. now rewrite (nth_error_nth _ _ _ E).
Qed.

Lemma lowerCells_nth_below : forall row c i j x,
  nth_error (Sync.lowerCells (slice row c (c + 30))) i = Some x ->
  j < i ->
  nth_error (Sync.lowerCells (slice row c (c + 30))) j
  = Some (toLowerCase (trim (String_ (at_ row (c + j))))).
Proof.
  intros row c i j x H Hj.
  destruct (lowerCells_nth _ _ _ H) as (Hi & Hlen & _).
  unfold Sync.lowerCells, slice.
  replace (c + 30 - c) with 30 by lia.
  rewrite nth_error_map, nth_error_firstn.
  destruct (Nat.ltb_spec j 30) as [_|F]; [|lia].
  rewrite nth_error_skipn.
  destruct (nth_error row (c + j)) as [v|] eqn:E.
  - cbn. unfold at_. now rewrite (nth_error_nth _ _ _ E).
  - apply nth_error_None in E. lia.
Qed.

Lemma findIndex_firstLabel : forall rows a p i,
  findIndex p
    (Sync.lowerCells
       (slice (nth (Anchor.r a + 1) rows []) (Anchor.c a)
          (Anchor.c a + 30))) = Some i ->
  Block.firstLabel rows a p (Anchor.c a + i).
Proof.
  intros rows a p i H.
  destruct (findIndex_first _ _ H) as [[x [Hx Px]] Hmin].
  destruct (lowerCells_nth _ _ _ Hx) as (Hi & Hlen & ->).
  unfold Block.firstLabel, Block.label.
  split; [lia|]. split; [assumption|]. split; [assumption|].
  intros j Hj.
  replace j with (Anchor.c a + (j - Anchor.c a)) by lia.
  apply (Hmin (j - Anchor.c a)); [lia|].
  apply (lowerCells_nth_below _ _ Hx). lia.
Qed.

(** The columns of a block are those of the first label "entrada" and of
    the first label "saída" or "saida" among the 30 labels from the
    anchor's column on. *)
Lemma blockColumns_first : forall rows a eCol sCol,
  Sync.blockColumns rows a = Some (eCol, sCol) ->
  Block.firstLabel rows a Block.isEntrada eCol
  /\ Block.firstLabel rows a Block.isSaida sCol.
Proof.
  intros rows a eCol sCol H. unfold Sync.blockColumns in H.
  cbv zeta in H. unfold indexOf in H.
  destruct (findIndex (jseqb (js "entrada")) _) as [e|] eqn:E;
    [|discriminate H].
  destruct (findIndex (fun x => jseqb x (js "saída") || jseqb x (js "saida"))
              _) as [s0|] eqn:F; [|discriminate H].
  injection H as <- <-. split.
  - apply findIndex_firstLabel.
    rewrite <- E. clear. generalize (Sync.lowerCells
      (slice (nth (Anchor.r a + 1) rows []) (Anchor.c a)
         (Anchor.c a + 30))).
    induction l as [|x l IH]; [reflexivity|].
    cbn [findIndex]. unfold Block.isEntrada at 1.
    rewrite (jseqb_sym x). now rewrite IH.
  - now apply findIndex_firstLabel.
Qed.

Lemma firstLabel_unique : forall rows a p c1 c2,
  Block.firstLabel rows a p c1 -> Block.firstLabel rows a p c2 -> c1 = c2.
Proof.
  intros rows a p c1 c2 (B1 & _ & P1 & M1) (B2 & _ & P2 & M2).
  destruct (Nat.lt_trichotomy c1 c2) as [H|[H|H]]; [|assumption|].
  - rewrite (M2 c1) in P1 by lia. discriminate.
  - rewrite (M1 c2) in P2 by lia. discriminate.
Qed.

(* ================================================================== *)
(** * The sign of a difference of doubles *)
(* ================================================================== *)

Section Doubles.

Local Open Scope Z_scope.

Lemma digits2_pos_size : forall m, digits2_pos m = Pos.size m.
Proof. induction m; simpl; congruence. Qed.

Lemma digits2_lower : forall m, 2 ^ (Z.pos (digits2_pos m) - 1) <= Z.pos m.
Proof.
  intros m. rewrite digits2_pos_size.
  pose proof (Pos.size_le m) as H.
  assert (H' : 2 ^ Z.pos (Pos.size m) <= 2 * Z.pos m).
  { rewrite <- Pos2Z.inj_pow. change (2 * Z.pos m) with (Z.pos m~0).
    apply Pos2Z.pos_le_pos. exact H. }
  replace (Z.pos (Pos.size m)) with (Z.succ (Z.pos (Pos.size m) - 1)) in H'
    by lia.
  rewrite Z.pow_succ_r in H' by lia. lia.
Qed.

Lemma shr_1_m : forall x, 0 <= shr_m x -> shr_m (shr_1 x) = shr_m x / 2.
Proof.
  intros [m r s] H. simpl in *.
  destruct m as [|p|p]; [reflexivity| |lia].
  destruct p; simpl shr_m.
  - rewrite Pos2Z.inj_xI. apply Z.div_unique with (r := 1); lia.
  - rewrite Pos2Z.inj_xO. apply Z.div_unique with (r := 0); lia.
  - reflexivity.
Qed.

Lemma iter_shr_1_m : forall p x,
  0 <= shr_m x ->
  shr_m (iter_pos shr_1 p x) = shr_m x / 2 ^ Z.pos p.
Proof.
  induction p as [p IH|p IH|]; intros x H; simpl iter_pos.
  - assert (H1 : 0 <= shr_m (shr_1 x)).
    { rewrite shr_1_m by assumption. apply Z.div_pos; lia. }
    assert (H2 : 0 <= shr_m (iter_pos shr_1 p (shr_1 x))).
    { rewrite IH by assumption. apply Z.div_pos; [lia|].
      apply Z.pow_pos_nonneg; lia. }
    rewrite IH by assumption. rewrite IH by assumption.
    rewrite shr_1_m by assumption.
    rewrite !Z.div_div by (try apply Z.pow_pos_nonneg; lia).
    f_equal. rewrite Pos2Z.inj_xI.
    replace (2 ^ (2 * Z.pos p + 1))
      with (2 ^ 1 * (2 ^ Z.pos p * 2 ^ Z.pos p)); [lia|].
    rewrite <- !Z.pow_add_r by lia. f_equal. lia.
  - assert (H2 : 0 <= shr_m (iter_pos shr_1 p x)).
    { rewrite IH by assumption. apply Z.div_pos; [lia|].
      apply Z.pow_pos_nonneg; lia. }
    rewrite IH by assumption. rewrite IH by assumption.
    rewrite !Z.div_div by (try apply Z.pow_pos_nonneg; lia).
    f_equal. rewrite Pos2Z.inj_xO.
    rewrite <- Z.pow_add_r by lia. f_equal. lia.
  - rewrite shr_1_m by assumption. reflexivity.
Qed.

Lemma shr_record_of_loc_m : forall m l, shr_m (shr_record_of_loc m l) = m.
Proof. intros m [|[]]; reflexivity. Qed.

Lemma shr_fexp_pos : forall m e l,
  0 < m -> emin b64_prec b64_emax <= e ->
  0 < shr_m (fst (shr_fexp b64_prec b64_emax m e l))
  /\ emin b64_prec b64_emax <= snd (shr_fexp b64_prec b64_emax m e l).
Proof.
  intros m e l Hm He. unfold shr_fexp, shr.
  destruct m as [|p|p]; try lia. simpl Zdigits2.
  pose proof (digits2_lower p) as Hd.
  set (D := Z.pos (digits2_pos p)) in *.
  unfold fexp. unfold emin, b64_prec, b64_emax in *.
  destruct (Z.max (D + e - 53) (3 - 1024 - 53) - e) as [|n|n] eqn:En;
    simpl fst; simpl snd.
  - rewrite shr_record_of_loc_m. lia.
  - rewrite iter_shr_1_m by (rewrite shr_record_of_loc_m; lia).
    rewrite shr_record_of_loc_m. split; [|lia].
    apply Z.div_str_pos. split; [apply Z.pow_pos_nonneg; lia|].
    apply Z.le_trans with (2 ^ (D - 1)); [|assumption].
    apply Z.pow_le_mono_r; lia.
  - rewrite shr_record_of_loc_m. lia.
Qed.

Lemma round_nearest_even_pos : forall m l, 0 < m -> 0 < round_nearest_even m l.
Proof.
  intros m l H. unfold round_nearest_even.
  destruct l as [|[]]; try lia. destruct (Z.even m); lia.
Qed.

Lemma binary_round_aux_positive : forall m e l,
  0 < m -> emin b64_prec b64_emax <= e ->
  isPositive (binary_round_aux b64_prec b64_emax false m e l) = true.
Proof.
  intros m e l Hm He. unfold binary_round_aux.
  pose proof (@shr_fexp_pos m e l Hm He) as [H1 H2].
  destruct (shr_fexp b64_prec b64_emax m e l) as [mrs' e'].
  simpl fst in H1. simpl snd in H2.
  pose proof (@round_nearest_even_pos (shr_m mrs') (loc_of_shr_record mrs')
                H1) as H3.
  pose proof (@shr_fexp_pos _ e' loc_Exact H3 H2) as [H4 H5].
  destruct (shr_fexp b64_prec b64_emax _ e' loc_Exact) as [mrs'' e''].
  simpl fst in H4.
  destruct (shr_m mrs'') as [|q|q]; try lia.
  destruct (e'' <=? b64_emax - b64_prec); reflexivity.
Qed.

Lemma binary_round_positive : forall m e,
  emin b64_prec b64_emax <= e ->
  isPositive (binary_round b64_prec b64_emax false m e) = true.
Proof.
  intros m e He. unfold binary_round, shl_align.
  set (f := fexp b64_prec b64_emax (Z.pos (digits2_pos m) + e)).
  assert (Hf : emin b64_prec b64_emax <= f) by (unfold f, fexp; lia).
  destruct (f - e) as [|d|d] eqn:Ed;
    apply binary_round_aux_positive; lia.
Qed.

Lemma binary_round_negative : forall m e,
  isPositive (binary_round b64_prec b64_emax true m e) = false.
Proof.
  intros m e. unfold binary_round.
  destruct (shl_align m e _) as [mz ez]. unfold binary_round_aux.
  destruct (shr_fexp b64_prec b64_emax (Z.pos mz) ez loc_Exact) as [mrs' e'].
  destruct (shr_fexp b64_prec b64_emax _ e' loc_Exact) as [mrs'' e''].
  destruct (shr_m mrs'') as [|q|q]; try reflexivity.
  destruct (e'' <=? b64_emax - b64_prec); reflexivity.
Qed.

Lemma iter_xO : forall d m, Z.pos (Pos.iter xO m d) = Z.pos m * 2 ^ Z.pos d.
Proof.
  intros d m. induction d as [|d IH] using Pos.peano_ind.
  - simpl. lia.
  - rewrite Pos.iter_succ. rewrite Pos2Z.inj_xO, IH.
    rewrite Pos2Z.inj_succ, Z.pow_succ_r by lia. lia.
Qed.

Lemma shl_align_fst : forall m e ez,
  ez <= e -> Z.pos (fst (shl_align m e ez)) = Z.pos m * 2 ^ (e - ez).
Proof.
  intros m e ez H. unfold shl_align.
  destruct (ez - e) as [|d|d] eqn:Ed; simpl fst.
  - replace (e - ez) with 0 by lia. lia.
  - lia.
  - rewrite iter_xO. f_equal. f_equal. lia.
Qed.

Lemma numSub_sign : forall x y,
  x <> S754_nan -> y <> S754_nan -> wellFormed x -> wellFormed y ->
  isPositive (numSub x y) = extLtb (exactKey y) (exactKey x).
Proof.
  intros x y Hx Hy Wx Wy.
  destruct x as [sx|sx| |sx mx ex]; destruct y as [sy|sy| |sy my ey];
    try congruence; simpl in Wx, Wy.
  - destruct sx, sy; reflexivity.
  - destruct sx, sy; reflexivity.
  - unfold numSub, SFsub, exactKey, extLtb.
    assert (P : 0 < Z.pos my * 2 ^ (ey + 1074)).
    { apply Z.mul_pos_pos; [lia|apply Z.pow_pos_nonneg; lia]. }
    destruct sx, sy; unfold isPositive, SFltb, SFcompare, posZero, cond_Zopp;
      cbn [negb]; symmetry; (apply Z.ltb_lt || apply Z.ltb_ge); lia.
  - destruct sx, sy; reflexivity.
  - destruct sx, sy; reflexivity.
  - destruct sx, sy; reflexivity.
  - unfold numSub, SFsub, exactKey, extLtb.
    assert (P : 0 < Z.pos mx * 2 ^ (ex + 1074)).
    { apply Z.mul_pos_pos; [lia|apply Z.pow_pos_nonneg; lia]. }
    destruct sx; unfold isPositive, SFltb, SFcompare, posZero, cond_Zopp;
      symmetry; (apply Z.ltb_lt || apply Z.ltb_ge); lia.
  - destruct sx, sy; reflexivity.
  - unfold numSub, SFsub.
    set (ez := Z.min ex ey).
    rewrite !shl_align_fst by lia.
    set (X := cond_Zopp sx (Z.pos mx * 2 ^ (ex - ez))).
    set (Y := cond_Zopp sy (Z.pos my * 2 ^ (ey - ez))).
    assert (KX : cond_Zopp sx (Z.pos mx * 2 ^ (ex + 1074))
                 = X * 2 ^ (ez + 1074)).
    { unfold X. replace (ex + 1074) with ((ex - ez) + (ez + 1074)) by lia.
      rewrite Z.pow_add_r by lia. destruct sx; unfold cond_Zopp; ring. }
    assert (KY : cond_Zopp sy (Z.pos my * 2 ^ (ey + 1074))
                 = Y * 2 ^ (ez + 1074)).
    { unfold Y. replace (ey + 1074) with ((ey - ez) + (ez + 1074)) by lia.
      rewrite Z.pow_add_r by lia. destruct sy; unfold cond_Zopp; ring. }
    unfold exactKey, extLtb. rewrite KX, KY.
    assert (P : 0 < 2 ^ (ez + 1074)) by (apply Z.pow_pos_nonneg; lia).
    unfold binary_normalize.
    destruct (X - Y) as [|d|d] eqn:Ed.
    + symmetry. apply Z.ltb_ge. replace X with Y by lia. lia.
    + rewrite binary_round_positive by (unfold emin, b64_prec, b64_emax; lia).
      symmetry. apply Z.ltb_lt. apply Z.mul_lt_mono_pos_r; lia.
    + rewrite binary_round_negative.
      symmetry. apply Z.ltb_ge. apply Z.mul_le_mono_nonneg_r; lia.
Qed.

End Doubles.

(* ================================================================== *)
(** * What [Number] and [brlToNumber] return is a double *)
(* ================================================================== *)

Section ParsedNumbers.

Local Open Scope Z_scope.

Lemma shr_fexp_emin : forall m e l,
  emin b64_prec b64_emax <= snd (shr_fexp b64_prec b64_emax m e l).
Proof.
  intros m e l. unfold shr_fexp, shr.
  set (f := fexp b64_prec b64_emax (Zdigits2 m + e)).
  assert (Hf : emin b64_prec b64_emax <= f) by (unfold f, fexp; lia).
  destruct (f - e) as [|n|n] eqn:En; simpl snd; lia.
Qed.

Lemma binary_round_aux_wellFormed : forall s m e l,
  wellFormed (binary_round_aux b64_prec b64_emax s m e l).
Proof.
  intros s m e l. unfold binary_round_aux.
  destruct (shr_fexp b64_prec b64_emax m e l) as [mrs' e'].
  pose proof (shr_fexp_emin
                (round_nearest_even (shr_m mrs') (loc_of_shr_record mrs'))
                e' loc_Exact) as H.
  destruct (shr_fexp b64_prec b64_emax _ e' loc_Exact) as [mrs'' e''].
  simpl snd in H.
  destruct (shr_m mrs'') as [|q|q]; try exact I.
  destruct (e'' <=? b64_emax - b64_prec); [|exact I].
  simpl. exact H.
Qed.

Lemma binary_normalize_wellFormed : forall m e s,
  wellFormed (binary_normalize b64_prec b64_emax m e s).
Proof.
  intros m e s. unfold binary_normalize, binary_round.
  destruct m as [|p|p]; [exact I| |];
    destruct (shl_align _ _ _) as [mz ez];
    apply binary_round_aux_wellFormed.
Qed.

Lemma round_ratio_wellFormed : forall neg a b,
  wellFormed (round_ratio neg a b).
Proof.
  intros neg a b. unfold round_ratio.
  destruct (a =? 0); [exact I|]. apply binary_normalize_wellFormed.
Qed.

Lemma ofDecimal_wellFormed : forall neg s e10,
  wellFormed (ofDecimal neg s e10).
Proof.
  intros neg s e10. unfold ofDecimal.
  destruct (0 <=? e10); apply round_ratio_wellFormed.
Qed.

Lemma parseExponent_wellFormed : forall neg mant e10 r n,
  parseExponent neg mant e10 r = Some n -> wellFormed n.
Proof.
  intros neg mant e10 r n H. unfold parseExponent in H.
  destruct r as [|c r1].
  - injection H as <-. apply ofDecimal_wellFormed.
  - destruct ((c =? 101)%N || (c =? 69)%N); [|discriminate].
    destruct (match r1 with
              | 43%N :: t => (1, t)
              | 45%N :: t => (-1, t)
              | _ => (1, r1)
              end) as [sgn r2].
    destruct (takeDigits 10 r2 0 0) as [[ex cnt] [|c' r3]]; [|discriminate].
    destruct (cnt =? 0); [discriminate|].
    injection H as <-. apply ofDecimal_wellFormed.
Qed.

Lemma parseUnsignedDecimal_wellFormed : forall neg s n,
  parseUnsignedDecimal neg s = Some n -> wellFormed n.
Proof.
  intros neg s n H. unfold parseUnsignedDecimal in H.
  destruct (jseqb s (js "Infinity")).
  - injection H as <-. exact I.
  - destruct (takeDigits 10 s 0 0) as [[i ci] r1].
    destruct r1 as [|c r2].
    + destruct (ci =? 0); [discriminate|].
      now apply parseExponent_wellFormed in H.
    + destruct c as [|p].
      * destruct (ci =? 0); [discriminate|].
        now apply parseExponent_wellFormed in H.
      * destruct (Pos.eq_dec p 46) as [->|Hp].
        -- destruct (takeDigits 10 r2 i 0) as [[mant cf] r3].
           destruct (ci + cf =? 0); [discriminate|].
           now apply parseExponent_wellFormed in H.
        -- revert H.
           do 6 (destruct p as [p|p|]; try contradiction;
                 try (intros H; destruct (ci =? 0); [discriminate|];
                      now apply parseExponent_wellFormed in H)).
Qed.

Lemma parseNonDecimal_wellFormed : forall s n,
  parseNonDecimal s = Some n -> wellFormed n.
Proof.
  intros s n H. unfold parseNonDecimal in H.
  destruct s as [|c0 [|c r]]; try discriminate.
  - destruct c0 as [|p]; [discriminate|].
    do 6 (destruct p as [p|p|]; try discriminate).
  - destruct c0 as [|p]; [discriminate|].
    do 6 (destruct p as [p|p|]; try discriminate).
    destruct (if ((c =? 120)%N || (c =? 88)%N) then Some 16
              else if ((c =? 111)%N || (c =? 79)%N) then Some 8
              else if ((c =? 98)%N || (c =? 66)%N) then Some 2
              else None) as [b|]; [|discriminate].
    destruct (takeDigits b r 0 0) as [[v cnt] [|c' r']]; [|discriminate].
    destruct (cnt =? 0); [discriminate|].
    injection H as <-. apply round_ratio_wellFormed.
Qed.

Lemma StringToNumber_wellFormed : forall s, wellFormed (StringToNumber s).
Proof.
  intros s. unfold StringToNumber.
  destruct (trim s) as [|c t]; [exact I|].
  destruct (parseNonDecimal (c :: t)) as [n|] eqn:E.
  - now apply parseNonDecimal_wellFormed in E.
  - set (r := match c :: t with
              | 43%N :: u => parseUnsignedDecimal false u
              | 45%N :: u => parseUnsignedDecimal true u
              | _ => parseUnsignedDecimal false (c :: t)
              end).
    assert (Hr : forall n, r = Some n -> wellFormed n).
    { intros n Hn. unfold r in Hn.
      destruct c as [|p];
        [now apply parseUnsignedDecimal_wellFormed in Hn|].
      do 6 (destruct p as [p|p|];
            try (now apply parseUnsignedDecimal_wellFormed in Hn)). }
    destruct r as [n|]; [now apply Hr|exact I].
Qed.

Lemma brlToNumber_wellFormed : forall v n,
  wellFormedCell v -> Sync.brlToNumber v = Some n -> wellFormed n.
Proof.
  intros v n Hv H.
  assert (G : forall s,
            (if negb (truthy (VStr s)) then None
             else let n0 := StringToNumber
                              (Sync.commasToDots
                                 (Sync.stripDots (Sync.stripCurrency s))) in
                  if isFinite n0 then Some n0 else None) = Some n ->
            wellFormed n).
  { intros s Hs. destruct (negb (truthy (VStr s))); [discriminate|].
    cbv zeta in Hs. destruct (isFinite _); [|discriminate].
    injection Hs as <-. apply StringToNumber_wellFormed. }
  destruct v as [| |b|m|s|o]; simpl in H; try discriminate.
  - now apply G in H.
  - injection H as <-. exact Hv.
  - now apply G in H.
  - now apply G in H.
Qed.

End ParsedNumbers.

(* ================================================================== *)
(** * The stable sort *)
(* ================================================================== *)

Lemma extLtb_irrefl : forall a, extLtb a a = false.
Proof. intros [|z|]; simpl; try reflexivity. apply Z.ltb_irrefl. Qed.

Lemma extLtb_asym : forall a b, extLtb a b = true -> extLtb b a = false.
Proof.
  intros [|x|] [|y|]; simpl; try reflexivity; try discriminate.
  intros H. apply Z.ltb_lt in H. apply Z.ltb_ge. lia.
Qed.

Lemma extLtb_false_trans : forall a b c,
  extLtb a b = false -> extLtb b c = false -> extLtb a c = false.
Proof.
  intros [|x|] [|y|] [|z|]; simpl; try reflexivity; try discriminate.
  intros H1 H2. apply Z.ltb_ge in H1, H2. apply Z.ltb_ge. lia.
Qed.

Lemma extEqb_eq : forall a b, extEqb a b = true <-> a = b.
Proof.
  intros [|x|] [|y|]; simpl; split; try reflexivity; try discriminate.
  - intros H. apply Z.eqb_eq in H. now subst.
  - intros H. injection H as ->. apply Z.eqb_refl.
Qed.

Section StableSort.

Variable A : Type.
Variable comparefn : A -> A -> number.

Lemma insertSorted_perm : forall x l,
  Permutation (insertSorted comparefn x l) (x :: l).
Proof.
  intros x. induction l as [|y t IH]; [reflexivity|].
  simpl. destruct (isPositive (comparefn x y)); [|reflexivity].
  rewrite IH. apply perm_swap.
Qed.

Lemma sort_perm : forall l, Permutation (sort comparefn l) l.
Proof.
  induction l as [|x t IH]; [reflexivity|].
  simpl. rewrite insertSorted_perm. now constructor.
Qed.

Lemma In_sort : forall l x, In x (sort comparefn l) <-> In x l.
Proof.
  intros l x. split; apply Permutation_in;
    [apply sort_perm|symmetry; apply sort_perm].
Qed.

(** The comparator puts [x] after [y] exactly when the key of [x] is
    below the key of [y], on the elements that satisfy [P]. *)
Variable key : A -> ext.
Variable P : A -> Prop.
Hypothesis comparefn_key : forall x y, P x -> P y ->
  isPositive (comparefn x y) = extLtb (key x) (key y).

Lemma insertSorted_sorted : forall x l,
  P x -> Forall P l -> StronglySorted (keyNotBelow key) l ->
  StronglySorted (keyNotBelow key) (insertSorted comparefn x l).
Proof.
  intros x l Px. induction l as [|y t IH]; intros Pl Hs.
  - simpl. constructor; constructor.
  - inversion Pl as [|? ? Py Pt]; subst.
    inversion Hs as [|? ? Hst Hy]; subst.
    simpl. rewrite (comparefn_key Px Py).
    destruct (extLtb (key x) (key y)) eqn:E.
    + constructor; [now apply IH|].
      apply Forall_forall. intros z Hz.
      apply (Permutation_in _ (insertSorted_perm x t)) in Hz.
      destruct Hz as [<-|Hz].
      * unfold keyNotBelow. now apply extLtb_asym.
      * rewrite Forall_forall in Hy. now apply Hy.
    + constructor; [assumption|].
      constructor; [exact E|].
      apply Forall_forall. intros z Hz.
      rewrite Forall_forall in Hy. unfold keyNotBelow.
      apply extLtb_false_trans with (key y); [exact E|now apply Hy].
Qed.

Lemma sort_Forall : forall l, Forall P l -> Forall P (sort comparefn l).
Proof.
  intros l H. apply Forall_forall. intros x Hx.
  rewrite Forall_forall in H. apply H. now apply In_sort.
Qed.

Lemma sort_sorted : forall l,
  Forall P l -> StronglySorted (keyNotBelow key) (sort comparefn l).
Proof.
  induction l as [|x t IH]; intros H; [constructor|].
  inversion H; subst. simpl.
  apply insertSorted_sorted; [assumption|now apply sort_Forall|now apply IH].
Qed.

Lemma insertSorted_stable : forall v x l,
  P x -> Forall P l ->
  filter (fun a => extEqb (key a) v) (insertSorted comparefn x l)
  = filter (fun a => extEqb (key a) v) (x :: l).
Proof.
  intros v x l Px. induction l as [|y t IH]; intros Pl; [reflexivity|].
  inversion Pl as [|? ? Py Pt]; subst.
  simpl insertSorted. rewrite (comparefn_key Px Py).
  destruct (extLtb (key x) (key y)) eqn:E; [|reflexivity].
  cbn [filter]. rewrite IH by assumption. cbn [filter].
  destruct (extEqb (key x) v) eqn:Ex; [|reflexivity].
  destruct (extEqb (key y) v) eqn:Ey; [|reflexivity].
  apply extEqb_eq in Ex, Ey. rewrite Ex, Ey in E.
  rewrite extLtb_irrefl in E. discriminate.
Qed.

Lemma sort_stable : forall v l,
  Forall P l ->
  filter (fun a => extEqb (key a) v) (sort comparefn l)
  = filter (fun a => extEqb (key a) v) l.
Proof.
  intros v. induction l as [|x t IH]; intros H; [reflexivity|].
  inversion H; subst. simpl sort.
  rewrite insertSorted_stable by (assumption || now apply sort_Forall).
  cbn [filter]. rewrite IH by assumption. reflexivity.
Qed.

End StableSort.

Lemma amountOr0_number : forall a,
  wellFormed (Item.amount a) ->
  Sync.amountOr0 a <> S754_nan /\ wellFormed (Sync.amountOr0 a).
Proof.
  intros [d n] H. unfold Sync.amountOr0. simpl in *.
  destruct n as [s|s| |s m e]; simpl; split;
    (discriminate || exact I || assumption).
Qed.

(** [amount || 0] has the exact value of the amount, 0 for [NaN]. *)
Lemma amountOr0_key : forall a,
  exactKey (Sync.amountOr0 a) = exactKey (Item.amount a).
Proof.
  intros [d n]. unfold Sync.amountOr0. cbn [Item.amount].
  destruct n as [s|s| |s m e]; reflexivity.
Qed.

Lemma byAmountDesc_key : forall x y,
  wellFormed (Item.amount x) -> wellFormed (Item.amount y) ->
  isPositive (Sync.byAmountDesc x y) = extLtb (itemKey x) (itemKey y).
Proof.
  intros x y Hx Hy. unfold itemKey.
  rewrite <- (amountOr0_key x), <- (amountOr0_key y).
  unfold Sync.byAmountDesc.
  destruct (amountOr0_number _ Hx) as [Nx Wx].
  destruct (amountOr0_number _ Hy) as [Ny Wy].
  now apply numSub_sign.
Qed.

(** What [saidas.sort(...)] gives, when the amounts are doubles: the same
    items, from the largest amount down, and items of the same amount in
    the order they had. *)
Lemma sort_byAmountDesc : forall l,
  Forall (fun a => wellFormed (Item.amount a)) l ->
  Permutation (sort Sync.byAmountDesc l) l
  /\ StronglySorted notBelow (sort Sync.byAmountDesc l)
  /\ forall v, withAmount v (sort Sync.byAmountDesc l) = withAmount v l.
Proof.
  intros l H. split; [apply sort_perm|]. split.
  - apply (@sort_sorted Item.t Sync.byAmountDesc itemKey
             (fun a => wellFormed (Item.amount a)) byAmountDesc_key).
    assumption.
  - intros v. unfold withAmount.
    apply (@sort_stable Item.t Sync.byAmountDesc itemKey
             (fun a => wellFormed (Item.amount a)) byAmountDesc_key).
    assumption.
Qed.

(* ================================================================== *)
(** * One block, side by side *)
(* ================================================================== *)

Lemma sideItems_valid : forall col row,
  validSide col row ->
  exists n, Sync.brlToNumber (at_ row (col + 2)) = Some n
    /\ Block.sideItems col row = [Item.mk (Block.descAt row col) n].
Proof.
  intros col row (Hd & Hr & _ & Hn).
  destruct (Sync.brlToNumber (at_ row (col + 2))) as [n|] eqn:E;
    [|congruence].
  exists n. split; [reflexivity|].
  rewrite <- sideItems_lineItem. unfold Sync.lineItem. rewrite E.
  apply jseqb_neq in Hr. rewrite Hr.
  destruct (Block.descAt row col); [congruence|reflexivity].
Qed.

Lemma sideItems_blank : forall col row,
  Block.descAt row col = [] -> Block.sideItems col row = [].
Proof.
  intros col row H. unfold Block.sideItems.
  rewrite H. reflexivity.
Qed.

Lemma isTotalRow_false : forall eCol sCol row,
  Sync.normalize (VStr (Block.descAt row eCol)) <> js "total" ->
  Sync.normalize (VStr (Block.descAt row sCol)) <> js "total" ->
  Block.isTotalRow eCol sCol row = false.
Proof.
  intros eCol sCol row H1 H2. unfold Block.isTotalRow.
  apply jseqb_neq in H1, H2. now rewrite H1, H2.
Qed.

Lemma sideItems_wellFormed : forall col row it,
  wellFormedCell (at_ row (col + 2)) ->
  In it (Block.sideItems col row) -> wellFormed (Item.amount it).
Proof.
  intros col row it Hw H. rewrite <- sideItems_lineItem in H.
  unfold Sync.lineItem in H.
  destruct (truthy _ && negb _); [|contradiction].
  destruct (Sync.brlToNumber _) as [n|] eqn:E; [|contradiction].
  destruct H as [<-|[]]. simpl. now apply (brlToNumber_wellFormed _ Hw).
Qed.

(** C3. A block anchored at "Fevereiro", with the inflow label at offset 0
    and the outflow label at offset 4 of the row below, and three rows of
    items (the window ends after them, or a totals row follows) of which
    the second has no inflow description while every other side is valid:
    the detail has the two inflow items of rows 1 and 3 and three outflow
    items; the outflow items are those of the three rows, from the largest
    amount down, and items of the same amount stand in the order of their
    rows. *)
Theorem C3_fevereiro_block : forall rows a r1 r2 r3 rest,
  In a (Sync.findMonthAnchors rows) ->
  Anchor.month a = js "Fevereiro" ->
  Block.firstLabel rows a Block.isEntrada (Anchor.c a + 0) ->
  Block.firstLabel rows a Block.isSaida (Anchor.c a + 4) ->
  Block.window rows a = r1 :: r2 :: r3 :: rest ->
  Block.untilTotal (Anchor.c a + 0) (Anchor.c a + 4) rest = [] ->
  validSide (Anchor.c a + 0) r1 ->
  Block.descAt r2 (Anchor.c a + 0) = [] ->
  validSide (Anchor.c a + 0) r3 ->
  validSide (Anchor.c a + 4) r1 ->
  validSide (Anchor.c a + 4) r2 ->
  validSide (Anchor.c a + 4) r3 ->
  Forall (fun row => wellFormedCell (at_ row (Anchor.c a + 4 + 2)))
    [r1; r2; r3] ->
  exists d,
    Sync.blockDetail rows a = Some d
    /\ Detail.date d = Some (js "2026-02-01")
    /\ Detail.entradas d
       = Block.sideItems (Anchor.c a + 0) r1
           ++ Block.sideItems (Anchor.c a + 0) r3
    /\ length (Detail.entradas d) = 2
    /\ length (Detail.saidas d) = 3
    /\ Permutation (Detail.saidas d)
         (flat_map (Block.sideItems (Anchor.c a + 4)) [r1; r2; r3])
    /\ StronglySorted notBelow (Detail.saidas d)
    /\ forall v,
         withAmount v (Detail.saidas d)
         = withAmount v
             (flat_map (Block.sideItems (Anchor.c a + 4)) [r1; r2; r3]).
Proof.
  intros rows a r1 r2 r3 rest Ha Hm He Hs Hr Hrest E1 E2 E3 S1 S2 S3 Hw.
  assert (Hc : Sync.blockColumns rows a
               = Some (Anchor.c a + 0, Anchor.c a + 4)).
  { destruct (blockColumns_anchor _ _ Ha) as (e' & s' & Hc).
    destruct (blockColumns_first _ _ Hc) as [He' Hs'].
    rewrite Hc. f_equal. f_equal.
    - apply (firstLabel_unique He' He).
    - apply (firstLabel_unique Hs' Hs). }
  rewrite <- blockRows_window in Hr. clear He Hs.
  set (e := Anchor.c a + 0) in *. set (s := Anchor.c a + 4) in *.
  assert (T : Block.untilTotal e s (r1 :: r2 :: r3 :: rest) = [r1; r2; r3]).
  { cbn [Block.untilTotal].
    rewrite !isTotalRow_false, Hrest; try reflexivity;
      try (apply E1 || apply E3 || apply S1 || apply S2 || apply S3).
    rewrite E2. vm_compute. discriminate. }
  set (outs := flat_map (Block.sideItems s) [r1; r2; r3]).
  assert (W : Forall (fun it => wellFormed (Item.amount it)) outs).
  { apply Forall_forall. intros it Hit. unfold outs in Hit.
    apply in_flat_map in Hit. destruct Hit as [row [Hrow Hit]].
    rewrite Forall_forall in Hw.
    apply (@sideItems_wellFormed s row it (Hw _ Hrow) Hit). }
  destruct (sort_byAmountDesc W) as (Hp & Hs & Hst).
  destruct (sideItems_valid E1) as (n1 & _ & I1).
  destruct (sideItems_valid E3) as (n3 & _ & I3).
  destruct (sideItems_valid S1) as (m1 & _ & O1).
  destruct (sideItems_valid S2) as (m2 & _ & O2).
  destruct (sideItems_valid S3) as (m3 & _ & O3).
  assert (L : length outs = 3).
  { unfold outs. cbn [flat_map]. rewrite O1, O2, O3. reflexivity. }
  eexists. split.
  { unfold Sync.blockDetail. rewrite Hc, Hr, scanBlock_untilTotal, T.
    reflexivity. }
  cbn [Detail.date Detail.entradas Detail.saidas]. fold outs.
  split; [rewrite Hm; vm_compute; reflexivity|].
  split.
  { cbn [flat_map]. rewrite (@sideItems_blank _ _ E2), app_nil_r. reflexivity. }
  split.
  { cbn [flat_map]. rewrite (@sideItems_blank _ _ E2), I1, I3. reflexivity. }
  split; [rewrite (Permutation_length Hp); exact L|].
  split; [exact Hp|]. split; [exact Hs|exact Hst].
Qed.



Lemma C3_fevereiro_block_witness :
  exists d,
    Sync.blockDetail Fixture.fevereiro Fixture.fevereiroAnchor = Some d
    /\ Detail.date d = Some (js "2026-02-01")
    /\ Detail.entradas d
       = [Item.mk (js "Salário") (numZ 3000); Item.mk (js "Freela") (numZ 800)]
    /\ length (Detail.entradas d) = 2
    /\ length (Detail.saidas d) = 3
    /\ Permutation (Detail.saidas d)
         [Item.mk (js "Aluguel") (numZ 1200);
          Item.mk (js "Mercado") (numZ 1500);
          Item.mk (js "Luz") (numZ 1200)]
    /\ StronglySorted notBelow (Detail.saidas d)
    /\ (forall v,
          withAmount v (Detail.saidas d)
          = withAmount v
              [Item.mk (js "Aluguel") (numZ 1200);
               Item.mk (js "Mercado") (numZ 1500);
               Item.mk (js "Luz") (numZ 1200)])
    /\ Detail.saidas d
       = [Item.mk (js "Mercado") (numZ 1500);
          Item.mk (js "Aluguel") (numZ 1200);
          Item.mk (js "Luz") (numZ 1200)].
Proof.
  destruct (@C3_fevereiro_block Fixture.fevereiro Fixture.fevereiroAnchor
              (nth 2 Fixture.fevereiro []) (nth 3 Fixture.fevereiro [])
              (nth 4 Fixture.fevereiro []) [])
    as (d & Hd & H1 & H2 & H3 & H4 & H5 & H6 & H7).
  - vm_compute. left. reflexivity.
  - reflexivity.
  - unfold Block.firstLabel. cbn [Anchor.c Fixture.fevereiroAnchor].
    split; [lia|]. split; [apply Nat.ltb_lt; vm_compute; reflexivity|].
    split; [vm_compute; reflexivity|]. intros j Hj. lia.
  - unfold Block.firstLabel. cbn [Anchor.c Fixture.fevereiroAnchor].
    split; [lia|]. split; [apply Nat.ltb_lt; vm_compute; reflexivity|].
    split; [vm_compute; reflexivity|]. intros j Hj.
    destruct j as [|[|[|[|j]]]]; [vm_compute; reflexivity..|lia].
  - vm_compute. reflexivity.
  - reflexivity.
  - repeat split; vm_compute; discriminate.
  - vm_compute. reflexivity.
  - repeat split; vm_compute; discriminate.
  - repeat split; vm_compute; discriminate.
  - repeat split; vm_compute; discriminate.
  - repeat split; vm_compute; discriminate.
  - repeat constructor; vm_compute; discriminate.
  - exists d. pose proof Hd as E. vm_compute in E. injection E as E.
    split; [exact Hd|]. split; [exact H1|]. split; [exact H2|].
    split; [exact H3|]. split; [exact H4|]. split; [exact H5|].
    split; [exact H6|]. split; [exact H7|].
    rewrite <- E. vm_compute. reflexivity.
Defined.

(** On the example block: Mercado (1500) first, then Aluguel and Luz
    (1200 each) in the order of their rows. *)
Example fevereiro_detail :
  Details.get (Sync.parseTabela4 Fixture.fevereiro) (js "Fevereiro")
  = Some (Detail.mk (Some (js "2026-02-01"))
            [Item.mk (js "Salário") (numZ 3000);
             Item.mk (js "Freela") (numZ 800)]
            [Item.mk (js "Mercado") (numZ 1500);
             Item.mk (js "Aluguel") (numZ 1200);
             Item.mk (js "Luz") (numZ 1200)]).
Proof. vm_compute. reflexivity. Qed.

(** C6. For an anchor that [findMonthAnchors] collects, the block loop
    finds the columns of the first inflow label and of the first outflow
    label, and visits exactly the rows [a.r + 2] to [a.r + 59] of the
    grid, as far as the grid has them: 58 rows at most, hence no more
    than 60. [entradas] holds the items of the inflow side and [saidas]
    the items of the outflow side of the visited rows before the first
    one on which either description normalizes to "total", and of all
    visited rows when there is no such row. *)
Theorem C6_block_window_and_total : forall rows a,
  In a (Sync.findMonthAnchors rows) ->
  exists eCol sCol d,
    Sync.blockColumns rows a = Some (eCol, sCol)
    /\ Block.firstLabel rows a Block.isEntrada eCol
    /\ Block.firstLabel rows a Block.isSaida sCol
    /\ Sync.blockRows rows a = Block.window rows a
    /\ length (Block.window rows a) <= 60
    /\ (forall i,
          nth_error (Block.window rows a) i
          = if i <? 58 then nth_error rows (Anchor.r a + 2 + i) else None)
    /\ Sync.blockDetail rows a = Some d
    /\ Detail.date d = Sync.isoDateFromMonth (Anchor.month a) (numZ 2026)
    /\ Detail.entradas d
       = flat_map (Block.sideItems eCol)
           (Block.untilTotal eCol sCol (Block.window rows a))
    /\ Detail.saidas d
       = sort Sync.byAmountDesc
           (flat_map (Block.sideItems sCol)
              (Block.untilTotal eCol sCol (Block.window rows a)))
    /\ Permutation (Detail.saidas d)
         (flat_map (Block.sideItems sCol)
            (Block.untilTotal eCol sCol (Block.window rows a)))
    /\ (forall pre t post,
          Block.window rows a = pre ++ t :: post ->
          Block.isTotalRow eCol sCol t = true ->
          (forall row, In row pre -> Block.isTotalRow eCol sCol row = false) ->
          Block.untilTotal eCol sCol (Block.window rows a) = pre)
    /\ ((forall row, In row (Block.window rows a) ->
           Block.isTotalRow eCol sCol row = false) ->
        Block.untilTotal eCol sCol (Block.window rows a)
        = Block.window rows a).
Proof.
  intros rows a H. destruct (blockColumns_anchor _ _ H) as [e [s0 Hc]].
  destruct (blockColumns_first _ _ Hc) as [He Hs].
  exists e, s0.
  exists (Detail.mk (Sync.isoDateFromMonth (Anchor.month a) (numZ 2026))
            (flat_map (Block.sideItems e)
               (Block.untilTotal e s0 (Block.window rows a)))
            (sort Sync.byAmountDesc
               (flat_map (Block.sideItems s0)
                  (Block.untilTotal e s0 (Block.window rows a))))).
  cbn [Detail.date Detail.entradas Detail.saidas].
  split; [assumption|]. split; [assumption|]. split; [assumption|].
  split; [apply blockRows_window|]. split.
  { unfold Block.window. rewrite length_firstn. lia. }
  split; [apply window_nth|]. split.
  { unfold Sync.blockDetail.
    rewrite Hc, scanBlock_untilTotal, blockRows_window. reflexivity. }
  split; [reflexivity|]. split; [reflexivity|]. split; [reflexivity|].
  split; [apply sort_perm|]. split.
  - intros pre t post -> Ht Hpre. now apply untilTotal_prefix.
  - generalize (Block.window rows a). induction l as [|row l IH];
      intros Hall; [reflexivity|].
    cbn [Block.untilTotal]. rewrite (Hall row) by now left.
    rewrite IH; [reflexivity|]. intros r Hr. apply Hall. now right.
Qed.

Lemma C6_block_window_and_total_witness :
  exists d,
    Sync.blockDetail Fixture.twice (Anchor.mk (js "Janeiro") 0 0) = Some d
    /\ Sync.blockRows Fixture.twice (Anchor.mk (js "Janeiro") 0 0)
       = skipn 2 Fixture.twice
    /\ Block.untilTotal 0 4
         (Block.window Fixture.twice (Anchor.mk (js "Janeiro") 0 0))
       = [nth 2 Fixture.twice []]
    /\ Detail.entradas d = [Item.mk (js "Salário") (numZ 100)]
    /\ Detail.saidas d = [Item.mk (js "Luz") (numZ 10)].
Proof.
  destruct (@C6_block_window_and_total Fixture.twice
              (Anchor.mk (js "Janeiro") 0 0))
    as (e & s & d & Hc & _ & _ & Hr & _ & _ & Hd & _ & He & Hs & _
        & Hstop & _).
  - vm_compute. left. reflexivity.
  - vm_compute in Hc. injection Hc as <- <-.
    assert (T : Block.untilTotal 0 4
                  (Block.window Fixture.twice (Anchor.mk (js "Janeiro") 0 0))
                = [nth 2 Fixture.twice []]).
    { apply (Hstop [nth 2 Fixture.twice []] (nth 3 Fixture.twice [])
               (skipn 4 Fixture.twice)).
      - reflexivity.
      - vm_compute. reflexivity.
      - intros row [<-|[]]. vm_compute. reflexivity. }
    exists d. split; [exact Hd|]. split; [rewrite Hr; reflexivity|].
    split; [exact T|]. rewrite He, Hs, T. split; vm_compute; reflexivity.
Defined.

(* ================================================================== *)
(** * detalheMensal *)
(* ================================================================== *)

Lemma assoc_upsert : forall k v l k',
  Details.assoc k' (Details.upsert k v l)
  = if jseqb k k' then Some v else Details.assoc k' l.
Proof.
  intros k v l k'. induction l as [|[k0 v0] rest IH]; simpl.
  - reflexivity.
  - destruct (jseqb k0 k) eqn:E; simpl.
    + apply jseqb_eq in E. subst k0.
      destruct (jseqb k k'); reflexivity.
    + rewrite IH. destruct (jseqb k0 k') eqn:E'; [|reflexivity].
      apply jseqb_eq in E'. subst k0.
      rewrite jseqb_sym, E. reflexivity.
Qed.

Lemma get_set : forall o k v k',
  Details.get (Details.set o k v) k'
  = if jseqb k k' then Some v else Details.get o k'.
Proof.
  intros o k v k'. unfold Details.get, Details.set.
  destruct (jseqb k (js "__proto__")) eqn:Ek;
    destruct (jseqb k' (js "__proto__")) eqn:Ek'; simpl.
  - apply jseqb_eq in Ek, Ek'. subst. now rewrite jseqb_refl.
  - destruct (jseqb k k') eqn:E; [|reflexivity].
    apply jseqb_eq in E. subst. congruence.
  - destruct (jseqb k k') eqn:E; [|reflexivity].
    apply jseqb_eq in E. subst. congruence.
  - apply assoc_upsert.
Qed.

Lemma fold_processAnchor_others : forall rows k l o,
  (forall b, In b l -> Anchor.month b <> k) ->
  Details.get (fold_left (Sync.processAnchor rows) l o) k = Details.get o k.
Proof.
  intros rows k. induction l as [|b l IH]; intros o H; [reflexivity|].
  simpl. rewrite IH by (intros c Hc; apply H; now right).
  unfold Sync.processAnchor. destruct (Sync.blockDetail rows b); [|reflexivity].
  rewrite get_set.
  assert (E : jseqb (Anchor.month b) k = false).
  { apply jseqb_neq. apply H. now left. }
  now rewrite E.
Qed.

Lemma last_occurrence : forall (l : list Anchor.t) k,
  In k (List.map Anchor.month l) ->
  exists pre a post,
    l = pre ++ a :: post /\ Anchor.month a = k
    /\ forall b, In b post -> Anchor.month b <> k.
Proof.
  induction l as [|x t IH]; intros k H; [contradiction|].
  destruct (existsb (fun b => jseqb (Anchor.month b) k) t) eqn:E.
  - apply existsb_exists in E. destruct E as [b [Hb Eb]].
    apply jseqb_eq in Eb.
    destruct (IH k) as (pre & a & post & -> & Ha & Hpost).
    { rewrite <- Eb. now apply in_map. }
    exists (x :: pre), a, post. repeat split; assumption.
  - exists [], x, t. split; [reflexivity|]. split.
    + destruct H as [H|H]; [assumption|].
      apply in_map_iff in H. destruct H as [b [Hb Hin]].
      assert (F : existsb (fun b => jseqb (Anchor.month b) k) t = true).
      { apply existsb_exists. exists b. split; [assumption|].
        now apply jseqb_eq. }
      congruence.
    + intros b Hb Eb.
      assert (F : existsb (fun b => jseqb (Anchor.month b) k) t = true).
      { apply existsb_exists. exists b. split; [assumption|].
        now apply jseqb_eq. }
      congruence.
Qed.

(** C8. Under the text of an anchor, [detalheMensal] holds the detail of
    the last anchor with that text in the order [findMonthAnchors] found
    them: the detail [blockDetail] computes from that anchor alone. The key
    is the text of the cell, trimmed and otherwise as it stands in the
    sheet. *)
Theorem C8_last_anchor_wins : forall rows now k,
  In k (List.map Anchor.month (Sync.findMonthAnchors rows)) ->
  exists pre a post d,
    Sync.findMonthAnchors rows = pre ++ a :: post
    /\ Anchor.month a = k
    /\ k = trim (String_ (at_ (nth (Anchor.r a) rows []) (Anchor.c a)))
    /\ (forall b, In b post -> Anchor.month b <> k)
    /\ Sync.blockDetail rows a = Some d
    /\ Details.get (detalheMensal (Sync.parseRows rows now)) k = Some d.
Proof.
  intros rows now k H.
  destruct (last_occurrence _ _ H) as (pre & a & post & E & Ha & Hpost).
  assert (Hin : In a (Sync.findMonthAnchors rows)).
  { rewrite E. apply in_or_app. right. now left. }
  destruct (blockColumns_anchor _ _ Hin) as (e & s & Hc).
  destruct (Sync.blockDetail rows a) as [d|] eqn:Hd.
  2:{ unfold Sync.blockDetail in Hd. rewrite Hc in Hd.
      destruct (Sync.scanBlock _ _ _); discriminate. }
  exists pre, a, post, d. repeat split; try assumption.
  - rewrite <- Ha. now apply In_findMonthAnchors in Hin.
  - cbn [detalheMensal Sync.parseRows]. unfold Sync.parseTabela4.
    rewrite E, fold_left_app. cbn [fold_left].
    rewrite fold_processAnchor_others by assumption.
    unfold Sync.processAnchor. rewrite Hd, get_set, Ha, jseqb_refl.
    reflexivity.
Qed.

Lemma C8_last_anchor_wins_witness :
  exists pre a post d,
    Sync.findMonthAnchors Fixture.twice = pre ++ a :: post
    /\ Anchor.month a = js "Janeiro"
    /\ js "Janeiro"
       = trim (String_ (at_ (nth (Anchor.r a) Fixture.twice []) (Anchor.c a)))
    /\ (forall b, In b post -> Anchor.month b <> js "Janeiro")
    /\ Sync.blockDetail Fixture.twice a = Some d
    /\ Details.get (detalheMensal (Sync.parseRows Fixture.twice (js "now")))
         (js "Janeiro") = Some d.
Proof.
  apply (@C8_last_anchor_wins Fixture.twice (js "now") (js "Janeiro")).
  vm_compute. left. reflexivity.
Defined.

(** On the grid with two blocks of Janeiro, what is kept is the second
    block, and nothing of the first. *)
Example twice_detail :
  Details.get (Sync.parseTabela4 Fixture.twice) (js "Janeiro")
  = Some (Detail.mk (Some (js "2026-01-01"))
            [Item.mk (js "Bônus") (numZ 200)]
            [Item.mk (js "Água") (numZ 20)]).
Proof. vm_compute. reflexivity. Qed.

(* ================================================================== *)
(** * Tabela2/3 *)
(* ================================================================== *)

(** The lookup [monthMap[k]] is truthy for the thirteen own keys, and for
    the names inherited from [Object.prototype]. *)
Lemma monthMap_truthy : forall k,
  truthy (Sync.monthMap k)
  = recognizedMonth k || truthy (inheritedProperty k).
Proof.
  intros k. unfold Sync.monthMap, recognizedMonth, includes, monthNames.
  cbn [existsb].
  repeat match goal with
         | |- context [jseqb k ?n] =>
             destruct (jseqb k n); [reflexivity|]
         end.
  reflexivity.
Qed.

(** Apart from labels that are inherited names, the inner loop of
    [parseMini] keeps the rows labelled by a month, up to the first row
    labelled "total". *)
Lemma scanMini_months : forall rs,
  (forall row, In row rs -> Mini.inheritedLabel row = false) ->
  Sync.scanMini rs = flat_map Mini.monthPoints (Mini.untilTotal rs).
Proof.
  induction rs as [|row rest IH]; intros H; [reflexivity|].
  assert (Hrow : Mini.inheritedLabel row = false) by (apply H; now left).
  assert (IH' : Sync.scanMini rest
                = flat_map Mini.monthPoints (Mini.untilTotal rest)).
  { apply IH. intros r Hr. apply H. now right. }
  cbn [Sync.scanMini Mini.untilTotal]. cbv zeta.
  unfold Mini.isTotalRow, Mini.inheritedLabel in *.
  fold (Mini.labelAt row).
  destruct (Mini.labelAt row) as [|c m] eqn:El.
  - cbn [truthy negb]. cbv iota.
    replace (jseqb (Sync.normalize (VStr [])) (js "total")) with false
      by (vm_compute; reflexivity).
    cbn [flat_map]. unfold Mini.monthPoints. rewrite El.
    replace (recognizedMonth (Sync.normalize (VStr []))) with false
      by (vm_compute; reflexivity).
    exact IH'.
  - cbn [truthy negb]. cbv iota.
    destruct (jseqb _ (js "total")); [reflexivity|].
    rewrite monthMap_truthy, Hrow, orb_false_r.
    cbn [flat_map]. unfold Mini.monthPoints. rewrite El.
    destruct (recognizedMonth _); cbn [negb app]; now rewrite IH'.
Qed.

Lemma parseMini_window : forall (rows : list (list value)) r,
  length (slice rows (r + 1) (Nat.min (length rows) (r + 40))) <= 39.
Proof. intros rows r. unfold slice. rewrite length_firstn. lia. Qed.

(** C7. Below the title "Nubank", a row whose first cell reads
    "constructor" is not skipped: [monthMap["constructor"]] is the function
    [Object], which is truthy, and a point is pushed whose date is built
    from the text of that function. *)
Theorem C7_inherited_name_is_read :
  recognizedMonth (Sync.normalize (S_ "constructor")) = false
  /\ Sync.parseMini Fixture.mini (js "Nubank")
     = [ Point.mk (js "Janeiro") (Some (js "2026-01-01")) (Some (numZ 150));
         Point.mk (js "constructor")
           (Some (js "2026-function Object() { [native code] }-01"))
           (Some (numZ 5)) ].
Proof. split; vm_compute; reflexivity. Qed.

(* ================================================================== *)
(** * The two copies of the script *)
(* ================================================================== *)

Section TwoCopies.

Lemma stripCurrency_same : forall s,
  Part000.stripCurrency s = Sync.stripCurrency s.
Proof. reflexivity. Qed.

Lemma brlToNumber_same : forall v,
  Part000.brlToNumber v = Sync.brlToNumber v.
Proof. reflexivity. Qed.

Lemma monthMap_same : forall k, Part000.monthMap k = Sync.monthMap k.
Proof.
  intros k. unfold Part000.monthMap, Part000.monthTable, Sync.monthMap.
  cbn [Part000.ownProperty].
  repeat match goal with
         | |- context [jseqb k ?n] =>
             destruct (jseqb k n); [reflexivity|]
         end.
  reflexivity.
Qed.

Lemma isoDateFromMonth_same : forall m y,
  Part000.isoDateFromMonth m y = Sync.isoDateFromMonth m y.
Proof.
  intros m y. unfold Part000.isoDateFromMonth, Sync.isoDateFromMonth.
  cbv zeta. now rewrite monthMap_same.
Qed.

Lemma scanTabela1_same : forall rs,
  Part000.scanTabela1 rs = Sync.scanTabela1 rs.
Proof.
  induction rs as [|row rest IH]; [reflexivity|].
  cbn [Part000.scanTabela1 Sync.scanTabela1]. cbv zeta.
  rewrite IH, monthMap_same. unfold Sync.summaryRow.
  rewrite isoDateFromMonth_same. reflexivity.
Qed.

Lemma scanMini_same : forall rs,
  Part000.scanMini rs = Sync.scanMini rs.
Proof.
  induction rs as [|row rest IH]; [reflexivity|].
  cbn [Part000.scanMini Sync.scanMini]. cbv zeta.
  rewrite IH, monthMap_same. unfold Sync.seriesPoint.
  rewrite isoDateFromMonth_same. reflexivity.
Qed.

Lemma scanBlock_same : forall e s rs,
  Part000.scanBlock e (e + 2) s (s + 2) rs = Sync.scanBlock e s rs.
Proof.
  intros e s. induction rs as [|row rest IH]; [reflexivity|].
  cbn [Part000.scanBlock Sync.scanBlock]. cbv zeta.
  rewrite IH. destruct (jseqb _ _ || jseqb _ _); [reflexivity|].
  destruct (Sync.scanBlock e s rest) as [es ss].
  unfold Sync.lineItem.
  change Part000.brlToNumber with Sync.brlToNumber.
  destruct (truthy _ && negb _);
    [destruct (Sync.brlToNumber (at_ row (e + 2)))|];
    (destruct (truthy _ && negb _);
     [destruct (Sync.brlToNumber (at_ row (s + 2)))|]);
    reflexivity.
Qed.

Variable rows : list (list value).

Lemma parseTabela1_same :
  Part000.parseTabela1 rows = Sync.parseTabela1 rows.
Proof.
  unfold Part000.parseTabela1, Sync.parseTabela1.
  change (Part000.headerRow rows) with (Sync.headerRow rows).
  destruct (Sync.headerRow rows); [apply scanTabela1_same|reflexivity].
Qed.

Lemma parseMini_same : forall title,
  Part000.parseMini rows title = Sync.parseMini rows title.
Proof.
  intros title. unfold Part000.parseMini, Sync.parseMini. cbv zeta.
  change (findIndex _ rows)
    with (findIndex (Sync.hasTitle (toLowerCase title)) rows).
  destruct (findIndex _ rows); [apply scanMini_same|reflexivity].
Qed.

Lemma findMonthAnchors_same :
  Part000.findMonthAnchors rows = Sync.findMonthAnchors rows.
Proof.
  unfold Part000.findMonthAnchors, Sync.findMonthAnchors.
  apply flat_map_ext. intros r. apply flat_map_ext. intros c.
  unfold Sync.anchorAt. cbv zeta. rewrite monthMap_same. reflexivity.
Qed.

Lemma processAnchor_same : forall out a,
  Part000.processAnchor rows out a = Sync.processAnchor rows out a.
Proof.
  intros out a.
  unfold Part000.processAnchor, Sync.processAnchor, Sync.blockDetail,
    Sync.blockColumns, Sync.blockRows, Sync.lowerCells.
  cbv zeta.
  destruct (indexOf _ _) as [eRel|]; [|reflexivity].
  destruct (findIndex _ _) as [sRel|]; [|reflexivity].
  rewrite scanBlock_same.
  destruct (Sync.scanBlock _ _ _) as [es ss].
  rewrite isoDateFromMonth_same. reflexivity.
Qed.

Lemma fold_processAnchor_same : forall l out,
  fold_left (Part000.processAnchor rows) l out
  = fold_left (Sync.processAnchor rows) l out.
Proof.
  induction l as [|a l IH]; intros out; [reflexivity|].
  simpl. now rewrite processAnchor_same, IH.
Qed.

Lemma parseRows_same : forall now,
  Part000.parseRows rows now = Sync.parseRows rows now.
Proof.
  intros now. unfold Part000.parseRows, Sync.parseRows, Sync.parseTabela4.
  cbv zeta.
  now rewrite parseTabela1_same, !parseMini_same, findMonthAnchors_same,
    fold_processAnchor_same.
Qed.

End TwoCopies.

(** C9. On every workbook the two copies of [parseWorkbook] return the same
    year, the same three tables and the same [detalheMensal]; the results
    differ in [updatedAt] only, which is the time of each call. *)
Theorem C9_two_copies_agree :
  forall (sheet : Type) (sheet_to_json : option sheet -> list (list value))
         (now1 now2 : jsstring) (wb : Workbook sheet),
  let a := Sync.parseWorkbook sheet_to_json now1 wb in
  let b := Part000.parseWorkbook sheet_to_json now2 wb in
  b = mkResult (mkMeta (year (meta a)) now2) (dashboard a) (detalheMensal a)
  /\ updatedAt (meta a) = now1.
Proof.
  intros sheet stj now1 now2 wb a b. split; [|reflexivity].
  unfold b, a, Part000.parseWorkbook, Sync.parseWorkbook. cbv zeta.
  rewrite parseRows_same. reflexivity.
Qed.

(* ================================================================== *)
(** * Amounts *)
(* ================================================================== *)

Lemma In_untilTotal : forall e s rs row,
  In row (Block.untilTotal e s rs) -> In row rs.
Proof.
  intros e s. induction rs as [|r rest IH]; intros row H; [contradiction|].
  simpl in H. destruct (Block.isTotalRow e s r); [contradiction|].
  destruct H as [H|H]; [now left|right; now apply IH].
Qed.

Lemma sideItems_amount : forall col row it,
  In it (Block.sideItems col row) ->
  Sync.brlToNumber (at_ row (col + 2)) = Some (Item.amount it).
Proof.
  intros col row it H. rewrite <- sideItems_lineItem in H.
  unfold Sync.lineItem in H.
  destruct (truthy _ && negb _); [|contradiction].
  destruct (Sync.brlToNumber _) as [n|]; [|contradiction].
  destruct H as [<-|[]]. reflexivity.
Qed.

Lemma get_fold_origin : forall rows k d l o,
  Details.get (fold_left (Sync.processAnchor rows) l o) k = Some d ->
  Details.get o k = Some d
  \/ exists a, In a l /\ Sync.blockDetail rows a = Some d.
Proof.
  intros rows k d. induction l as [|a l IH]; intros o H; [now left|].
  simpl in H. apply IH in H. destruct H as [H|[b [Hb Hd]]].
  - unfold Sync.processAnchor in H.
    destruct (Sync.blockDetail rows a) as [d'|] eqn:E; [|now left].
    rewrite get_set in H. destruct (jseqb (Anchor.month a) k).
    + injection H as <-. right. exists a. split; [now left|assumption].
    + now left.
  - right. exists b. split; [now right|assumption].
Qed.

Lemma detail_items_origin : forall rows a d it,
  Sync.blockDetail rows a = Some d ->
  In it (Detail.entradas d ++ Detail.saidas d) ->
  exists row col, In row rows
    /\ Sync.brlToNumber (at_ row col) = Some (Item.amount it).
Proof.
  intros rows a d it Hd Hit. unfold Sync.blockDetail in Hd.
  destruct (Sync.blockColumns rows a) as [[e s]|]; [|discriminate].
  rewrite scanBlock_untilTotal in Hd. injection Hd as <-.
  cbn [Detail.entradas Detail.saidas] in Hit.
  apply in_app_or in Hit.
  assert (G : forall col,
            In it (flat_map (Block.sideItems col)
                     (Block.untilTotal e s (Sync.blockRows rows a))) ->
            exists row col0, In row rows
              /\ Sync.brlToNumber (at_ row col0) = Some (Item.amount it)).
  { intros col H. apply in_flat_map in H. destruct H as [row [Hrow H]].
    exists row, (col + 2). split.
    - apply In_untilTotal in Hrow. unfold Sync.blockRows in Hrow.
      now apply In_slice in Hrow.
    - now apply sideItems_amount. }
  destruct Hit as [H|H]; [now apply (G e)|].
  apply In_sort in H. now apply (G s).
Qed.

(** C10. [brlToNumber] hands a number back as it is, before
    [Number.isFinite] is asked: also [NaN] and the infinities. The amount
    of every item of [detalheMensal] is a number that [brlToNumber] read
    from a cell, never [null]; and a cell that holds [NaN] or [Infinity]
    gives an item with that amount. *)
Theorem C10_numbers_pass_through :
  (forall n, Sync.brlToNumber (VNum n) = Some n
             /\ Part000.brlToNumber (VNum n) = Some n)
  /\ (exists n, isFinite n = false /\ Sync.brlToNumber (VNum n) = Some n)
  /\ (forall rows k d it,
        Details.get (Sync.parseTabela4 rows) k = Some d ->
        In it (Detail.entradas d ++ Detail.saidas d) ->
        exists row col, In row rows
          /\ Sync.brlToNumber (at_ row col) = Some (Item.amount it))
  /\ Details.get (Sync.parseTabela4 Fixture.notFinite) (js "Maio")
     = Some (Detail.mk (Some (js "2026-05-01"))
               [Item.mk (js "Ajuste") NaN]
               [Item.mk (js "Multa") (S754_infinity false)]).
Proof.
  split; [intros n; split; reflexivity|].
  split; [exists NaN; split; reflexivity|].
  split; [|vm_compute; reflexivity].
  intros rows k d it Hget Hit. unfold Sync.parseTabela4 in Hget.
  apply get_fold_origin in Hget. destruct Hget as [H|[a [_ Hd]]].
  - unfold Details.get, Details.empty in H.
    cbn [Details.proto Details.props Details.assoc] in H.
    destruct (jseqb k (js "__proto__")); discriminate H.
  - now apply (@detail_items_origin rows a d it Hd).
Qed.

Lemma C10_numbers_pass_through_witness :
  exists row col, In row Fixture.notFinite
    /\ Sync.brlToNumber (at_ row col) = Some NaN.
Proof.
  apply (proj1 (proj2 (proj2 C10_numbers_pass_through))
           Fixture.notFinite (js "Maio")
           (Detail.mk (Some (js "2026-05-01"))
              [Item.mk (js "Ajuste") NaN]
              [Item.mk (js "Multa") (S754_infinity false)])
           (Item.mk (js "Ajuste") NaN)).
  - vm_compute. reflexivity.
  - left. reflexivity.
Defined.

(* ================================================================== *)
(** * Download *)
(* ================================================================== *)

Lemma startsWith_refl : forall p, startsWith p p = true.
Proof.
  induction p as [|x p IH]; [reflexivity|].
  simpl. now rewrite N.eqb_refl.
Qed.

Lemma startsWith_nonempty : forall s p,
  p <> [] -> startsWith s p = true -> s <> [].
Proof. intros [|c s] [|x p] H1 H2; congruence || discriminate. Qed.

Lemma hasDownload_app : forall u v,
  Sync.hasDownload v = true -> Sync.hasDownload (u ++ v) = true.
Proof.
  induction u as [|c u IH]; intros v H; [exact H|].
  simpl. rewrite (IH v H). apply orb_true_r.
Qed.

Lemma hasDownload_withDownload : forall u,
  Sync.hasDownload (Sync.withDownload u) = true.
Proof.
  intros u. unfold Sync.withDownload. cbv zeta.
  destruct (Sync.hasDownload u) eqn:E; [exact E|].
  apply hasDownload_app.
  destruct (strIncludes u (js "?")); vm_compute; reflexivity.
Qed.

(** X1. [withDownload] marks every URL with [download=1] after a [?] or a
    [&], leaves a URL that is marked as it is, and so changes nothing when
    applied twice; what it adds is [?download=1] when the URL has no [?]
    and [&download=1] when it has one. *)
Theorem withDownload_marks_once : forall u,
  Sync.hasDownload (Sync.withDownload u) = true
  /\ Sync.withDownload (Sync.withDownload u) = Sync.withDownload u
  /\ (Sync.hasDownload u = true -> Sync.withDownload u = u)
  /\ (Sync.hasDownload u = false ->
      Sync.withDownload u
      = u ++ (if strIncludes u (js "?") then js "&download=1"
              else js "?download=1")).
Proof.
  intros u. split; [apply hasDownload_withDownload|]. split; [|split].
  - unfold Sync.withDownload at 1. cbv zeta.
    now rewrite hasDownload_withDownload.
  - intros H. unfold Sync.withDownload. now rewrite H.
  - intros H. unfold Sync.withDownload. rewrite H. cbv zeta.
    destruct (strIncludes u (js "?")); reflexivity.
Qed.

Section FetchLoop.

Variable network : nat -> Request.t -> Promise Response.t.

Lemma contentType_or_empty : forall c,
  String_ (orElse (VStr c) (VStr [])) = c.
Proof. intros [|x c]; reflexivity. Qed.

Lemma forAttempts_cons : forall cu attempt rest lastErr w,
  Sync.forAttempts network cu (attempt :: rest) lastErr w
  = let p := Download.asked network (length (requests w)) cu in
    match Download.good p with
    | Some ab =>
        (inl ab,
         mkWorld (requests w ++ [Download.request cu]) (sleeps w))
    | None =>
        Sync.forAttempts network cu rest (Download.nextErr attempt p lastErr)
          (mkWorld (requests w ++ [Download.request cu])
             (sleeps w ++ Download.waitAfter attempt p))
    end.
Proof.
  intros cu attempt rest lastErr w. cbn [Sync.forAttempts]. unfold fetch.
  cbv zeta. unfold Download.asked. fold (Download.request cu).
  destruct (network (length (requests w)) (Download.request cu))
    as [res|e].
  - unfold Download.good, Download.nextErr, Download.waitAfter,
      Download.is403, Download.failure, Download.isHtml, sleep.
    destruct res as [ok st txt ct ab]. cbn [Response.ok Response.status
      Response.statusText Response.contentType Response.arrayBuffer].
    destruct ok; cbn [negb andb].
    + destruct ct as [c|].
      * rewrite contentType_or_empty.
        destruct (strIncludes c (js "text/html")); cbn [negb].
        -- now rewrite app_nil_r.
        -- destruct ab as [b|e]; [reflexivity|now rewrite app_nil_r].
      * replace (strIncludes [] (js "text/html")) with false
          by (vm_compute; reflexivity).
        destruct ab as [b|e]; [reflexivity|now rewrite app_nil_r].
    + destruct ((st =? 403)%N && (attempt <? 3)%N);
        cbn [requests sleeps]; [reflexivity|now rewrite app_nil_r].
  - unfold Download.good, Download.nextErr, Download.waitAfter,
      Download.is403, Download.failure. cbn [andb]. now rewrite app_nil_r.
Qed.

Lemma forAttempts_spec : forall cu todo lastErr w,
  Sync.forAttempts network cu todo lastErr w
  = match Download.firstGood (Download.asked network)
            (repeat cu (length todo)) (length (requests w)) with
    | Some (k, ab) =>
        (inl ab,
         mkWorld
           (requests w ++ List.map Download.request (repeat cu (S k)))
           (sleeps w
            ++ Download.waits (Download.asked network) cu (firstn k todo)
                 (length (requests w))))
    | None =>
        (inr (Download.errAfter (Download.asked network) cu todo
                (length (requests w)) lastErr),
         mkWorld
           (requests w
            ++ List.map Download.request (repeat cu (length todo)))
           (sleeps w
            ++ Download.waits (Download.asked network) cu todo
                 (length (requests w))))
    end.
Proof.
  intros cu. induction todo as [|attempt rest IH]; intros lastErr w.
  - simpl. rewrite !app_nil_r. now destruct w.
  - rewrite forAttempts_cons. cbv zeta.
    cbn [length repeat Download.firstGood].
    destruct (Download.good
                (Download.asked network (length (requests w)) cu))
      as [ab|].
    + cbn [firstn Download.waits repeat List.map]. now rewrite app_nil_r.
    + rewrite IH. cbn [requests sleeps].
      rewrite length_app, Nat.add_1_r.
      destruct (Download.firstGood (Download.asked network)
                  (repeat cu (length rest))
                  (S (length (requests w)))) as [[k ab]|].
      * cbn [firstn Download.waits repeat List.map].
        rewrite <- !app_assoc. reflexivity.
      * cbn [Download.errAfter Download.waits repeat List.map].
        rewrite <- !app_assoc. reflexivity.
Qed.

Lemma firstGood_app : forall answers l1 l2 n,
  Download.firstGood answers (l1 ++ l2) n
  = match Download.firstGood answers l1 n with
    | Some r => Some r
    | None =>
        match Download.firstGood answers l2 (n + length l1) with
        | Some (k, ab) => Some (length l1 + k, ab)
        | None => None
        end
    end.
Proof.
  intros answers. induction l1 as [|cu l1 IH]; intros l2 n.
  - simpl. rewrite Nat.add_0_r.
    now destruct (Download.firstGood answers l2 n) as [[k ab]|].
  - cbn [app Download.firstGood length].
    destruct (Download.good (answers n cu)); [reflexivity|].
    rewrite IH.
    destruct (Download.firstGood answers l1 (S n)) as [[k ab]|];
      [reflexivity|].
    replace (n + S (length l1)) with (S n + length l1) by lia.
    now destruct (Download.firstGood answers l2 (S n + length l1))
      as [[k ab]|].
Qed.

(** The whole of [fetchArrayBuffer], from any state of the world. *)
Lemma fetchArrayBuffer_spec : forall u w,
  let n := length (requests w) in
  let wd := Sync.withDownload u in
  let answers := Download.asked network in
  Sync.fetchArrayBuffer network u w
  = match Download.firstGood answers (Download.schedule u) n with
    | Some (k, ab) =>
        (Fulfilled ab,
         mkWorld
           (requests w
            ++ List.map Download.request
                 (firstn (S k) (Download.schedule u)))
           (sleeps w
            ++ Download.waits answers u (firstn k [1; 2; 3]%N) n
            ++ Download.waits answers wd (firstn (k - 3) [1; 2; 3]%N)
                 (n + 3)))
    | None =>
        (Rejected (Download.failure (answers (n + 5) wd)),
         mkWorld
           (requests w ++ List.map Download.request (Download.schedule u))
           (sleeps w
            ++ Download.waits answers u [1; 2; 3]%N n
            ++ Download.waits answers wd [1; 2; 3]%N (n + 3)))
    end.
Proof.
  intros u w n wd answers. unfold Sync.fetchArrayBuffer. cbv zeta.
  cbn [Sync.forCandidates]. fold wd.
  change (Download.schedule u) with (repeat u 3 ++ repeat wd 3).
  rewrite firstGood_app. rewrite forAttempts_spec.
  change (length [1%N; 2%N; 3%N]) with 3. fold n. fold answers.
  change (length (repeat u 3)) with 3.
  destruct (Download.firstGood answers (repeat u 3) n) as [[k ab]|] eqn:E1.
  - assert (Hk : k < 3).
    { revert E1. cbn [repeat Download.firstGood].
      repeat match goal with
             | |- context [Download.good ?p] => destruct (Download.good p)
             end; intros E; inversion E; lia. }
    replace (k - 3) with 0 by lia. cbn [firstn Download.waits].
    rewrite app_nil_r. f_equal. f_equal.
    destruct k as [|[|[|k]]]; try lia; reflexivity.
  - rewrite forAttempts_spec. cbn [requests sleeps].
    rewrite length_app, length_map.
    change (length (repeat u 3)) with 3. fold n. fold answers.
    change (length [1%N; 2%N; 3%N]) with 3.
    destruct (Download.firstGood answers (repeat wd 3) (n + 3))
      as [[k ab]|] eqn:E2.
    + assert (Hk : k < 3).
      { revert E2. cbn [repeat Download.firstGood].
        repeat match goal with
               | |- context [Download.good ?p] => destruct (Download.good p)
               end; intros E; inversion E; lia. }
      replace (3 + k - 3) with k by lia.
      rewrite <- !app_assoc. f_equal. f_equal.
      * f_equal. destruct k as [|[|[|k]]]; try lia; reflexivity.
      * f_equal. f_equal.
        destruct k as [|[|[|k]]]; try lia; reflexivity.
    + rewrite <- !app_assoc.
      cbn [Download.errAfter]. unfold Download.nextErr at 1.
      replace (3 <? 3)%N with false by reflexivity.
      rewrite andb_false_r.
      replace (S (S (n + 3))) with (n + 5) by lia. reflexivity.
Qed.

Lemma firstGood_intro : forall answers sched n k ab,
  k < length sched ->
  Download.good (answers (n + k) (nth k sched [])) = Some ab ->
  (forall j, j < k ->
     Download.good (answers (n + j) (nth j sched [])) = None) ->
  Download.firstGood answers sched n = Some (k, ab).
Proof.
  intros answers.
  induction sched as [|cu rest IH]; intros n k ab Hk Hg Hb;
    [simpl in Hk; lia|].
  cbn [Download.firstGood]. destruct k as [|k].
  - rewrite Nat.add_0_r in Hg. cbn [nth] in Hg. now rewrite Hg.
  - pose proof (Hb 0 ltac:(lia)) as H0.
    rewrite Nat.add_0_r in H0. cbn [nth] in H0. rewrite H0.
    rewrite (IH (S n) k ab); [reflexivity|simpl in Hk; lia| |].
    + replace (S n + k) with (n + S k) by lia. exact Hg.
    + intros j Hj. replace (S n + j) with (n + S j) by lia.
      apply (Hb (S j)). lia.
Qed.

Lemma firstGood_none_intro : forall answers sched n,
  (forall j, j < length sched ->
     Download.good (answers (n + j) (nth j sched [])) = None) ->
  Download.firstGood answers sched n = None.
Proof.
  intros answers.
  induction sched as [|cu rest IH]; intros n Hb; [reflexivity|].
  cbn [Download.firstGood].
  pose proof (Hb 0 ltac:(simpl; lia)) as H0.
  rewrite Nat.add_0_r in H0. cbn [nth] in H0. rewrite H0.
  rewrite IH; [reflexivity|].
  intros j Hj. replace (S n + j) with (n + S j) by lia.
  apply (Hb (S j)). simpl. lia.
Qed.

Lemma firstGood_found : forall answers sched n k ab,
  Download.firstGood answers sched n = Some (k, ab) ->
  k < length sched
  /\ Download.good (answers (n + k) (nth k sched [])) = Some ab
  /\ forall j, j < k ->
       Download.good (answers (n + j) (nth j sched [])) = None.
Proof.
  intros answers.
  induction sched as [|cu rest IH]; intros n k ab H; [discriminate|].
  cbn [Download.firstGood] in H.
  destruct (Download.good (answers n cu)) as [b|] eqn:E.
  - injection H as <- <-. rewrite Nat.add_0_r. cbn [nth length].
    split; [lia|]. split; [exact E|]. intros j Hj. lia.
  - destruct (Download.firstGood answers rest (S n)) as [[k' b]|] eqn:F;
      [|discriminate].
    injection H as <- <-. destruct (IH _ _ _ F) as (Hk & Hg & Hb).
    cbn [length nth]. split; [lia|]. split.
    + replace (n + S k') with (S n + k') by lia. exact Hg.
    + intros j Hj. destruct j as [|j].
      * rewrite Nat.add_0_r. exact E.
      * replace (n + S j) with (S n + j) by lia. apply Hb. lia.
Qed.

Lemma firstGood_none : forall answers sched n,
  Download.firstGood answers sched n = None ->
  forall j, j < length sched ->
    Download.good (answers (n + j) (nth j sched [])) = None.
Proof.
  intros answers.
  induction sched as [|cu rest IH]; intros n H j Hj; [simpl in Hj; lia|].
  cbn [Download.firstGood] in H.
  destruct (Download.good (answers n cu)) as [b|] eqn:E; [discriminate|].
  destruct (Download.firstGood answers rest (S n)) as [[k' b]|] eqn:F;
    [discriminate|].
  destruct j as [|j].
  - rewrite Nat.add_0_r. exact E.
  - replace (n + S j) with (S n + j) by lia. cbn [nth].
    apply (IH _ F). simpl in Hj. lia.
Qed.

(** X2. [fetchArrayBuffer] returns the bytes of the first usable answer
    (ok, not HTML, body read), the URL being requested up to three times
    and then the URL with [download=1] up to three times, each time with
    the headers of a browser; once an answer is usable no further request
    is made. *)
Theorem fetchArrayBuffer_first_usable : forall u w k ab,
  k < 6 ->
  Download.good
    (network (length (requests w) + k)
       (Download.request (nth k (Download.schedule u) [])))
  = Some ab ->
  (forall j, j < k ->
     Download.good
       (network (length (requests w) + j)
          (Download.request (nth j (Download.schedule u) [])))
     = None) ->
  fst (Sync.fetchArrayBuffer network u w) = Fulfilled ab
  /\ requests (snd (Sync.fetchArrayBuffer network u w))
     = requests w
       ++ List.map Download.request (firstn (S k) (Download.schedule u)).
Proof.
  intros u w k ab Hk Hg Hb. rewrite fetchArrayBuffer_spec. cbv zeta.
  rewrite (@firstGood_intro (Download.asked network) (Download.schedule u)
             (length (requests w)) k ab); try assumption.
  split; reflexivity.
Qed.

(** X3. When none of the six answers is usable, [fetchArrayBuffer] has
    made exactly the six requests and rejects with the error of the sixth
    answer, whatever the errors before it were. *)
Theorem fetchArrayBuffer_six_failures : forall u w,
  (forall j, j < 6 ->
     Download.good
       (network (length (requests w) + j)
          (Download.request (nth j (Download.schedule u) [])))
     = None) ->
  fst (Sync.fetchArrayBuffer network u w)
  = Rejected
      (Download.failure
         (network (length (requests w) + 5)
            (Download.request (Sync.withDownload u))))
  /\ requests (snd (Sync.fetchArrayBuffer network u w))
     = requests w ++ List.map Download.request (Download.schedule u).
Proof.
  intros u w Hb. rewrite fetchArrayBuffer_spec. cbv zeta.
  rewrite (@firstGood_none_intro (Download.asked network)) by exact Hb.
  split; reflexivity.
Qed.

Lemma total_app : forall a b,
  Download.total (a ++ b) = (Download.total a + Download.total b)%N.
Proof.
  induction a as [|x a IH]; intros b; [reflexivity|].
  simpl. rewrite IH. lia.
Qed.

Lemma waitAfter_pause : forall p,
  Download.waitAfter 1 p = Download.pause 0 p
  /\ Download.waitAfter 2 p = Download.pause 1 p
  /\ Download.waitAfter 3 p = Download.pause 2 p
  /\ Download.waitAfter 1 p = Download.pause 3 p
  /\ Download.waitAfter 2 p = Download.pause 4 p
  /\ Download.waitAfter 3 p = Download.pause 5 p.
Proof.
  intros p. unfold Download.waitAfter, Download.pause.
  destruct (Download.is403 p); repeat split; reflexivity.
Qed.

Lemma pause_bound : forall j p,
  (Download.total (Download.pause j p)
   <= Download.total (Download.pause j (Fulfilled Download.refusal)))%N.
Proof.
  intros j p. unfold Download.pause.
  replace (Download.is403 (Fulfilled Download.refusal)) with true
    by reflexivity.
  destruct (Download.is403 p); [apply N.le_refl|].
  destruct (j mod 3) as [|[|r]]; apply N.leb_le; reflexivity.
Qed.

(** X4. After the answer to each request that was not usable,
    [fetchArrayBuffer] waits 1200 ms when the answer was a 403 at the
    first attempt on a URL, 2400 ms when it was a 403 at the second
    attempt, and not at all otherwise; it waits at no other time. With
    [m] the number of answers that were not usable before the run ended,
    the timeouts are those after these [m] answers, in order, and add up
    to 7200 ms at most. *)
Theorem fetchArrayBuffer_waits : forall u w,
  exists m,
    m <= 6
    /\ (forall j, j < m ->
          Download.good (Download.answer network u w j) = None)
    /\ (m < 6 -> Download.good (Download.answer network u w m) <> None)
    /\ sleeps (snd (Sync.fetchArrayBuffer network u w))
       = sleeps w
         ++ flat_map
              (fun j => Download.pause j (Download.answer network u w j))
              (seq 0 m)
    /\ (Download.total
          (flat_map
             (fun j => Download.pause j (Download.answer network u w j))
             (seq 0 m)) <= 7200)%N.
Proof.
  intros u w.
  assert (B : forall m, m <= 6 ->
            (Download.total
               (flat_map
                  (fun j =>
                     Download.pause j (Download.answer network u w j))
                  (seq 0 m)) <= 7200)%N).
  { intros m Hm.
    assert (G : forall k s,
              (Download.total
                 (flat_map
                    (fun j =>
                       Download.pause j (Download.answer network u w j))
                    (seq s k))
               <= Download.total
                    (flat_map
                       (fun j =>
                          Download.pause j (Fulfilled Download.refusal))
                       (seq s k)))%N).
    { induction k as [|k IH]; intros s; [apply N.le_refl|].
      cbn [seq flat_map]. rewrite !total_app.
      apply N.add_le_mono; [apply pause_bound|apply IH]. }
    eapply N.le_trans; [apply G|].
    do 7 (destruct m as [|m]; [apply N.leb_le; reflexivity|]). lia. }
  pose proof (fetchArrayBuffer_spec u w) as Hspec. cbv zeta in Hspec.
  destruct (Download.firstGood (Download.asked network)
              (Download.schedule u) (length (requests w)))
    as [[k ab]|] eqn:E.
  - destruct (firstGood_found _ _ _ E) as (Hk & Hg & Hb).
    change (length (Download.schedule u)) with 6 in Hk.
    exists k. split; [lia|]. split; [exact Hb|]. split.
    { intros _. unfold Download.answer. fold (Download.asked network
        (length (requests w) + k) (nth k (Download.schedule u) [])).
      rewrite Hg. discriminate. }
    split; [|apply B; lia].
    rewrite Hspec. cbn [snd sleeps]. f_equal. unfold Download.answer.
    destruct (waitAfter_pause
                (network (length (requests w) + 0) (Download.request u)))
      as (P0 & _).
    destruct (waitAfter_pause
                (network (length (requests w) + 1) (Download.request u)))
      as (_ & P1 & _).
    destruct (waitAfter_pause
                (network (length (requests w) + 2) (Download.request u)))
      as (_ & _ & P2 & _).
    destruct (waitAfter_pause
                (network (length (requests w) + 3)
                   (Download.request (Sync.withDownload u))))
      as (_ & _ & _ & P3 & _).
    destruct (waitAfter_pause
                (network (length (requests w) + 4)
                   (Download.request (Sync.withDownload u))))
      as (_ & _ & _ & _ & P4 & _).
    do 6 (destruct k as [|k];
          [cbn [firstn Nat.sub Download.waits seq flat_map nth
                Download.schedule app];
           unfold Download.asked;
           rewrite ?Nat.add_0_r in *;
           rewrite ?Nat.add_1_r in *;
           replace (S (S (length (requests w) + 3)))
             with (length (requests w) + 5) by lia;
           replace (S (length (requests w) + 3))
             with (length (requests w) + 4) by lia;
           replace (S (S (length (requests w))))
             with (length (requests w) + 2) by lia;
           rewrite ?P0, ?P1, ?P2, ?P3, ?P4, ?app_nil_r, <- ?app_assoc;
           reflexivity|]).
    lia.
  - pose proof (firstGood_none _ _ _ E) as Hb.
    change (length (Download.schedule u)) with 6 in Hb.
    exists 6. split; [lia|]. split; [exact Hb|]. split; [lia|].
    split; [|apply B; lia].
    rewrite Hspec. cbn [snd sleeps]. f_equal. unfold Download.answer.
    destruct (waitAfter_pause
                (network (length (requests w) + 0) (Download.request u)))
      as (P0 & _).
    destruct (waitAfter_pause
                (network (length (requests w) + 1) (Download.request u)))
      as (_ & P1 & _).
    destruct (waitAfter_pause
                (network (length (requests w) + 2) (Download.request u)))
      as (_ & _ & P2 & _).
    destruct (waitAfter_pause
                (network (length (requests w) + 3)
                   (Download.request (Sync.withDownload u))))
      as (_ & _ & _ & P3 & _).
    destruct (waitAfter_pause
                (network (length (requests w) + 4)
                   (Download.request (Sync.withDownload u))))
      as (_ & _ & _ & _ & P4 & _).
    destruct (waitAfter_pause
                (network (length (requests w) + 5)
                   (Download.request (Sync.withDownload u))))
      as (_ & _ & _ & _ & _ & P5).
    cbn [Download.waits seq flat_map nth Download.schedule app].
    unfold Download.asked.
    rewrite ?Nat.add_0_r in *. rewrite ?Nat.add_1_r in *.
    replace (S (S (length (requests w) + 3)))
      with (length (requests w) + 5) by lia.
    replace (S (length (requests w) + 3))
      with (length (requests w) + 4) by lia.
    replace (S (S (length (requests w))))
      with (length (requests w) + 2) by lia.
    rewrite ?P0, ?P1, ?P2, ?P3, ?P4, ?P5, ?app_nil_r, <- ?app_assoc.
    reflexivity.
Qed.

(** X5. Against a server whose answer to the first request is the same
    with and without the headers of a browser: whenever the copy without
    retries downloads, the copy with retries returns the same bytes after
    a single request for the same URL, without waiting. The two requests
    differ in their headers only. *)
Theorem fetchArrayBuffer_extends_single_fetch : forall u w ab w1,
  network (length (requests w)) (Download.request u)
  = network (length (requests w)) (Download.plainRequest u) ->
  Part000.fetchArrayBuffer network u w = (Fulfilled ab, w1) ->
  Sync.fetchArrayBuffer network u w
  = (Fulfilled ab, mkWorld (requests w ++ [Download.request u]) (sleeps w))
  /\ w1 = mkWorld (requests w ++ [Download.plainRequest u]) (sleeps w)
  /\ Request.url (Download.request u) = Request.url (Download.plainRequest u)
  /\ Request.redirect (Download.request u)
     = Request.redirect (Download.plainRequest u).
Proof.
  intros u w ab w1 Hsame H.
  assert (G : Download.good
                (network (length (requests w)) (Download.plainRequest u))
              = Some ab
              /\ w1 = mkWorld (requests w ++ [Download.plainRequest u])
                        (sleeps w)).
  { unfold Part000.fetchArrayBuffer, fetch in H. cbv zeta in H.
    fold (Download.plainRequest u) in H.
    unfold Download.good, Download.isHtml.
    destruct (network (length (requests w)) (Download.plainRequest u))
      as [res|e]; [|discriminate H].
    destruct res as [ok st txt ct b].
    cbn [Response.ok Response.status Response.statusText
         Response.contentType Response.arrayBuffer] in *.
    destruct ok; cbn [negb andb] in *; [|discriminate H].
    destruct ct as [c|].
    - rewrite contentType_or_empty in H.
      destruct (strIncludes c (js "text/html")); [discriminate H|].
      cbn [negb]. injection H as -> <-. split; reflexivity.
    - replace (strIncludes [] (js "text/html")) with false in H
        by (vm_compute; reflexivity).
      injection H as -> <-. split; reflexivity. }
  destruct G as [Hg ->]. rewrite <- Hsame in Hg.
  split; [|repeat split].
  rewrite fetchArrayBuffer_spec. cbv zeta.
  cbn [Download.schedule Download.firstGood]. unfold Download.asked at 1.
  rewrite Hg.
  cbn [firstn Nat.sub Download.waits List.map]. now rewrite !app_nil_r.
Qed.

End FetchLoop.

Lemma fetchArrayBuffer_first_usable_witness :
  fst (Sync.fetchArrayBuffer Scenario.thirdTime Scenario.url Scenario.start)
  = Fulfilled Scenario.bytes
  /\ requests
       (snd (Sync.fetchArrayBuffer Scenario.thirdTime Scenario.url
               Scenario.start))
     = [Download.request Scenario.url; Download.request Scenario.url;
        Download.request Scenario.url].
Proof.
  apply (@fetchArrayBuffer_first_usable Scenario.thirdTime Scenario.url
           Scenario.start 2 Scenario.bytes).
  - lia.
  - reflexivity.
  - intros j Hj. destruct j as [|[|j]]; [reflexivity|reflexivity|lia].
Defined.

Lemma fetchArrayBuffer_six_failures_witness :
  fst (Sync.fetchArrayBuffer Scenario.viewer Scenario.url Scenario.start)
  = Rejected (Download.failure (Fulfilled Scenario.loginPage))
  /\ requests
       (snd (Sync.fetchArrayBuffer Scenario.viewer Scenario.url
               Scenario.start))
     = List.map Download.request (Download.schedule Scenario.url).
Proof.
  apply (@fetchArrayBuffer_six_failures Scenario.viewer Scenario.url
           Scenario.start).
  intros j Hj. reflexivity.
Defined.

Lemma fetchArrayBuffer_waits_witness :
  sleeps
    (snd (Sync.fetchArrayBuffer Scenario.thirdTime Scenario.url
            Scenario.start))
  = [1200; 2400]%N.
Proof.
  destruct (@fetchArrayBuffer_waits Scenario.thirdTime Scenario.url
              Scenario.start) as (m & _ & Hfail & Hgood & Hs & _).
  destruct m as [|[|[|m]]].
  - exfalso. apply Hgood; [lia|reflexivity].
  - exfalso. apply Hgood; [lia|reflexivity].
  - rewrite Hs. reflexivity.
  - specialize (Hfail 2 ltac:(lia)). discriminate Hfail.
Defined.

Lemma fetchArrayBuffer_extends_single_fetch_witness :
  Sync.fetchArrayBuffer Scenario.direct Scenario.url Scenario.start
  = (Fulfilled Scenario.bytes,
     mkWorld [Download.request Scenario.url] [])
  /\ mkWorld [Download.plainRequest Scenario.url] []
     = mkWorld [Download.plainRequest Scenario.url] []
  /\ Request.url (Download.request Scenario.url)
     = Request.url (Download.plainRequest Scenario.url)
  /\ Request.redirect (Download.request Scenario.url)
     = Request.redirect (Download.plainRequest Scenario.url).
Proof.
  apply (@fetchArrayBuffer_extends_single_fetch Scenario.direct
           Scenario.url Scenario.start Scenario.bytes
           (mkWorld [Download.plainRequest Scenario.url] [])).
  - reflexivity.
  - reflexivity.
Defined.

(** A server that answers by the headers tells the two copies apart: the
    copy without headers is refused where the script downloads. *)
Example headers_can_matter :
  fst (Part000.fetchArrayBuffer Scenario.picky Scenario.url Scenario.start)
  = Rejected (js "Falha ao baixar XLSX: 403 Forbidden")
  /\ fst (Sync.fetchArrayBuffer Scenario.picky Scenario.url Scenario.start)
     = Fulfilled Scenario.bytes.
Proof. split; vm_compute; reflexivity. Qed.

(* ================================================================== *)
(** * brlToNumber on text *)
(* ================================================================== *)

Section CurrencyText.

Import Currency.

Lemma isDigit_cases : forall c,
  isDigit c = true ->
  In c [48; 49; 50; 51; 52; 53; 54; 55; 56; 57]%N.
Proof.
  intros c H. unfold isDigit in H. apply andb_true_iff in H.
  destruct H as [H1 H2]. apply N.leb_le in H1, H2. cbn [In]. lia.
Qed.

Lemma digit_plain : forall c,
  isDigit c = true ->
  isWhiteSpace c = false /\ (c =? 82)%N = false /\ (c =? 46)%N = false
  /\ (c =? 44)%N = false
  /\ digitVal 10 c = Some (Z.of_N c - 48)%Z.
Proof.
  intros c H. apply isDigit_cases in H. cbn [In] in H.
  repeat (destruct H as [<-|H]; [repeat split; reflexivity|]).
  contradiction.
Qed.

Lemma trimStart_head : forall c t,
  isWhiteSpace c = false -> trimStart (c :: t) = c :: t.
Proof. intros c t H. simpl. now rewrite H. Qed.

Lemma trimEnd_last : forall a z,
  isWhiteSpace z = false -> trimEnd (a ++ [z]) = a ++ [z].
Proof.
  intros a z H. unfold trimEnd. rewrite rev_app_distr. cbn [rev app].
  rewrite trimStart_head by assumption.
  cbn [rev]. now rewrite rev_involutive.
Qed.

(** Text that neither starts nor ends with white space is its own trim. *)
Lemma trim_fixed : forall c t a z,
  c :: t = a ++ [z] -> isWhiteSpace c = false -> isWhiteSpace z = false ->
  trim (c :: t) = c :: t.
Proof.
  intros c t a z E Hc Hz. unfold trim.
  rewrite trimStart_head by assumption. rewrite E.
  now apply trimEnd_last.
Qed.

Lemma stripCurrency_noR : forall s,
  forallb (fun c => negb (c =? 82)%N) s = true -> Sync.stripCurrency s = s.
Proof.
  induction s as [|c t IH]; intros H; [reflexivity|].
  cbn [forallb] in H. apply andb_true_iff in H. destruct H as [Hc Ht].
  apply negb_true_iff in Hc.
  destruct t as [|d u]; [reflexivity|].
  change (Sync.stripCurrency (c :: d :: u))
    with (if ((c =? 82) && (d =? 36))%N
          then match u with
               | w :: x => if isWhiteSpace w then Sync.stripCurrency x
                           else Sync.stripCurrency u
               | [] => []
               end
          else c :: Sync.stripCurrency (d :: u)).
  rewrite Hc. cbn [andb]. now rewrite IH.
Qed.

Lemma takeDigits_digits : forall ds rest acc cnt,
  forallb isDigit ds = true ->
  takeDigits 10 (ds ++ rest) acc cnt
  = takeDigits 10 rest
      (fold_left (fun a c => a * 10 + (Z.of_N c - 48))%Z ds acc)
      (cnt + Z.of_nat (length ds))%Z.
Proof.
  induction ds as [|c ds IH]; intros rest acc cnt H.
  - cbn [app fold_left length]. now rewrite Z.add_0_r.
  - cbn [forallb] in H. apply andb_true_iff in H. destruct H as [Hc Hd].
    destruct (digit_plain c Hc) as (_ & _ & _ & _ & Hv).
    cbn [app takeDigits]. rewrite Hv, IH by assumption.
    cbn [fold_left length]. f_equal. lia.
Qed.

Lemma takeDigits_stop : forall c rest acc cnt,
  digitVal 10 c = None ->
  takeDigits 10 (c :: rest) acc cnt = (acc, cnt, c :: rest).
Proof. intros c rest acc cnt H. cbn [takeDigits]. now rewrite H. Qed.

End CurrencyText.

Section CurrencyNumber.

Import Currency.

Lemma parseNonDecimal_digits : forall c0 rest,
  isDigit c0 = true ->
  match rest with
  | [] => True
  | c :: _ => isDigitOrDot c = true
  end ->
  parseNonDecimal (c0 :: rest) = None.
Proof.
  intros c0 rest H0 Hr. apply isDigit_cases in H0. cbn [In] in H0.
  repeat (destruct H0 as [<-|H0]; [try reflexivity|]); [|contradiction].
  destruct rest as [|c r]; [reflexivity|].
  unfold isDigitOrDot in Hr. apply orb_true_iff in Hr.
  assert (E : forall k, (k <? 48)%N = false -> (57 <? k)%N = true ->
                        (c =? k)%N = false).
  { intros k H1 H2. apply N.eqb_neq. intros ->.
    destruct Hr as [Hr|Hr].
    - unfold isDigit in Hr. apply andb_true_iff in Hr.
      destruct Hr as [_ Hr]. apply N.leb_le in Hr.
      apply N.ltb_lt in H2. lia.
    - apply N.eqb_eq in Hr. subst k. discriminate H1. }
  unfold parseNonDecimal.
  rewrite !E by reflexivity. reflexivity.
Qed.

Lemma sign_of_digit : forall (A B : jsstring -> option number) C c0 rest,
  isDigit c0 = true ->
  match c0 :: rest with
  | 43%N :: u => A u
  | 45%N :: u => B u
  | _ => C
  end = C.
Proof.
  intros A B C c0 rest H0. apply isDigit_cases in H0. cbn [In] in H0.
  repeat (destruct H0 as [<-|H0]; [reflexivity|]). contradiction.
Qed.

Lemma not_Infinity : forall c0 rest,
  isDigit c0 = true -> jseqb (c0 :: rest) (js "Infinity") = false.
Proof.
  intros c0 rest H0. apply isDigit_cases in H0. cbn [In] in H0.
  repeat (destruct H0 as [<-|H0]; [reflexivity|]). contradiction.
Qed.

Lemma last_of_digits : forall d ds,
  forallb isDigit (d :: ds) = true ->
  exists a z, d :: ds = a ++ [z] /\ isDigit z = true.
Proof.
  intros d ds H.
  destruct (exists_last (l := d :: ds) ltac:(discriminate)) as (a & z & E).
  exists a, z. split; [exact E|].
  rewrite E, forallb_app in H. apply andb_true_iff in H.
  destruct H as [_ H]. cbn [forallb] in H. now rewrite andb_true_r in H.
Qed.

(** [Number] on digits with an optional point and more digits. *)
Lemma StringToNumber_decimal : forall D frac,
  D <> [] ->
  forallb isDigit D = true ->
  forallb isDigit (cents frac) = true ->
  StringToNumber (D ++ pointPart frac)
  = ofDecimal false (digitsValue (D ++ cents frac))
      (- Z.of_nat (length (cents frac))).
Proof.
  intros D frac HD Hd Hf. destruct D as [|c0 D']; [congruence|].
  assert (H0 : isDigit c0 = true).
  { cbn [forallb] in Hd. now apply andb_true_iff in Hd. }
  assert (Hlen : (0 < Z.of_nat (length (c0 :: D')))%Z) by (simpl; lia).
  assert (T : trim ((c0 :: D') ++ pointPart frac)
              = (c0 :: D') ++ pointPart frac).
  { cbn [app].
    assert (L : exists a z, c0 :: D' ++ pointPart frac = a ++ [z]
                            /\ isWhiteSpace z = false).
    { destruct frac as [fs|]; cbn [pointPart].
      - destruct fs as [|f fs].
        + exists (c0 :: D'), 46%N. split; reflexivity.
        + destruct (last_of_digits f fs Hf) as (a & z & E & Hz).
          exists (c0 :: D' ++ 46%N :: a), z. split.
          * rewrite E. cbn [app]. now rewrite <- !app_assoc.
          * now apply digit_plain in Hz.
      - destruct (last_of_digits c0 D' Hd) as (a & z & E & Hz).
        exists a, z. split; [now rewrite app_nil_r|].
        now apply digit_plain in Hz. }
    destruct L as (a & z & E & Hz).
    apply (@trim_fixed _ _ _ _ E); [now apply digit_plain in H0|exact Hz]. }
  unfold StringToNumber. rewrite T. cbn [app].
  rewrite parseNonDecimal_digits; [|exact H0|].
  2:{ destruct D' as [|d D''].
      - destruct frac as [fs|]; cbn [app pointPart]; [reflexivity|exact I].
      - cbn [app]. cbn [forallb] in Hd.
        apply andb_true_iff in Hd. destruct Hd as [_ Hd].
        apply andb_true_iff in Hd. destruct Hd as [Hd _].
        unfold isDigitOrDot. now rewrite Hd. }
  rewrite sign_of_digit by exact H0.
  unfold parseUnsignedDecimal. rewrite not_Infinity by exact H0.
  change (c0 :: D' ++ pointPart frac) with ((c0 :: D') ++ pointPart frac).
  rewrite takeDigits_digits by exact Hd.
  set (v := fold_left (fun a c => (a * 10 + (Z.of_N c - 48))%Z)
              (c0 :: D') 0%Z).
  destruct frac as [fs|]; cbn [pointPart cents] in *.
  - rewrite takeDigits_stop by reflexivity. cbv beta iota zeta.
    rewrite <- (app_nil_r fs) at 1.
    rewrite takeDigits_digits by exact Hf. cbn [takeDigits].
    replace ((0 + Z.of_nat (length (c0 :: D'))
              + (0 + Z.of_nat (length fs)) =? 0)%Z) with false
      by (symmetry; apply Z.eqb_neq; lia).
    cbn [parseExponent]. unfold digitsValue, v.
    change (c0 :: D' ++ fs) with ((c0 :: D') ++ fs).
    rewrite fold_left_app, Z.add_0_l. reflexivity.
  - cbn [takeDigits]. cbv beta iota zeta.
    replace ((0 + Z.of_nat (length (c0 :: D')) =? 0)%Z) with false
      by (symmetry; apply Z.eqb_neq; lia).
    cbn [parseExponent]. unfold digitsValue, v.
    change (c0 :: D' ++ []) with ((c0 :: D') ++ []).
    rewrite app_nil_r. reflexivity.
Qed.


Lemma digitOrDot_plain : forall c,
  isDigitOrDot c = true ->
  isWhiteSpace c = false /\ (c =? 82)%N = false /\ (c =? 44)%N = false.
Proof.
  intros c H. unfold isDigitOrDot in H. apply orb_true_iff in H.
  destruct H as [H|H].
  - destruct (digit_plain c H) as (A & B & _ & C & _). auto.
  - apply N.eqb_eq in H. subst c. repeat split; reflexivity.
Qed.

Lemma stripDots_digits : forall ip,
  forallb isDigitOrDot ip = true ->
  forallb isDigit (Sync.stripDots ip) = true.
Proof.
  induction ip as [|c ip IH]; intros H; [reflexivity|].
  cbn [forallb] in H. apply andb_true_iff in H. destruct H as [Hc Hi].
  unfold Sync.stripDots in *. cbn [filter].
  destruct (c =? 46)%N eqn:E; cbn [negb]; [now apply IH|].
  cbn [forallb]. rewrite IH by assumption.
  unfold isDigitOrDot in Hc. rewrite E, orb_false_r in Hc. now rewrite Hc.
Qed.

Lemma stripDots_fixed : forall ds,
  forallb isDigit ds = true -> Sync.stripDots ds = ds.
Proof.
  induction ds as [|c ds IH]; intros H; [reflexivity|].
  cbn [forallb] in H. apply andb_true_iff in H. destruct H as [Hc Hd].
  destruct (digit_plain c Hc) as (_ & _ & E & _).
  unfold Sync.stripDots in *. cbn [filter]. rewrite E. cbn [negb].
  now rewrite IH.
Qed.

Lemma commasToDots_fixed : forall ds,
  forallb isDigit ds = true -> Sync.commasToDots ds = ds.
Proof.
  induction ds as [|c ds IH]; intros H; [reflexivity|].
  cbn [forallb] in H. apply andb_true_iff in H. destruct H as [Hc Hd].
  destruct (digit_plain c Hc) as (_ & _ & _ & E & _).
  unfold Sync.commasToDots in *. cbn [List.map]. rewrite E.
  now rewrite IH.
Qed.

Lemma stripCurrency_marker : forall u,
  Sync.stripCurrency (82%N :: 36%N :: u)
  = match u with
    | w :: x => if isWhiteSpace w then Sync.stripCurrency x
                else Sync.stripCurrency u
    | [] => []
    end.
Proof. reflexivity. Qed.

(** X6. Text in the Brazilian format is read as the number it writes:
    digits with dots as thousands separators, optionally a comma and the
    digits of the fraction, optionally "R$" or "R$ " in front. The dots are
    dropped, the comma is the decimal point, and the result is the nearest
    double, [null] if that is not finite. *)
Theorem brlToNumber_brazilian_format : forall pre ip frac,
  pre = [] \/ pre = js "R$" \/ pre = js "R$ " ->
  forallb isDigitOrDot ip = true ->
  Sync.stripDots ip <> [] ->
  forallb isDigit (cents frac) = true ->
  Sync.brlToNumber (VStr (pre ++ ip ++ commaPart frac))
  = finiteOrNull
      (ofDecimal false (digitsValue (Sync.stripDots ip ++ cents frac))
         (- Z.of_nat (length (cents frac)))).
Proof.
  intros pre ip frac Hpre Hip HD Hf.
  set (body := ip ++ commaPart frac).
  destruct ip as [|i0 ip']; [now contradiction HD|].
  assert (Hi0 : isDigitOrDot i0 = true).
  { cbn [forallb] in Hip. now apply andb_true_iff in Hip. }
  assert (Hbody : forallb (fun c => negb (c =? 82)%N) body = true).
  { unfold body. rewrite forallb_app. apply andb_true_iff. split.
    - apply forallb_forall. intros c Hc.
      rewrite forallb_forall in Hip.
      destruct (digitOrDot_plain c (Hip c Hc)) as (_ & E & _).
      now rewrite E.
    - destruct frac as [fs|]; [|reflexivity]. cbn [commaPart forallb].
      apply forallb_forall. intros c Hc. cbn [cents] in Hf.
      rewrite forallb_forall in Hf.
      destruct (digit_plain c (Hf c Hc)) as (_ & E & _). now rewrite E. }
  assert (Hlast : exists a z, body = a ++ [z] /\ isWhiteSpace z = false).
  { unfold body. destruct frac as [fs|]; cbn [commaPart].
    - destruct fs as [|f fs].
      + exists (i0 :: ip'), 44%N. split; reflexivity.
      + destruct (last_of_digits f fs Hf) as (a & z & E & Hz).
        exists ((i0 :: ip') ++ 44%N :: a), z. split.
        * rewrite E. now rewrite <- app_assoc.
        * now apply digit_plain in Hz.
    - destruct (exists_last (l := i0 :: ip') ltac:(discriminate))
        as (a & z & E).
      exists a, z. split; [now rewrite app_nil_r|].
      rewrite E, forallb_app in Hip. apply andb_true_iff in Hip.
      destruct Hip as [_ Hz]. cbn [forallb] in Hz.
      rewrite andb_true_r in Hz. now apply digitOrDot_plain in Hz. }
  destruct Hlast as (a & z & Ebody & Hz).
  assert (Hhead : exists c t, pre ++ body = c :: t
                              /\ isWhiteSpace c = false).
  { destruct Hpre as [->|[->| ->]].
    - exists i0, (ip' ++ commaPart frac). split; [reflexivity|].
      now apply digitOrDot_plain in Hi0.
    - eexists _, _. split; reflexivity.
    - eexists _, _. split; reflexivity. }
  destruct Hhead as (c & t & Ehead & Hc).
  assert (T : trim (pre ++ body) = pre ++ body).
  { rewrite Ehead.
    apply (@trim_fixed c t (pre ++ a) z); try assumption.
    rewrite <- Ehead, Ebody. now rewrite app_assoc. }
  assert (SC : Sync.stripCurrency (pre ++ body) = body).
  { destruct Hpre as [->|[->| ->]].
    - now apply stripCurrency_noR.
    - change (js "R$" ++ body) with (82%N :: 36%N :: body).
      rewrite stripCurrency_marker. unfold body at 1. cbn [app].
      destruct (digitOrDot_plain i0 Hi0) as (W & _). rewrite W.
      now apply stripCurrency_noR.
    - change (js "R$ " ++ body) with (82%N :: 36%N :: 32%N :: body).
      rewrite stripCurrency_marker.
      replace (isWhiteSpace 32) with true by reflexivity.
      now apply stripCurrency_noR. }
  unfold Sync.brlToNumber. cbn [String_]. fold body. rewrite T.
  rewrite Ehead at 1. cbn [truthy negb]. cbv zeta. rewrite SC.
  assert (SD : Sync.stripDots body
               = Sync.stripDots (i0 :: ip') ++ commaPart frac).
  { unfold body, Sync.stripDots. rewrite filter_app. f_equal.
    destruct frac as [fs|]; [|reflexivity]. cbn [commaPart filter].
    replace (negb (44 =? 46)%N) with true by reflexivity.
    f_equal. now apply stripDots_fixed. }
  rewrite SD.
  assert (CD : Sync.commasToDots
                 (Sync.stripDots (i0 :: ip') ++ commaPart frac)
               = Sync.stripDots (i0 :: ip') ++ pointPart frac).
  { unfold Sync.commasToDots. rewrite map_app. f_equal.
    - apply commasToDots_fixed. now apply stripDots_digits.
    - destruct frac as [fs|]; [|reflexivity]. cbn [commaPart List.map].
      replace (44 =? 44)%N with true by reflexivity. cbn [pointPart].
      f_equal. now apply commasToDots_fixed. }
  rewrite CD.
  rewrite StringToNumber_decimal;
    [reflexivity|exact HD|now apply stripDots_digits|exact Hf].
Qed.

Lemma brlToNumber_brazilian_format_witness :
  Sync.brlToNumber (S_ "R$ 1.234,56") = Some (ofDecimal false 123456 (-2)).
Proof.
  apply (@brlToNumber_brazilian_format (js "R$ ") (js "1.234")
           (Some (js "56"))).
  - right. right. reflexivity.
  - reflexivity.
  - vm_compute. discriminate.
  - reflexivity.
Defined.

(** A point is never a decimal point: text written as 1234.56 is read as
    123456. *)
Example point_is_not_decimal :
  Sync.brlToNumber (S_ "1234.56") = Some (numZ 123456).
Proof. vm_compute. reflexivity. Qed.

End CurrencyNumber.

Section CurrencyEdges.

(** X7. What [brlToNumber] returns for a cell that is not a number is
    finite: it is what [Number] makes of the trimmed text, which is not
    blank, after the cleaning. Only a number is handed back unchecked. *)
Theorem brlToNumber_text_is_finite : forall v n,
  Sync.brlToNumber v = Some n ->
  v = VNum n
  \/ (isFinite n = true
      /\ trim (String_ v) <> []
      /\ n = StringToNumber
               (Sync.commasToDots
                  (Sync.stripDots (Sync.stripCurrency (trim (String_ v)))))).
Proof.
  intros v n H.
  assert (G : forall s,
            (if negb (truthy (VStr s)) then None
             else let n0 := StringToNumber
                              (Sync.commasToDots
                                 (Sync.stripDots (Sync.stripCurrency s))) in
                  if isFinite n0 then Some n0 else None) = Some n ->
            isFinite n = true /\ s <> []
            /\ n = StringToNumber
                     (Sync.commasToDots
                        (Sync.stripDots (Sync.stripCurrency s)))).
  { intros s Hs. destruct s as [|c t]; [discriminate Hs|].
    cbn [truthy negb] in Hs. cbv zeta in Hs.
    destruct (isFinite _) eqn:F; [|discriminate].
    injection Hs as <-. repeat split; [exact F|discriminate]. }
  destruct v as [| |b|m|s|o]; cbn [Sync.brlToNumber] in H;
    try discriminate.
  - right. now apply G.
  - left. now injection H as ->.
  - right. now apply G.
  - right. now apply G.
Qed.

Lemma brlToNumber_text_is_finite_witness :
  S_ "1.000,00" = VNum (numZ 1000)
  \/ (isFinite (numZ 1000) = true
      /\ trim (String_ (S_ "1.000,00")) <> []
      /\ numZ 1000
         = StringToNumber
             (Sync.commasToDots
                (Sync.stripDots
                   (Sync.stripCurrency (trim (String_ (S_ "1.000,00"))))))).
Proof.
  apply (@brlToNumber_text_is_finite (S_ "1.000,00") (numZ 1000)).
  vm_compute. reflexivity.
Defined.

(** X8. A text that is not blank but of which the cleaning leaves nothing,
    such as the currency symbol alone, is read as the amount 0, not as a
    missing amount: [Number] of the empty string is 0. *)
Theorem brlToNumber_symbol_only : forall s,
  trim s <> [] ->
  trim (Sync.commasToDots (Sync.stripDots (Sync.stripCurrency (trim s))))
  = [] ->
  Sync.brlToNumber (VStr s) = Some posZero.
Proof.
  intros s Hs Hc. cbn [Sync.brlToNumber String_].
  destruct (trim s) as [|c t] eqn:E; [congruence|].
  cbn [truthy negb]. cbv zeta. unfold StringToNumber. rewrite Hc.
  reflexivity.
Qed.

Lemma brlToNumber_symbol_only_witness :
  Sync.brlToNumber (S_ "R$") = Some posZero.
Proof.
  apply (@brlToNumber_symbol_only (js "R$")).
  - vm_compute. discriminate.
  - vm_compute. reflexivity.
Defined.

End CurrencyEdges.

(* ================================================================== *)
(** * normalize and the month names *)
(* ================================================================== *)

Section Normalize.

Lemma below_256 : forall (P : N -> bool),
  forallb P (List.map N.of_nat (seq 0 256)) = true ->
  forall c, (c < 256)%N -> P c = true.
Proof.
  intros P H c Hc. rewrite forallb_forall in H. apply H.
  apply in_map_iff. exists (N.to_nat c). split; [apply N2Nat.id|].
  apply in_seq. lia.
Qed.

Lemma lowerLatin1_high : forall c, (256 <= c)%N -> lowerLatin1 c = c.
Proof.
  intros c H. unfold lowerLatin1.
  replace (c <=? 90)%N with false by (symmetry; apply N.leb_gt; lia).
  replace (c <=? 222)%N with false by (symmetry; apply N.leb_gt; lia).
  destruct (65 <=? c)%N, (192 <=? c)%N; reflexivity.
Qed.

Lemma lowerLatin1_whiteSpace : forall c,
  isWhiteSpace (lowerLatin1 c) = isWhiteSpace c.
Proof.
  intros c. destruct (N.lt_ge_cases c 256) as [H|H].
  - apply Bool.eqb_prop.
    apply (below_256
             (fun c => Bool.eqb (isWhiteSpace (lowerLatin1 c))
                         (isWhiteSpace c))); [|exact H].
    vm_compute. reflexivity.
  - now rewrite lowerLatin1_high by assumption.
Qed.

Lemma lowerLatin1_idem : forall c,
  lowerLatin1 (lowerLatin1 c) = lowerLatin1 c.
Proof.
  intros c. destruct (N.lt_ge_cases c 256) as [H|H].
  - apply N.eqb_eq.
    apply (below_256
             (fun c => (lowerLatin1 (lowerLatin1 c) =? lowerLatin1 c)%N));
      [|exact H].
    vm_compute. reflexivity.
  - now rewrite !(@lowerLatin1_high c H).
Qed.

Lemma lowerLatin1_below : forall c,
  (c <? 256)%N = true -> (lowerLatin1 c <? 256)%N = true.
Proof.
  intros c H. apply N.ltb_lt in H.
  apply (below_256 (fun c => (lowerLatin1 c <? 256)%N)); [|exact H].
  vm_compute. reflexivity.
Qed.

(** On Latin-1 the mapping of the database is [lowerLatin1], and neither
    of the two special mappings applies. *)
Lemma lowerPoint_latin1 : forall c,
  (c <? 256)%N = true ->
  (c =? 0x3A3)%N = false /\ (c =? 0x130)%N = false
  /\ lowerPoint c = lowerLatin1 c
  /\ isHighSurrogate c = false.
Proof.
  intros c H. apply N.ltb_lt in H.
  assert (G : (negb (c =? 0x3A3)%N && negb (c =? 0x130)%N
               && (lowerPoint c =? lowerLatin1 c)%N
               && negb (isHighSurrogate c)) = true).
  { apply (below_256
             (fun c => negb (c =? 0x3A3)%N && negb (c =? 0x130)%N
                       && (lowerPoint c =? lowerLatin1 c)%N
                       && negb (isHighSurrogate c))); [|exact H].
    vm_compute. reflexivity. }
  apply andb_true_iff in G. destruct G as [G G4].
  apply andb_true_iff in G. destruct G as [G G3].
  apply andb_true_iff in G. destruct G as [G1 G2].
  apply negb_true_iff in G1, G2, G4. apply N.eqb_eq in G3.
  repeat split; assumption.
Qed.

Lemma codePoints_latin1 : forall s, latin1 s = true -> codePoints s = s.
Proof.
  induction s as [|c t IH]; intros H; [reflexivity|].
  cbn [latin1 forallb] in H. apply andb_true_iff in H.
  destruct H as [Hc Ht].
  destruct (lowerPoint_latin1 c Hc) as (_ & _ & _ & Hs).
  cbn [codePoints]. rewrite Hs. cbn [andb].
  destruct t as [|d u]; [reflexivity|].
  f_equal. now apply IH.
Qed.

Lemma lowerPoints_latin1 : forall s afterCased,
  latin1 s = true -> lowerPoints afterCased s = List.map lowerLatin1 s.
Proof.
  induction s as [|c t IH]; intros b H; [reflexivity|].
  cbn [latin1 forallb] in H. apply andb_true_iff in H.
  destruct H as [Hc Ht].
  destruct (lowerPoint_latin1 c Hc) as (E1 & E2 & E3 & _).
  cbn [lowerPoints List.map]. rewrite E1, E2, E3.
  cbn [app]. f_equal. now apply IH.
Qed.

Lemma latin1_map_lower : forall s,
  latin1 s = true -> latin1 (List.map lowerLatin1 s) = true.
Proof.
  intros s H. unfold latin1 in *. rewrite forallb_forall in *.
  intros x Hx. apply in_map_iff in Hx. destruct Hx as [c [<- Hc]].
  apply lowerLatin1_below. now apply H.
Qed.

Lemma codeUnits_latin1 : forall s,
  latin1 s = true -> flat_map codeUnits s = s.
Proof.
  induction s as [|c t IH]; intros H; [reflexivity|].
  cbn [latin1 forallb] in H. apply andb_true_iff in H.
  destruct H as [Hc Ht]. cbn [flat_map]. unfold codeUnits at 1.
  replace (c <? 0x10000)%N with true
    by (symmetry; apply N.ltb_lt; apply N.ltb_lt in Hc; lia).
  cbn [app]. f_equal. now apply IH.
Qed.

Lemma toLowerCase_latin1 : forall s,
  latin1 s = true -> toLowerCase s = List.map lowerLatin1 s.
Proof.
  intros s H. unfold toLowerCase.
  rewrite codePoints_latin1, lowerPoints_latin1 by assumption.
  apply codeUnits_latin1. now apply latin1_map_lower.
Qed.

Lemma map_lower_idem : forall s,
  List.map lowerLatin1 (List.map lowerLatin1 s) = List.map lowerLatin1 s.
Proof.
  intros s. rewrite map_map. apply map_ext. apply lowerLatin1_idem.
Qed.

Lemma trimStart_map_lower : forall s,
  trimStart (List.map lowerLatin1 s) = List.map lowerLatin1 (trimStart s).
Proof.
  induction s as [|c s IH]; [reflexivity|].
  cbn [List.map trimStart].
  rewrite lowerLatin1_whiteSpace.
  destruct (isWhiteSpace c); [exact IH|reflexivity].
Qed.

Lemma trim_map_lower : forall s,
  trim (List.map lowerLatin1 s) = List.map lowerLatin1 (trim s).
Proof.
  intros s. unfold trim, trimEnd.
  rewrite trimStart_map_lower, <- map_rev, trimStart_map_lower.
  now rewrite map_rev.
Qed.

Lemma latin1_trimStart : forall s,
  latin1 s = true -> latin1 (trimStart s) = true.
Proof.
  induction s as [|c s IH]; intros H; [reflexivity|].
  cbn [trimStart]. destruct (isWhiteSpace c); [|exact H].
  cbn [latin1 forallb] in H. apply andb_true_iff in H. now apply IH.
Qed.

Lemma latin1_rev : forall s, latin1 s = true -> latin1 (rev s) = true.
Proof.
  intros s H. unfold latin1 in *. rewrite forallb_forall in *.
  intros x Hx. apply H. now apply in_rev.
Qed.

Lemma latin1_trim : forall s, latin1 s = true -> latin1 (trim s) = true.
Proof.
  intros s H. unfold trim, trimEnd.
  apply latin1_rev, latin1_trimStart, latin1_rev, latin1_trimStart.
  exact H.
Qed.

Lemma trimStart_idem : forall s, trimStart (trimStart s) = trimStart s.
Proof.
  induction s as [|c s IH]; [reflexivity|].
  cbn [trimStart]. destruct (isWhiteSpace c) eqn:E; [exact IH|].
  cbn [trimStart]. now rewrite E.
Qed.

Lemma trimStart_snoc : forall a z,
  isWhiteSpace z = false -> trimStart (a ++ [z]) = trimStart a ++ [z].
Proof.
  induction a as [|c a IH]; intros z H.
  - cbn [app trimStart]. now rewrite H.
  - cbn [app trimStart]. destruct (isWhiteSpace c); [now apply IH|].
    reflexivity.
Qed.

Lemma trimEnd_cons : forall c t,
  isWhiteSpace c = false -> trimEnd (c :: t) = c :: trimEnd t.
Proof.
  intros c t H. unfold trimEnd. cbn [rev].
  rewrite trimStart_snoc by assumption.
  rewrite rev_app_distr. reflexivity.
Qed.

Lemma trim_idem : forall s, trim (trim s) = trim s.
Proof.
  intros s. unfold trim at 1 2 3.
  destruct (trimStart s) as [|c t] eqn:E; [reflexivity|].
  assert (Hc : isWhiteSpace c = false).
  { clear -E. induction s as [|x s IH]; [discriminate|].
    cbn [trimStart] in E. destruct (isWhiteSpace x) eqn:Ex.
    - now apply IH.
    - injection E as -> _. exact Ex. }
  rewrite trimEnd_cons by assumption.
  rewrite trimStart_head by assumption.
  rewrite <- trimEnd_cons by assumption.
  unfold trimEnd. rewrite rev_involutive, trimStart_idem. reflexivity.
Qed.

Lemma trim_nonblank : forall s, trim s <> [] -> trimStart s <> [].
Proof. intros s H E. apply H. unfold trim. now rewrite E. Qed.

(** X9. On Latin-1 text [normalize] is idempotent, and [isoDateFromMonth]
    gives a label and its normalized form the same date: case and
    surrounding white space of a label do not matter. *)
Theorem normalize_idempotent : forall v year,
  latin1 (String_ (orElse v (VStr []))) = true ->
  Sync.normalize (VStr (Sync.normalize v)) = Sync.normalize v
  /\ Sync.isoDateFromMonth (Sync.normalize v) year
     = Sync.isoDateFromMonth (String_ (orElse v (VStr []))) year.
Proof.
  intros v year H.
  assert (E : forall s, Sync.normalize (VStr s) = toLowerCase (trim s)).
  { intros [|c s]; reflexivity. }
  assert (I : Sync.normalize (VStr (Sync.normalize v)) = Sync.normalize v).
  { rewrite E. unfold Sync.normalize.
    pose proof (latin1_trim _ H) as Ht.
    rewrite (toLowerCase_latin1 _ Ht).
    rewrite trim_map_lower, trim_idem.
    rewrite toLowerCase_latin1 by now apply latin1_map_lower.
    apply map_lower_idem. }
  split; [exact I|].
  unfold Sync.isoDateFromMonth. cbv zeta. rewrite I.
  rewrite (E (String_ (orElse v (VStr [])))). reflexivity.
Qed.

Lemma normalize_idempotent_witness :
  Sync.normalize (VStr (Sync.normalize (S_ "  MARÇO ")))
  = Sync.normalize (S_ "  MARÇO ")
  /\ Sync.isoDateFromMonth (Sync.normalize (S_ "  MARÇO ")) (numZ 2026)
     = Sync.isoDateFromMonth (String_ (orElse (S_ "  MARÇO ") (VStr [])))
         (numZ 2026).
Proof.
  apply (@normalize_idempotent (S_ "  MARÇO ") (numZ 2026)).
  vm_compute. reflexivity.
Defined.

End Normalize.

Section Months.

Lemma small_month_number : forall k,
  (1 <= k <= 12)%Z ->
  truthy (VNum (numZ k)) = true
  /\ String_ (VNum (numZ k)) = decimalDigits k
  /\ length (padStart0 2 (decimalDigits k)) = 2.
Proof.
  intros k Hk.
  assert (C : (k = 1 \/ k = 2 \/ k = 3 \/ k = 4 \/ k = 5 \/ k = 6
               \/ k = 7 \/ k = 8 \/ k = 9 \/ k = 10 \/ k = 11
               \/ k = 12)%Z) by lia.
  repeat (destruct C as [->|C];
          [repeat split; vm_compute; reflexivity|]).
  subst k. repeat split; vm_compute; reflexivity.
Qed.

Lemma recognizedMonth_number : forall name,
  recognizedMonth name = true ->
  exists k, (1 <= k <= 12)%Z /\ Sync.monthMap name = VNum (numZ k).
Proof.
  intros name H. unfold recognizedMonth in H. apply includes_In in H.
  unfold monthNames in H. cbn [In] in H.
  destruct H as [<-|H]; [exists 1%Z; split; [lia|now vm_compute]|].
  destruct H as [<-|H]; [exists 2%Z; split; [lia|now vm_compute]|].
  destruct H as [<-|H]; [exists 3%Z; split; [lia|now vm_compute]|].
  destruct H as [<-|H]; [exists 3%Z; split; [lia|now vm_compute]|].
  destruct H as [<-|H]; [exists 4%Z; split; [lia|now vm_compute]|].
  destruct H as [<-|H]; [exists 5%Z; split; [lia|now vm_compute]|].
  destruct H as [<-|H]; [exists 6%Z; split; [lia|now vm_compute]|].
  destruct H as [<-|H]; [exists 7%Z; split; [lia|now vm_compute]|].
  destruct H as [<-|H]; [exists 8%Z; split; [lia|now vm_compute]|].
  destruct H as [<-|H]; [exists 9%Z; split; [lia|now vm_compute]|].
  destruct H as [<-|H]; [exists 10%Z; split; [lia|now vm_compute]|].
  destruct H as [<-|H]; [exists 11%Z; split; [lia|now vm_compute]|].
  destruct H as [<-|H]; [exists 12%Z; split; [lia|now vm_compute]|].
  contradiction.
Qed.

(** X10. For a label that normalizes to one of the month names,
    [isoDateFromMonth] gives the year, the number of the month in two
    digits, and day 01. *)
Theorem isoDateFromMonth_of_month : forall m year,
  recognizedMonth (Sync.normalize (VStr m)) = true ->
  exists k,
    (1 <= k <= 12)%Z
    /\ Sync.monthMap (Sync.normalize (VStr m)) = VNum (numZ k)
    /\ Sync.isoDateFromMonth m year
       = Some (String_ (VNum year) ++ js "-"
               ++ padStart0 2 (decimalDigits k) ++ js "-01")
    /\ length (padStart0 2 (decimalDigits k)) = 2.
Proof.
  intros m year H.
  destruct (recognizedMonth_number _ H) as (k & Hk & E).
  destruct (small_month_number Hk) as (T & S & L).
  exists k. split; [exact Hk|]. split; [exact E|]. split; [|exact L].
  unfold Sync.isoDateFromMonth. cbv zeta. rewrite E, T, S. reflexivity.
Qed.

Lemma isoDateFromMonth_of_month_witness :
  exists k,
    (1 <= k <= 12)%Z
    /\ Sync.monthMap (Sync.normalize (S_ " MARÇO ")) = VNum (numZ k)
    /\ Sync.isoDateFromMonth (js " MARÇO ") (numZ 2026)
       = Some (String_ (VNum (numZ 2026)) ++ js "-"
               ++ padStart0 2 (decimalDigits k) ++ js "-01")
    /\ length (padStart0 2 (decimalDigits k)) = 2.
Proof.
  apply (@isoDateFromMonth_of_month (js " MARÇO ") (numZ 2026)).
  vm_compute. reflexivity.
Defined.

End Months.

(* ================================================================== *)
(** * What the tables hold, and how far they are read *)
(* ================================================================== *)

Section Tables.

Lemma scanTabela1_In_label : forall rs sr,
  In sr (Sync.scanTabela1 rs) ->
  exists row, In row rs
    /\ sr = Sync.summaryRow (trim (String_ (at_ row 0))) row
    /\ trim (String_ (at_ row 0)) <> []
    /\ truthy (Sync.monthMap
                 (Sync.normalize (VStr (trim (String_ (at_ row 0))))))
       = true.
Proof.
  induction rs as [|row rest IH]; intros sr H; [contradiction|].
  cbn [Sync.scanTabela1] in H. cbv zeta in H.
  assert (K : forall sr, In sr (Sync.scanTabela1 rest) ->
            exists row0, In row0 (row :: rest)
              /\ sr = Sync.summaryRow (trim (String_ (at_ row0 0))) row0
              /\ trim (String_ (at_ row0 0)) <> []
              /\ truthy (Sync.monthMap
                           (Sync.normalize
                              (VStr (trim (String_ (at_ row0 0))))))
                 = true).
  { intros sr' H'. destruct (IH _ H') as (row0 & Hin & R).
    exists row0. split; [now right|exact R]. }
  destruct (trim (String_ (at_ row 0))) as [|c m] eqn:El.
  - cbn [truthy negb] in H. now apply K.
  - cbn [truthy negb] in H.
    destruct (truthy (Sync.monthMap _)) eqn:Em; cbn [negb] in H.
    + destruct H as [<-|H]; [|now apply K].
      exists row. rewrite El. repeat split; [now left|discriminate|exact Em].
    + destruct (jseqb _ _); [contradiction|now apply K].
Qed.

Lemma scanMini_In_label : forall rs pt,
  In pt (Sync.scanMini rs) ->
  exists row, In row rs
    /\ pt = Sync.seriesPoint (trim (String_ (at_ row 0))) row
    /\ trim (String_ (at_ row 0)) <> []
    /\ truthy (Sync.monthMap
                 (Sync.normalize (VStr (trim (String_ (at_ row 0))))))
       = true.
Proof.
  induction rs as [|row rest IH]; intros pt H; [contradiction|].
  cbn [Sync.scanMini] in H. cbv zeta in H.
  assert (K : forall pt, In pt (Sync.scanMini rest) ->
            exists row0, In row0 (row :: rest)
              /\ pt = Sync.seriesPoint (trim (String_ (at_ row0 0))) row0
              /\ trim (String_ (at_ row0 0)) <> []
              /\ truthy (Sync.monthMap
                           (Sync.normalize
                              (VStr (trim (String_ (at_ row0 0))))))
                 = true).
  { intros pt' H'. destruct (IH _ H') as (row0 & Hin & R).
    exists row0. split; [now right|exact R]. }
  destruct (trim (String_ (at_ row 0))) as [|c m] eqn:El.
  - cbn [truthy negb] in H. now apply K.
  - cbn [truthy negb] in H.
    destruct (jseqb _ _); [contradiction|].
    destruct (truthy (Sync.monthMap _)) eqn:Em; cbn [negb] in H.
    + destruct H as [<-|H]; [|now apply K].
      exists row. rewrite El. repeat split; [now left|discriminate|exact Em].
    + now apply K.
Qed.

Lemma isoDate_of_truthy : forall m year,
  truthy (Sync.monthMap (Sync.normalize (VStr m))) = true ->
  Sync.isoDateFromMonth m year <> None.
Proof.
  intros m year H. unfold Sync.isoDateFromMonth. cbv zeta.
  rewrite H. discriminate.
Qed.

Lemma truthy_not_total : forall m,
  truthy (Sync.monthMap (Sync.normalize (VStr m))) = true ->
  Sync.normalize (VStr m) <> js "total".
Proof. intros m H E. rewrite E in H. vm_compute in H. discriminate H. Qed.

(** X11. Every row of [tabela1] has a month label that is not blank, is
    trimmed and passes the [monthMap] test, hence is not "total"; its date
    is the date of that label and is never [null]; its growth label is
    never the empty string. *)
Theorem tabela1_rows_labelled : forall rows sr,
  In sr (Sync.parseTabela1 rows) ->
  Row.month sr <> []
  /\ trim (Row.month sr) = Row.month sr
  /\ truthy (Sync.monthMap (Sync.normalize (VStr (Row.month sr)))) = true
  /\ Sync.normalize (VStr (Row.month sr)) <> js "total"
  /\ Row.date sr = Sync.isoDateFromMonth (Row.month sr) (numZ 2026)
  /\ Row.date sr <> None
  /\ Row.crescimento sr <> Some [].
Proof.
  intros rows sr H. unfold Sync.parseTabela1 in H.
  destruct (Sync.headerRow rows) as [h|]; [|contradiction].
  apply scanTabela1_In_label in H.
  destruct H as (row & _ & -> & Hl & Hm).
  cbn [Sync.summaryRow Row.month Row.date Row.crescimento].
  split; [exact Hl|]. split; [apply trim_idem|]. split; [exact Hm|].
  split; [now apply truthy_not_total|]. split; [reflexivity|].
  split; [now apply isoDate_of_truthy|].
  destruct (trim (String_ (at_ row 5))); cbn [truthy]; discriminate.
Qed.

Lemma tabela1_rows_labelled_witness :
  Row.month Fixture.janeiroRow <> []
  /\ trim (Row.month Fixture.janeiroRow) = Row.month Fixture.janeiroRow
  /\ truthy (Sync.monthMap
               (Sync.normalize (VStr (Row.month Fixture.janeiroRow))))
     = true
  /\ Sync.normalize (VStr (Row.month Fixture.janeiroRow)) <> js "total"
  /\ Row.date Fixture.janeiroRow
     = Sync.isoDateFromMonth (Row.month Fixture.janeiroRow) (numZ 2026)
  /\ Row.date Fixture.janeiroRow <> None
  /\ Row.crescimento Fixture.janeiroRow <> Some [].
Proof.
  apply (@tabela1_rows_labelled Fixture.primary Fixture.janeiroRow).
  vm_compute. left. reflexivity.
Defined.

(** X12. Every point of [tabela2] and [tabela3] has a month label that is
    not blank, is trimmed and passes the [monthMap] test, hence is not
    "total", and a date that is never [null]. *)
Theorem mini_points_labelled : forall rows title pt,
  In pt (Sync.parseMini rows title) ->
  Point.month pt <> []
  /\ trim (Point.month pt) = Point.month pt
  /\ truthy (Sync.monthMap (Sync.normalize (VStr (Point.month pt)))) = true
  /\ Sync.normalize (VStr (Point.month pt)) <> js "total"
  /\ Point.date pt = Sync.isoDateFromMonth (Point.month pt) (numZ 2026)
  /\ Point.date pt <> None.
Proof.
  intros rows title pt H. unfold Sync.parseMini in H. cbv zeta in H.
  destruct (findIndex _ rows) as [r|]; [|contradiction].
  apply scanMini_In_label in H.
  destruct H as (row & _ & -> & Hl & Hm).
  cbn [Sync.seriesPoint Point.month Point.date].
  split; [exact Hl|]. split; [apply trim_idem|]. split; [exact Hm|].
  split; [now apply truthy_not_total|]. split; [reflexivity|].
  now apply isoDate_of_truthy.
Qed.

Lemma mini_points_labelled_witness :
  Point.month Sample.janeiroPoint <> []
  /\ trim (Point.month Sample.janeiroPoint) = Point.month Sample.janeiroPoint
  /\ truthy (Sync.monthMap
               (Sync.normalize (VStr (Point.month Sample.janeiroPoint))))
     = true
  /\ Sync.normalize (VStr (Point.month Sample.janeiroPoint)) <> js "total"
  /\ Point.date Sample.janeiroPoint
     = Sync.isoDateFromMonth (Point.month Sample.janeiroPoint) (numZ 2026)
  /\ Point.date Sample.janeiroPoint <> None.
Proof.
  apply (@mini_points_labelled Fixture.mini (js "Nubank")
           Sample.janeiroPoint).
  vm_compute. left. reflexivity.
Defined.

Lemma firstn_min_length : forall A (l : list A) n,
  firstn (Nat.min (length l) n) l = firstn n l.
Proof.
  intros A l n. destruct (Nat.le_ge_cases n (length l)) as [H|H].
  - now rewrite Nat.min_r.
  - rewrite Nat.min_l by assumption.
    rewrite firstn_all. symmetry. now apply firstn_all2.
Qed.

Lemma headerRow_firstn : forall rows,
  Sync.headerRow rows = findIndex Sync.isHeaderRow (firstn 80 rows).
Proof.
  intros rows. unfold Sync.headerRow, slice.
  rewrite Nat.sub_0_r. cbn [skipn]. now rewrite firstn_min_length.
Qed.

(** X13. The header of the primary table is looked for in the first 80
    rows only: when none of them has the three labels, [tabela1] is empty,
    whatever the rows from row 80 on hold. *)
Theorem tabela1_header_within_80 : forall pre rest,
  80 <= length pre ->
  (forall row, In row (firstn 80 pre) -> Sync.isHeaderRow row = false) ->
  Sync.parseTabela1 (pre ++ rest) = [].
Proof.
  intros pre rest Hlen Hno. unfold Sync.parseTabela1.
  rewrite headerRow_firstn, firstn_app.
  replace (80 - length pre) with 0 by lia.
  cbn [firstn]. rewrite app_nil_r.
  now rewrite findIndex_none.
Qed.

Lemma tabela1_header_within_80_witness :
  Sync.parseTabela1 Sample.lateHeader = [].
Proof.
  apply (@tabela1_header_within_80 (repeat [] 80) Fixture.primary).
  - simpl. lia.
  - intros row H. apply In_firstn in H. apply repeat_spec in H.
    rewrite H. reflexivity.
Defined.

Lemma findIndex_app_found : forall A (p : A -> bool) l1 l2 h,
  findIndex p l1 = Some h -> findIndex p (l1 ++ l2) = Some h.
Proof.
  induction l1 as [|x l1 IH]; intros l2 h H; [discriminate|].
  cbn [app findIndex] in *. destruct (p x); [exact H|].
  destruct (findIndex p l1) as [i|] eqn:E; [|discriminate].
  now rewrite (IH l2 i eq_refl).
Qed.

Lemma findIndex_bound : forall A (p : A -> bool) l h,
  findIndex p l = Some h -> h < length l.
Proof.
  induction l as [|x l IH]; intros h H; [discriminate|].
  cbn [findIndex] in H. destruct (p x).
  - injection H as <-. simpl. lia.
  - destruct (findIndex p l) as [i|]; [|discriminate].
    injection H as <-. specialize (IH i eq_refl). simpl. lia.
Qed.

Lemma scanTabela1_after_total : forall a t post1 post2,
  Sync.normalize (VStr (trim (String_ (at_ t 0)))) = js "total" ->
  Sync.scanTabela1 (a ++ t :: post1) = Sync.scanTabela1 (a ++ t :: post2).
Proof.
  intros a t post1 post2 Ht. induction a as [|row a IH].
  - cbn [app]. now rewrite !scanTabela1_total.
  - cbn [app Sync.scanTabela1]. cbv zeta. rewrite IH. reflexivity.
Qed.

(** X14. With the header among the rows [pre], what follows a row
    labelled "total" has no part in [tabela1]. *)
Theorem tabela1_nothing_after_total : forall pre t post1 post2,
  Sync.headerRow pre <> None ->
  Sync.normalize (VStr (trim (String_ (at_ t 0)))) = js "total" ->
  Sync.parseTabela1 (pre ++ t :: post1)
  = Sync.parseTabela1 (pre ++ t :: post2).
Proof.
  intros pre t post1 post2 Hh Ht.
  destruct (Sync.headerRow pre) as [h|] eqn:E; [|congruence].
  rewrite headerRow_firstn in E.
  assert (Hb : h < length pre).
  { apply findIndex_bound in E. rewrite length_firstn in E. lia. }
  assert (G : forall post, Sync.headerRow (pre ++ t :: post) = Some h).
  { intros post. rewrite headerRow_firstn, firstn_app.
    now apply findIndex_app_found. }
  unfold Sync.parseTabela1. rewrite !G, !slice_to_end.
  rewrite !skipn_app.
  replace (h + 1 - length pre) with 0 by lia. cbn [skipn].
  now apply scanTabela1_after_total.
Qed.

Lemma tabela1_nothing_after_total_witness :
  Sync.parseTabela1 Fixture.primary
  = Sync.parseTabela1 (firstn 5 Fixture.primary).
Proof.
  apply (@tabela1_nothing_after_total (firstn 4 Fixture.primary)
           (nth 4 Fixture.primary []) (skipn 5 Fixture.primary) []).
  - vm_compute. discriminate.
  - vm_compute. reflexivity.
Defined.

Lemma findIndex_firstn : forall A (p : A -> bool) l n r,
  r < n -> (findIndex p l = Some r <-> findIndex p (firstn n l) = Some r).
Proof.
  intros A p. induction l as [|x l IH]; intros n r Hr.
  - rewrite firstn_nil. tauto.
  - destruct n as [|n]; [lia|]. cbn [firstn findIndex].
    destruct (p x); [tauto|].
    destruct r as [|r].
    + split; intros H.
      * destruct (findIndex p l); discriminate.
      * destruct (findIndex p (firstn n l)); discriminate.
    + specialize (IH n r ltac:(lia)). split; intros H.
      * destruct (findIndex p l) as [i|] eqn:E; [|discriminate].
        injection H as ->. now rewrite (proj1 IH eq_refl).
      * destruct (findIndex p (firstn n l)) as [i|] eqn:E; [|discriminate].
        injection H as ->. now rewrite (proj2 IH eq_refl).
Qed.

Lemma slice_of_firstn : forall A (l : list A) lo hi,
  slice l lo (Nat.min (length l) hi) = skipn lo (firstn hi l).
Proof.
  intros A l lo hi. unfold slice.
  rewrite skipn_firstn_comm.
  destruct (Nat.le_ge_cases hi (length l)) as [H|H].
  - now rewrite Nat.min_r.
  - rewrite Nat.min_l by assumption.
    rewrite !firstn_all2; [reflexivity| |]; rewrite length_skipn; lia.
Qed.

(** X15. A mini table is read in the 39 rows below its title only: two
    grids that agree on the rows up to there give the same points. *)
Theorem mini_reads_39_rows : forall rows1 rows2 title r,
  findIndex (Sync.hasTitle (toLowerCase title)) rows1 = Some r ->
  firstn (r + 40) rows1 = firstn (r + 40) rows2 ->
  Sync.parseMini rows1 title = Sync.parseMini rows2 title.
Proof.
  intros rows1 rows2 title r Hr Heq. unfold Sync.parseMini. cbv zeta.
  assert (H2 : findIndex (Sync.hasTitle (toLowerCase title)) rows2
               = Some r).
  { apply (findIndex_firstn _ rows2 (n := r + 40)); [lia|].
    rewrite <- Heq.
    now apply (findIndex_firstn _ rows1 (n := r + 40)); [lia|]. }
  rewrite Hr, H2, !slice_of_firstn, Heq. reflexivity.
Qed.

Lemma mini_reads_39_rows_witness :
  Sync.parseMini Sample.tallMini (js "Nubank")
  = Sync.parseMini (firstn 40 Sample.tallMini) (js "Nubank").
Proof.
  apply (@mini_reads_39_rows Sample.tallMini (firstn 40 Sample.tallMini)
           (js "Nubank") 0).
  - vm_compute. reflexivity.
  - vm_compute. reflexivity.
Defined.

End Tables.

(* ================================================================== *)
(** * The anchors and the entries of detalheMensal *)
(* ================================================================== *)

Section Blocks.

Lemma StronglySorted_app : forall A (R : A -> A -> Prop) l1 l2,
  StronglySorted R l1 -> StronglySorted R l2 ->
  (forall a b, In a l1 -> In b l2 -> R a b) ->
  StronglySorted R (l1 ++ l2).
Proof.
  intros A R. induction l1 as [|x l1 IH]; intros l2 H1 H2 H; [exact H2|].
  inversion H1 as [|? ? Hs Hx]; subst. cbn [app]. constructor.
  - apply IH; [assumption|assumption|].
    intros a b Ha Hb. apply H; [now right|assumption].
  - apply Forall_app. split; [assumption|].
    apply Forall_forall. intros b Hb. apply H; [now left|assumption].
Qed.

Lemma flat_map_seq_sorted :
  forall B (R : B -> B -> Prop) (Q : B -> Prop) (idx : B -> nat)
         (f : nat -> list B),
  (forall i b, In b (f i) -> Q b /\ idx b = i) ->
  (forall i, StronglySorted R (f i)) ->
  (forall a b, Q a -> Q b -> idx a < idx b -> R a b) ->
  forall n s, StronglySorted R (flat_map f (seq s n)).
Proof.
  intros B R Q idx f Hf Hs HR. induction n as [|n IH]; intros s;
    [constructor|].
  cbn [seq flat_map]. apply StronglySorted_app; [apply Hs|apply IH|].
  intros a b Ha Hb. apply in_flat_map in Hb. destruct Hb as [j [Hj Hb]].
  apply in_seq in Hj.
  destruct (Hf _ _ Ha) as [Qa Ia]. destruct (Hf _ _ Hb) as [Qb Ib].
  apply HR; [assumption|assumption|lia].
Qed.

Lemma anchorAt_cases : forall rows r c,
  Sync.anchorAt rows r c = []
  \/ exists m, Sync.anchorAt rows r c = [Anchor.mk m r c].
Proof.
  intros rows r c. unfold Sync.anchorAt. cbv zeta.
  destruct (negb (truthy (VStr _))); [now left|].
  destruct (negb (truthy (Sync.monthMap _))); [now left|].
  destruct (Sync.hasSubHeader _); [right; eexists; reflexivity|now left].
Qed.

Lemma anchorAt_In : forall rows r c a,
  In a (Sync.anchorAt rows r c) -> Anchor.r a = r /\ Anchor.c a = c.
Proof.
  intros rows r c a H.
  destruct (anchorAt_cases rows r c) as [E|[m E]]; rewrite E in H.
  - contradiction.
  - destruct H as [<-|[]]. split; reflexivity.
Qed.

(** X16. [findMonthAnchors] lists the anchors in reading order, row by row
    and each row from left to right, and no cell twice. *)
Theorem anchors_in_reading_order : forall rows,
  StronglySorted readsBefore (Sync.findMonthAnchors rows).
Proof.
  intros rows. unfold Sync.findMonthAnchors.
  apply (@flat_map_seq_sorted Anchor.t readsBefore (fun _ => True)
           Anchor.r).
  - intros i b Hb. split; [exact I|].
    apply in_flat_map in Hb. destruct Hb as [c [_ Hb]].
    now apply anchorAt_In in Hb.
  - intros i.
    apply (@flat_map_seq_sorted Anchor.t readsBefore
             (fun b => Anchor.r b = i) Anchor.c).
    + intros c b Hb. apply anchorAt_In in Hb. tauto.
    + intros c. destruct (anchorAt_cases rows i c) as [E|[m E]];
        rewrite E; repeat constructor.
    + intros a b Ha Hb Hlt. right. split; [congruence|assumption].
  - intros a b _ _ Hlt. now left.
Qed.

Lemma includes_nil : forall x, includes [] x = false.
Proof. reflexivity. Qed.

(** X17. An anchor is never in the last row of the grid and never beyond
    column 249; its label is not blank, is trimmed, and has a date. *)
Theorem anchor_has_a_row_below : forall rows a,
  In a (Sync.findMonthAnchors rows) ->
  Anchor.r a + 1 < length rows
  /\ Anchor.c a < 250
  /\ Anchor.month a <> []
  /\ trim (Anchor.month a) = Anchor.month a
  /\ Sync.isoDateFromMonth (Anchor.month a) (numZ 2026) <> None.
Proof.
  intros rows a H.
  destruct (In_findMonthAnchors _ _ H) as (Hr & Hc & Hm & Ht & Hs).
  split.
  { destruct (Nat.lt_ge_cases (Anchor.r a + 1) (length rows)) as [L|L];
      [assumption|].
    rewrite (nth_overflow rows [] L) in Hs.
    unfold slice in Hs. rewrite skipn_nil, firstn_nil in Hs.
    discriminate Hs. }
  split; [lia|]. split.
  { intros E. rewrite E in Ht. vm_compute in Ht. discriminate Ht. }
  split; [rewrite Hm; apply trim_idem|].
  now apply isoDate_of_truthy.
Qed.

Lemma anchor_has_a_row_below_witness :
  Anchor.r Fixture.fevereiroAnchor + 1 < length Fixture.fevereiro
  /\ Anchor.c Fixture.fevereiroAnchor < 250
  /\ Anchor.month Fixture.fevereiroAnchor <> []
  /\ trim (Anchor.month Fixture.fevereiroAnchor)
     = Anchor.month Fixture.fevereiroAnchor
  /\ Sync.isoDateFromMonth (Anchor.month Fixture.fevereiroAnchor)
       (numZ 2026) <> None.
Proof.
  apply (@anchor_has_a_row_below Fixture.fevereiro Fixture.fevereiroAnchor).
  vm_compute. left. reflexivity.
Defined.

Lemma lineItem_In : forall desc val it,
  In it (Sync.lineItem desc val) ->
  Item.desc it = desc /\ desc <> []
  /\ Sync.normalize (VStr desc) <> js "r$"
  /\ Sync.brlToNumber val = Some (Item.amount it).
Proof.
  intros desc val it H. unfold Sync.lineItem in H.
  destruct (truthy (VStr desc)) eqn:Ed; [|contradiction].
  destruct (jseqb _ _) eqn:Er; [contradiction|]. cbn [andb negb] in H.
  destruct (Sync.brlToNumber val) as [n|]; [|contradiction].
  destruct H as [<-|[]]. cbn [Item.desc Item.amount].
  split; [reflexivity|]. split.
  - intros ->. discriminate Ed.
  - split; [now apply jseqb_neq|reflexivity].
Qed.

Lemma untilTotal_not_total : forall e s rs row,
  In row (Block.untilTotal e s rs) -> Block.isTotalRow e s row = false.
Proof.
  intros e s. induction rs as [|r rest IH]; intros row H; [contradiction|].
  cbn [Block.untilTotal] in H.
  destruct (Block.isTotalRow e s r) eqn:E; [contradiction|].
  destruct H as [<-|H]; [assumption|now apply IH].
Qed.

Lemma blockDetail_sides : forall rows a d it,
  Sync.blockDetail rows a = Some d ->
  In it (Detail.entradas d ++ Detail.saidas d) ->
  exists e s row col,
    (col = e \/ col = s)
    /\ In row (Block.untilTotal e s (Sync.blockRows rows a))
    /\ In it (Block.sideItems col row).
Proof.
  intros rows a d it Hd Hit. unfold Sync.blockDetail in Hd.
  destruct (Sync.blockColumns rows a) as [[e s]|]; [|discriminate].
  rewrite scanBlock_untilTotal in Hd. injection Hd as <-.
  cbn [Detail.entradas Detail.saidas] in Hit.
  apply in_app_or in Hit. destruct Hit as [H|H].
  - apply in_flat_map in H. destruct H as [row [Hrow H]].
    exists e, s, row, e. tauto.
  - apply In_sort in H. apply in_flat_map in H.
    destruct H as [row [Hrow H]]. exists e, s, row, s. tauto.
Qed.

Lemma blockDetail_labels : forall rows a d it,
  Sync.blockDetail rows a = Some d ->
  In it (Detail.entradas d ++ Detail.saidas d) ->
  itemLabel (Item.desc it).
Proof.
  intros rows a d it Hd Hit.
  destruct (@blockDetail_sides rows a d it Hd Hit)
    as (e & s & row & col & Hcol & Hrow & H).
  apply untilTotal_not_total in Hrow.
  unfold Block.isTotalRow in Hrow. apply orb_false_iff in Hrow.
  destruct Hrow as [He Hs]. apply jseqb_neq in He, Hs.
  rewrite <- sideItems_lineItem in H. apply lineItem_In in H.
  destruct H as (-> & Hn & Hr & _).
  unfold itemLabel. split; [assumption|].
  split; [unfold Block.descAt; apply trim_idem|].
  split; [assumption|]. destruct Hcol as [-> | ->]; assumption.
Qed.

Lemma get_fold_key : forall rows k d l o,
  Details.get (fold_left (Sync.processAnchor rows) l o) k = Some d ->
  Details.get o k = Some d
  \/ exists a, In a l /\ Anchor.month a = k
       /\ Sync.blockDetail rows a = Some d.
Proof.
  intros rows k d. induction l as [|a l IH]; intros o H; [now left|].
  simpl in H. apply IH in H. destruct H as [H|[b (Hb & Hk & Hd)]].
  - unfold Sync.processAnchor in H.
    destruct (Sync.blockDetail rows a) as [d'|] eqn:E; [|now left].
    rewrite get_set in H. destruct (jseqb (Anchor.month a) k) eqn:Ek.
    + injection H as <-. right. exists a.
      apply jseqb_eq in Ek. split; [now left|]. split; assumption.
    + now left.
  - right. exists b. split; [now right|]. split; assumption.
Qed.

Lemma get_empty : forall k, Details.get Details.empty k = None.
Proof.
  intros k. unfold Details.get, Details.empty.
  cbn [Details.proto Details.props Details.assoc].
  destruct (jseqb k (js "__proto__")); reflexivity.
Qed.

(** X18. What [detalheMensal] holds under a key was computed from an
    anchor with that label: its date is the date of the key and is never
    [null], and the description of every item is not blank, is trimmed,
    and is neither the currency symbol nor the totals label. *)
Theorem detalheMensal_entries : forall rows k d,
  Details.get (Sync.parseTabela4 rows) k = Some d ->
  (exists a, In a (Sync.findMonthAnchors rows) /\ Anchor.month a = k
             /\ Sync.blockDetail rows a = Some d)
  /\ Detail.date d = Sync.isoDateFromMonth k (numZ 2026)
  /\ Detail.date d <> None
  /\ forall it, In it (Detail.entradas d ++ Detail.saidas d) ->
       itemLabel (Item.desc it).
Proof.
  intros rows k d H. unfold Sync.parseTabela4 in H.
  apply get_fold_key in H. destruct H as [H|[a (Ha & Hk & Hd)]].
  { rewrite get_empty in H. discriminate H. }
  assert (Hdate : Detail.date d = Sync.isoDateFromMonth k (numZ 2026)).
  { unfold Sync.blockDetail in Hd.
    destruct (Sync.blockColumns rows a) as [[e s]|]; [|discriminate].
    destruct (Sync.scanBlock _ _ _). injection Hd as <-.
    cbn [Detail.date]. now rewrite Hk. }
  split; [exists a; tauto|]. split; [exact Hdate|]. split.
  - rewrite Hdate, <- Hk.
    now apply (@anchor_has_a_row_below rows a Ha).
  - intros it Hit. now apply (@blockDetail_labels rows a d it Hd).
Qed.

Lemma detalheMensal_entries_witness :
  (exists a, In a (Sync.findMonthAnchors Fixture.fevereiro)
             /\ Anchor.month a = js "Fevereiro"
             /\ Sync.blockDetail Fixture.fevereiro a
                = Some Sample.fevereiroDetail)
  /\ Detail.date Sample.fevereiroDetail
     = Sync.isoDateFromMonth (js "Fevereiro") (numZ 2026)
  /\ Detail.date Sample.fevereiroDetail <> None
  /\ forall it,
       In it (Detail.entradas Sample.fevereiroDetail
              ++ Detail.saidas Sample.fevereiroDetail) ->
       itemLabel (Item.desc it).
Proof.
  apply (@detalheMensal_entries Fixture.fevereiro (js "Fevereiro")
           Sample.fevereiroDetail).
  vm_compute. reflexivity.
Defined.

Lemma doubleGrid_at : forall rows row col,
  doubleGrid rows -> In row rows -> wellFormedCell (at_ row col).
Proof.
  intros rows row col Hg Hrow. unfold at_.
  destruct (nth_in_or_default col row VUndefined) as [H|H].
  - now apply (Hg row).
  - rewrite H. exact I.
Qed.

(** X19. When the numbers of the grid are doubles, so are the amounts of
    all items, and the outflows of every entry of [detalheMensal] stand
    from the largest amount down, a missing amount ([NaN], 0) counting
    as 0. *)
Theorem saidas_sorted_descending : forall rows k d,
  doubleGrid rows ->
  Details.get (Sync.parseTabela4 rows) k = Some d ->
  StronglySorted notBelow (Detail.saidas d)
  /\ Forall (fun it => wellFormed (Item.amount it))
       (Detail.entradas d ++ Detail.saidas d).
Proof.
  intros rows k d Hg H. unfold Sync.parseTabela4 in H.
  apply get_fold_key in H. destruct H as [H|[a (_ & _ & Hd)]].
  { rewrite get_empty in H. discriminate H. }
  assert (W : Forall (fun it => wellFormed (Item.amount it))
                (Detail.entradas d ++ Detail.saidas d)).
  { apply Forall_forall. intros it Hit.
    destruct (@blockDetail_sides rows a d it Hd Hit)
      as (e & s & row & col & _ & Hrow & Hin).
    apply In_untilTotal in Hrow. unfold Sync.blockRows in Hrow.
    apply In_slice in Hrow.
    apply (@sideItems_wellFormed col row it); [|assumption].
    now apply (@doubleGrid_at rows). }
  split; [|exact W].
  unfold Sync.blockDetail in Hd.
  destruct (Sync.blockColumns rows a) as [[e s]|]; [|discriminate].
  rewrite scanBlock_untilTotal in Hd. injection Hd as <-.
  cbn [Detail.entradas Detail.saidas] in *.
  apply Forall_app in W. destruct W as [_ W].
  apply sort_byAmountDesc.
  apply Forall_forall. intros it Hit. rewrite Forall_forall in W.
  apply W. now apply In_sort.
Qed.

Lemma saidas_sorted_descending_witness :
  StronglySorted notBelow (Detail.saidas Sample.fevereiroDetail)
  /\ Forall (fun it => wellFormed (Item.amount it))
       (Detail.entradas Sample.fevereiroDetail
        ++ Detail.saidas Sample.fevereiroDetail).
Proof.
  apply (@saidas_sorted_descending Fixture.fevereiro (js "Fevereiro")
           Sample.fevereiroDetail).
  - intros row v Hrow Hv.
    assert (F : Forall (Forall wellFormedCell) Fixture.fevereiro).
    { repeat constructor; vm_compute; discriminate. }
    rewrite Forall_forall in F. specialize (F row Hrow).
    rewrite Forall_forall in F. now apply F.
  - vm_compute. reflexivity.
Defined.

Lemma upsert_keys : forall k v l k',
  In k' (List.map fst (Details.upsert k v l))
  <-> k' = k \/ In k' (List.map fst l).
Proof.
  intros k v l k'. induction l as [|[k0 v0] rest IH].
  - simpl. intuition.
  - cbn [Details.upsert]. destruct (jseqb k0 k) eqn:E.
    + apply jseqb_eq in E. subst k0. simpl. intuition.
    + cbn [List.map fst In]. rewrite IH. intuition.
Qed.

Lemma upsert_NoDup : forall k v l,
  NoDup (List.map fst l) -> NoDup (List.map fst (Details.upsert k v l)).
Proof.
  intros k v l. induction l as [|[k0 v0] rest IH]; intros H.
  - simpl. constructor; [intros []|constructor].
  - cbn [Details.upsert]. destruct (jseqb k0 k) eqn:E; [exact H|].
    cbn [List.map fst] in *. inversion H as [|? ? Hn Hr]; subst.
    constructor; [|now apply IH].
    intros Hin. apply upsert_keys in Hin. apply jseqb_neq in E.
    destruct Hin as [Hin|Hin]; [congruence|contradiction].
Qed.

Lemma fold_processAnchor_keys : forall rows l o,
  (forall a, In a l -> Sync.blockDetail rows a <> None) ->
  NoDup (ownKeys o) ->
  NoDup (ownKeys (fold_left (Sync.processAnchor rows) l o))
  /\ forall k,
       In k (ownKeys (fold_left (Sync.processAnchor rows) l o))
       <-> In k (ownKeys o)
           \/ (k <> js "__proto__" /\ In k (List.map Anchor.month l)).
Proof.
  intros rows. induction l as [|a l IH]; intros o Hd Ho.
  - split; [exact Ho|]. intros k. simpl. tauto.
  - cbn [fold_left].
    assert (Hd' : forall b, In b l -> Sync.blockDetail rows b <> None).
    { intros b Hb. apply Hd. now right. }
    pose proof (Hd a (or_introl eq_refl)) as Ha.
    unfold Sync.processAnchor at 2 4.
    destruct (Sync.blockDetail rows a) as [d|]; [|congruence].
    unfold Details.set.
    destruct (jseqb (Anchor.month a) (js "__proto__")) eqn:E.
    + apply jseqb_eq in E.
      destruct (IH (Details.mk (Some d) (Details.props o)) Hd' Ho)
        as [N K].
      split; [exact N|]. intros k. rewrite K.
      unfold ownKeys. cbn [Details.props List.map In].
      split; intros [H|[H1 H2]]; try tauto.
      destruct H2 as [H2|H2]; [congruence|tauto].
    + apply jseqb_neq in E.
      destruct (IH (Details.mk (Details.proto o)
                      (Details.upsert (Anchor.month a) d (Details.props o)))
                  Hd') as [N K].
      { unfold ownKeys. cbn [Details.props]. now apply upsert_NoDup. }
      split; [exact N|]. intros k. rewrite K.
      unfold ownKeys. cbn [Details.props List.map In].
      rewrite upsert_keys. split.
      * intros [[H|H]|[H1 H2]]; try tauto.
        right. split; [congruence|]. left. congruence.
      * intros [H|[H1 [H2|H2]]]; try tauto. left. left. congruence.
Qed.

(** X20. [detalheMensal] has no key twice, and its own keys are the labels
    of the anchors, the label [__proto__] left out: that one reaches the
    setter of the prototype and is no property of the object. *)
Theorem detalheMensal_keys : forall rows,
  NoDup (ownKeys (Sync.parseTabela4 rows))
  /\ forall k,
       In k (ownKeys (Sync.parseTabela4 rows))
       <-> k <> js "__proto__"
           /\ In k (List.map Anchor.month (Sync.findMonthAnchors rows)).
Proof.
  intros rows. unfold Sync.parseTabela4.
  destruct (@fold_processAnchor_keys rows (Sync.findMonthAnchors rows)
              Details.empty) as [N K].
  - intros a Ha. destruct (blockColumns_anchor _ _ Ha) as (e & s & Hc).
    unfold Sync.blockDetail. rewrite Hc.
    destruct (Sync.scanBlock _ _ _). discriminate.
  - constructor.
  - split; [exact N|]. intros k. rewrite K.
    unfold ownKeys, Details.empty. cbn [Details.props List.map In]. tauto.
Qed.

End Blocks.

Section SortedAlready.

Variable A : Type.
Variable comparefn : A -> A -> number.
Variable key : A -> ext.
Variable P : A -> Prop.
Hypothesis comparefn_key : forall x y, P x -> P y ->
  isPositive (comparefn x y) = extLtb (key x) (key y).

Lemma insertSorted_head : forall x l,
  P x -> Forall P l -> Forall (keyNotBelow key x) l ->
  insertSorted comparefn x l = x :: l.
Proof.
  intros x l Px Pl Hx. destruct l as [|y t]; [reflexivity|].
  inversion Pl; subst. inversion Hx as [|? ? Hxy _]; subst.
  cbn [insertSorted]. rewrite (comparefn_key Px) by assumption.
  unfold keyNotBelow in Hxy. now rewrite Hxy.
Qed.

Lemma sort_of_sorted : forall l,
  Forall P l -> StronglySorted (keyNotBelow key) l -> sort comparefn l = l.
Proof.
  induction l as [|x t IH]; intros Pl Hs; [reflexivity|].
  inversion Pl; subst. inversion Hs; subst.
  cbn [sort]. rewrite IH by assumption.
  now apply insertSorted_head.
Qed.

End SortedAlready.

(** X21. On amounts that are doubles, sorting the outflows leaves a list
    alone that stands from the largest amount down already; so sorting
    twice is sorting once. *)
Theorem sort_byAmountDesc_settles : forall l,
  Forall (fun a => wellFormed (Item.amount a)) l ->
  (StronglySorted notBelow l -> sort Sync.byAmountDesc l = l)
  /\ sort Sync.byAmountDesc (sort Sync.byAmountDesc l)
     = sort Sync.byAmountDesc l.
Proof.
  intros l W.
  assert (G : forall l0,
            Forall (fun a => wellFormed (Item.amount a)) l0 ->
            StronglySorted notBelow l0 -> sort Sync.byAmountDesc l0 = l0).
  { intros l0 W0 S0.
    apply (@sort_of_sorted Item.t Sync.byAmountDesc itemKey
             (fun a => wellFormed (Item.amount a)) byAmountDesc_key);
      assumption. }
  split; [now apply G|].
  destruct (sort_byAmountDesc W) as (_ & Hs & _).
  apply G; [|assumption].
  apply Forall_forall. intros it Hit. rewrite Forall_forall in W.
  apply W. now apply In_sort in Hit.
Qed.

Lemma sort_byAmountDesc_settles_witness :
  (StronglySorted notBelow Sample.outflows ->
   sort Sync.byAmountDesc Sample.outflows = Sample.outflows)
  /\ sort Sync.byAmountDesc (sort Sync.byAmountDesc Sample.outflows)
     = sort Sync.byAmountDesc Sample.outflows.
Proof.
  apply (@sort_byAmountDesc_settles Sample.outflows).
  repeat constructor; vm_compute; discriminate.
Defined.
